(** * The gesture engine of the hand-gesture client

    A shallow embedding of [GestureEngine] from
    [Voice_and_Gesture_Control_UI/gesture_client.py]: the per-frame state
    machine that turns thumb/index/middle fingertip positions into tap,
    double-tap, hold, drag and flick classifications.

    Python floats are IEEE binary64 numbers, and so are Rocq's primitive
    floats: the additions, subtractions, multiplications, divisions and
    comparisons of the source are the primitives of the same name. The one
    operation of the engine that is not an IEEE primitive is the power
    [v ** 2], which CPython hands to the C library: it raises OverflowError
    on a range error, and its value is the library's. The engine is embedded
    over an arbitrary function for it (section [Engine]), of which nothing
    is assumed; the scenarios at the end of the file run the engine with the
    rounded product.

    A call of [update] that raises leaves the Python object partly updated;
    the capture loop does not handle the exception and ends. The model has
    no engine after a call that raises.

    Beside the engine the file embeds what the engine drives: the
    [TestOverlay] it owns, the moves of the capture loop on both, and the
    [GestureHandler] of [WindowsControl/gesture_handler.py], which turns the
    engine's events into mouse moves and tool calls. *)

From Stdlib Require Import Floats ZArith Bool List String Lia.
Import ListNotations.

Set Warnings "-inexact-float".

Open Scope string_scope.
Open Scope float_scope.

(** ** Python values and exceptions *)

(** The exceptions the engine can raise. *)
Inductive exn : Type :=
| IndexError
| ZeroDivisionError
| OverflowError
| ValueError.

Inductive result (A : Type) : Type :=
| Ok (a : A)
| Raise (e : exn).
Arguments Ok {A} a.
Arguments Raise {A} e.

Definition bind {A B : Type} (r : result A) (k : A -> result B) : result B :=
  match r with
  | Ok a => k a
  | Raise e => Raise e
  end.

Notation "x <- r ;; k" := (bind r (fun x => k))
  (at level 61, r at next level, right associativity).

(** [lm[i]] for a non-negative constant index. *)
Definition getitem {A : Type} (l : list A) (i : nat) : result A :=
  match nth_error l i with
  | Some a => Ok a
  | None => Raise IndexError
  end.

(** [a / b] on floats raises when the divisor is zero of either sign. *)
Definition truediv (a b : float) : result float :=
  if b =? 0 then Raise ZeroDivisionError else Ok (a / b).

(** [math.sqrt]: the IEEE square root; ValueError ("math domain error") when
    the result is NaN and the argument is not, that is on a negative
    argument. *)
Definition py_sqrt (x : float) : result float :=
  let r := PrimFloat.sqrt x in
  if is_nan r && negb (is_nan x) then Raise ValueError else Ok r.

(** The builtins [min] and [max] on two arguments keep the first unless the
    second compares strictly smaller (larger). *)
Definition py_min (a b : float) : float := if b <? a then b else a.
Definition py_max (a b : float) : float := if a <? b then b else a.

(** [round(v, ndigits)] for [ndigits >= 0]: the exact binary value is rounded
    half-to-even to [ndigits] decimals, and the decimal result is converted
    back to the nearest float ([SFdiv] rounds the quotient of the two
    integers once); zeros, infinities and NaN round to themselves. *)
Definition round_half_even (num den : Z) : Z :=
  let q := (num / den)%Z in
  let r := (num mod den)%Z in
  match (2 * r ?= den)%Z with
  | Lt => q
  | Gt => (q + 1)%Z
  | Eq => if Z.even q then q else (q + 1)%Z
  end.

Definition Z2SF (s : bool) (n : Z) : spec_float :=
  match n with
  | Zpos p => S754_finite s p 0
  | _ => S754_zero s
  end.

Definition round (v : float) (ndigits : nat) : float :=
  match Prim2SF v with
  | S754_finite s m e =>
      let p := (10 ^ Z.of_nat ndigits)%Z in
      let num := (Zpos m * p)%Z in
      let n := if (0 <=? e)%Z then (num * 2 ^ e)%Z
               else round_half_even num (2 ^ (- e))%Z in
      SF2Prim (SFdiv prec emax (Z2SF s n) (Z2SF false p))
  | _ => v
  end.

(** ** Configuration (lines 63-75 and 92-94 of the source) *)

Definition PINCH_DIST : float := 0.04.
Definition PINCH_EXIT : float := 0.05.
Definition TAP_MAX_TIME : float := 0.20.
Definition HOLD_MIN_MS : float := 500.
Definition DRAG_DEADZONE : float := 0.05.
Definition FLICK_VELOCITY : float := 0.30.
Definition DOUBLE_TAP_COOL : float := 0.30.

Definition THUMB_TIP : nat := 4.
Definition INDEX_TIP : nat := 8.
Definition MIDDLE_TIP : nat := 12.

(** ** Landmarks *)

Module Landmark.
Record t : Type := mk { x : float; y : float; z : float }.
End Landmark.

(** ** The engine state *)

Inductive EngineState : Type :=
| S_IDLE
| S_IDX_PINCH
| S_MID_PINCH.

(** A velocity-trail sample [(x, y, t)]. *)
Definition Sample : Type := (float * float * float)%type.

(** The instance attributes of [GestureEngine]. The [TestOverlay] attribute
    and [_log] only draw and print; no engine attribute reads them back, and
    they are left out. *)
Record GestureEngine : Type := {
  state : EngineState;
  idx_pinched : bool;
  mid_pinched : bool;
  idx_dist : float;
  mid_dist : float;
  pinch_t0 : float;
  dur_ms : float;
  prev_palm : option (float * float);
  frame_dx : float;
  frame_dy : float;
  cum_move : float;
  moved : bool;
  _trail : list Sample;
  vel : float;
  tap_count : Z;
  gtype : string;
  gstate : string;
  cursor_x : float;
  cursor_y : float;
  _dbl_cooldown_until : float;
  _flash_label : string;
  _flash_until : float
}.

(** [GestureEngine.__init__] (line 284). *)
Definition init : GestureEngine := {|
  state := S_IDLE;
  idx_pinched := false; mid_pinched := false;
  idx_dist := 1.0; mid_dist := 1.0;
  pinch_t0 := 0.0; dur_ms := 0.0;
  prev_palm := None; frame_dx := 0.0; frame_dy := 0.0;
  cum_move := 0.0; moved := false;
  _trail := []; vel := 0.0;
  tap_count := 0%Z; gtype := "none"; gstate := "idle";
  cursor_x := 0.5; cursor_y := 0.5;
  _dbl_cooldown_until := 0.0;
  _flash_label := EmptyString; _flash_until := 0.0
|}.

(** Attribute assignment [self.f = v], one setter per attribute. *)
Definition set_state (v : EngineState) (self : GestureEngine) : GestureEngine :=
  let '(Build_GestureEngine _ ip mp id md t0 du pp fx fy cm mv tr ve tc gt gs cx cy cd fl fu) := self in
  Build_GestureEngine v ip mp id md t0 du pp fx fy cm mv tr ve tc gt gs cx cy cd fl fu.

Definition set_idx_pinched (v : bool) (self : GestureEngine) : GestureEngine :=
  let '(Build_GestureEngine st _ mp id md t0 du pp fx fy cm mv tr ve tc gt gs cx cy cd fl fu) := self in
  Build_GestureEngine st v mp id md t0 du pp fx fy cm mv tr ve tc gt gs cx cy cd fl fu.

Definition set_mid_pinched (v : bool) (self : GestureEngine) : GestureEngine :=
  let '(Build_GestureEngine st ip _ id md t0 du pp fx fy cm mv tr ve tc gt gs cx cy cd fl fu) := self in
  Build_GestureEngine st ip v id md t0 du pp fx fy cm mv tr ve tc gt gs cx cy cd fl fu.

Definition set_idx_dist (v : float) (self : GestureEngine) : GestureEngine :=
  let '(Build_GestureEngine st ip mp _ md t0 du pp fx fy cm mv tr ve tc gt gs cx cy cd fl fu) := self in
  Build_GestureEngine st ip mp v md t0 du pp fx fy cm mv tr ve tc gt gs cx cy cd fl fu.

Definition set_mid_dist (v : float) (self : GestureEngine) : GestureEngine :=
  let '(Build_GestureEngine st ip mp id _ t0 du pp fx fy cm mv tr ve tc gt gs cx cy cd fl fu) := self in
  Build_GestureEngine st ip mp id v t0 du pp fx fy cm mv tr ve tc gt gs cx cy cd fl fu.

Definition set_pinch_t0 (v : float) (self : GestureEngine) : GestureEngine :=
  let '(Build_GestureEngine st ip mp id md _ du pp fx fy cm mv tr ve tc gt gs cx cy cd fl fu) := self in
  Build_GestureEngine st ip mp id md v du pp fx fy cm mv tr ve tc gt gs cx cy cd fl fu.

Definition set_dur_ms (v : float) (self : GestureEngine) : GestureEngine :=
  let '(Build_GestureEngine st ip mp id md t0 _ pp fx fy cm mv tr ve tc gt gs cx cy cd fl fu) := self in
  Build_GestureEngine st ip mp id md t0 v pp fx fy cm mv tr ve tc gt gs cx cy cd fl fu.

Definition set_prev_palm (v : option (float * float)) (self : GestureEngine) : GestureEngine :=
  let '(Build_GestureEngine st ip mp id md t0 du _ fx fy cm mv tr ve tc gt gs cx cy cd fl fu) := self in
  Build_GestureEngine st ip mp id md t0 du v fx fy cm mv tr ve tc gt gs cx cy cd fl fu.

Definition set_frame_dx (v : float) (self : GestureEngine) : GestureEngine :=
  let '(Build_GestureEngine st ip mp id md t0 du pp _ fy cm mv tr ve tc gt gs cx cy cd fl fu) := self in
  Build_GestureEngine st ip mp id md t0 du pp v fy cm mv tr ve tc gt gs cx cy cd fl fu.

Definition set_frame_dy (v : float) (self : GestureEngine) : GestureEngine :=
  let '(Build_GestureEngine st ip mp id md t0 du pp fx _ cm mv tr ve tc gt gs cx cy cd fl fu) := self in
  Build_GestureEngine st ip mp id md t0 du pp fx v cm mv tr ve tc gt gs cx cy cd fl fu.

Definition set_cum_move (v : float) (self : GestureEngine) : GestureEngine :=
  let '(Build_GestureEngine st ip mp id md t0 du pp fx fy _ mv tr ve tc gt gs cx cy cd fl fu) := self in
  Build_GestureEngine st ip mp id md t0 du pp fx fy v mv tr ve tc gt gs cx cy cd fl fu.

Definition set_moved (v : bool) (self : GestureEngine) : GestureEngine :=
  let '(Build_GestureEngine st ip mp id md t0 du pp fx fy cm _ tr ve tc gt gs cx cy cd fl fu) := self in
  Build_GestureEngine st ip mp id md t0 du pp fx fy cm v tr ve tc gt gs cx cy cd fl fu.

Definition set_trail (v : list Sample) (self : GestureEngine) : GestureEngine :=
  let '(Build_GestureEngine st ip mp id md t0 du pp fx fy cm mv _ ve tc gt gs cx cy cd fl fu) := self in
  Build_GestureEngine st ip mp id md t0 du pp fx fy cm mv v ve tc gt gs cx cy cd fl fu.

Definition set_vel (v : float) (self : GestureEngine) : GestureEngine :=
  let '(Build_GestureEngine st ip mp id md t0 du pp fx fy cm mv tr _ tc gt gs cx cy cd fl fu) := self in
  Build_GestureEngine st ip mp id md t0 du pp fx fy cm mv tr v tc gt gs cx cy cd fl fu.

Definition set_tap_count (v : Z) (self : GestureEngine) : GestureEngine :=
  let '(Build_GestureEngine st ip mp id md t0 du pp fx fy cm mv tr ve _ gt gs cx cy cd fl fu) := self in
  Build_GestureEngine st ip mp id md t0 du pp fx fy cm mv tr ve v gt gs cx cy cd fl fu.

Definition set_gtype (v : string) (self : GestureEngine) : GestureEngine :=
  let '(Build_GestureEngine st ip mp id md t0 du pp fx fy cm mv tr ve tc _ gs cx cy cd fl fu) := self in
  Build_GestureEngine st ip mp id md t0 du pp fx fy cm mv tr ve tc v gs cx cy cd fl fu.

Definition set_gstate (v : string) (self : GestureEngine) : GestureEngine :=
  let '(Build_GestureEngine st ip mp id md t0 du pp fx fy cm mv tr ve tc gt _ cx cy cd fl fu) := self in
  Build_GestureEngine st ip mp id md t0 du pp fx fy cm mv tr ve tc gt v cx cy cd fl fu.

Definition set_cursor_x (v : float) (self : GestureEngine) : GestureEngine :=
  let '(Build_GestureEngine st ip mp id md t0 du pp fx fy cm mv tr ve tc gt gs _ cy cd fl fu) := self in
  Build_GestureEngine st ip mp id md t0 du pp fx fy cm mv tr ve tc gt gs v cy cd fl fu.

Definition set_cursor_y (v : float) (self : GestureEngine) : GestureEngine :=
  let '(Build_GestureEngine st ip mp id md t0 du pp fx fy cm mv tr ve tc gt gs cx _ cd fl fu) := self in
  Build_GestureEngine st ip mp id md t0 du pp fx fy cm mv tr ve tc gt gs cx v cd fl fu.

Definition set_dbl_cooldown_until (v : float) (self : GestureEngine) : GestureEngine :=
  let '(Build_GestureEngine st ip mp id md t0 du pp fx fy cm mv tr ve tc gt gs cx cy _ fl fu) := self in
  Build_GestureEngine st ip mp id md t0 du pp fx fy cm mv tr ve tc gt gs cx cy v fl fu.

Definition set_flash_label (v : string) (self : GestureEngine) : GestureEngine :=
  let '(Build_GestureEngine st ip mp id md t0 du pp fx fy cm mv tr ve tc gt gs cx cy cd _ fu) := self in
  Build_GestureEngine st ip mp id md t0 du pp fx fy cm mv tr ve tc gt gs cx cy cd v fu.

Definition set_flash_until (v : float) (self : GestureEngine) : GestureEngine :=
  let '(Build_GestureEngine st ip mp id md t0 du pp fx fy cm mv tr ve tc gt gs cx cy cd fl _) := self in
  Build_GestureEngine st ip mp id md t0 du pp fx fy cm mv tr ve tc gt gs cx cy cd fl v.

(** ** Pinch detection, trail and velocity *)

(** The hysteresis applied to each channel in [update]: an open channel
    closes below [PINCH_DIST], a closed one opens above [PINCH_EXIT], and the
    flag is kept otherwise. *)
Definition hysteresis (pinched : bool) (dist : float) : bool :=
  if negb pinched && (dist <? PINCH_DIST) then true
  else if pinched && (PINCH_EXIT <? dist) then false
  else pinched.

(** [deque(maxlen=12).append]: a full deque drops its oldest entry. *)
Definition deque_append (q : list Sample) (v : Sample) : list Sample :=
  if (12 <=? List.length q)%nat then (tl q ++ [v])%list else (q ++ [v])%list.

Definition sample_t (pt : Sample) : float := snd pt.

(** [q[-1]]. *)
Definition getitem_last {A : Type} (l : list A) : result A :=
  match l with
  | [] => Raise IndexError
  | a :: l' => Ok (last l' a)
  end.

(** The loop of [_calc_vel]: walk the trail from the oldest sample, keep the
    last one seen before the first sample later than [target_t]. *)
Fixpoint scan_best (target_t : float) (best : Sample) (trail : list Sample)
  : Sample :=
  match trail with
  | [] => best
  | pt :: rest =>
      if sample_t pt <=? target_t then scan_best target_t pt rest else best
  end.

(** ** Transitions (lines 466-487 and 510-512) *)

Definition _enter_idx_pinch (now ix iy : float) (self : GestureEngine)
  : GestureEngine :=
  let self := set_state S_IDX_PINCH self in
  let self := set_pinch_t0 now self in
  let self := set_prev_palm (Some (ix, iy)) self in
  let self := set_cum_move 0.0 self in
  let self := set_moved false self in
  let self := set_trail [] self in
  let self := set_trail (deque_append (_trail self) (ix, iy, now)) self in
  let self := set_gtype "pinch_hold" self in
  set_gstate "start" self.

Definition _enter_mid_pinch (now : float) (self : GestureEngine)
  : GestureEngine :=
  let self := set_state S_MID_PINCH self in
  let self := set_pinch_t0 now self in
  let self := set_gtype "double_tap" self in
  set_gstate "start" self.

Definition _reset_pinch (self : GestureEngine) : GestureEngine :=
  let self := set_prev_palm None self in
  let self := set_cum_move 0.0 self in
  set_moved false self.

Definition _flash (label : string) (now : float) (self : GestureEngine)
  : GestureEngine :=
  let self := set_flash_label label self in
  set_flash_until (now + 0.6) self.

(** ** The frame event *)

(** What one call reads from its environment: the monotonic clock, a fresh
    UUID (as 32 hexadecimal digits) and the wall clock (as an ISO-8601
    string). *)
Record Clock : Type := {
  monotonic : float;
  uuid4_hex : string;
  utc_isoformat : string
}.

Module Payload.

Record LandmarkEntry : Type := {
  id : nat;
  x : float;
  y : float;
  z : float
}.

Record WorldCoordinates : Type := { wx : float; wy : float; wz : float }.
Record Point : Type := { px : float; py : float }.
Record Delta : Type := { dx : float; dy : float }.
Record Velocity : Type := { vx : float; vy : float }.

Record TrackingData : Type := {
  landmarks : list LandmarkEntry;
  world_coordinates : WorldCoordinates
}.

Record PinchStatus : Type := {
  is_pinched : bool;
  pinch_strength : float;
  pinch_distance : float
}.

Record Movement : Type := {
  origin : Point;
  current : Point;
  delta : Delta;
  velocity : Velocity
}.

Record Timing : Type := {
  duration_ms : float;
  tap_count : Z
}.

Record InteractionData : Type := {
  pinch_status : PinchStatus;
  movement : Movement;
  timing : Timing
}.

Record Gesture : Type := {
  type : string;
  state : string;
  confidence : float;
  handedness : string;
  target_element_id : option string;
  tracking_data : TrackingData;
  interaction_data : InteractionData
}.

Record Event : Type := {
  event_id : string;
  timestamp : string;
  success : bool;
  gesture : Gesture;
  cursor : Point
}.

End Payload.

Definition FrameEvent : Type := Payload.Event.

(** [enumerate(lm)] from index [i]. *)
Fixpoint enumerate_from {A : Type} (i : nat) (l : list A) : list (nat * A) :=
  match l with
  | [] => []
  | a :: l' => (i, a) :: enumerate_from (S i) l'
  end.

(** [GestureEngine._payload] (line 519). *)
Definition _payload (self : GestureEngine) (lm : list Landmark.t) (clk : Clock)
  : result FrameEvent :=
  let landmarks :=
    map (fun '(i, l) =>
           {| Payload.id := i;
              Payload.x := round (Landmark.x l) 5;
              Payload.y := round (Landmark.y l) 5;
              Payload.z := round (Landmark.z l) 5 |})
        (enumerate_from 0 lm) in
  tip <- getitem lm INDEX_TIP ;;
  Ok {|
    Payload.event_id := "evt_" ++ substring 0 12 (uuid4_hex clk);
    Payload.timestamp := utc_isoformat clk;
    Payload.success := true;
    Payload.gesture := {|
      Payload.type := gtype self;
      Payload.state := gstate self;
      Payload.confidence := 1.0 - py_min (idx_dist self) (mid_dist self);
      Payload.handedness := "Right";
      Payload.target_element_id := None;
      Payload.tracking_data := {|
        Payload.landmarks := landmarks;
        Payload.world_coordinates := {|
          Payload.wx := round (Landmark.x tip) 5;
          Payload.wy := round (Landmark.y tip) 5;
          Payload.wz := round (Landmark.z tip) 5 |} |};
      Payload.interaction_data := {|
        Payload.pinch_status := {|
          Payload.is_pinched := idx_pinched self || mid_pinched self;
          Payload.pinch_strength :=
            round (py_max 0.0 (1.0 - idx_dist self / PINCH_EXIT)) 4;
          Payload.pinch_distance := round (idx_dist self) 5 |};
        Payload.movement := {|
          Payload.origin := {| Payload.px := round (cursor_x self) 5;
                               Payload.py := round (cursor_y self) 5 |};
          Payload.current := {| Payload.px := round (cursor_x self) 5;
                                Payload.py := round (cursor_y self) 5 |};
          Payload.delta := {| Payload.dx := round (frame_dx self) 5;
                              Payload.dy := round (frame_dy self) 5 |};
          Payload.velocity := {| Payload.vx := round (frame_dx self * 1000) 2;
                                 Payload.vy := round (frame_dy self * 1000) 2 |}
        |};
        Payload.timing := {|
          Payload.duration_ms := round (dur_ms self) 1;
          Payload.tap_count := tap_count self |} |} |};
    Payload.cursor := {| Payload.px := round (cursor_x self) 5;
                         Payload.py := round (cursor_y self) 5 |}
  |}.

(** ** The input of a call

    What one call of [update] is given: the landmark list and what the call
    reads from its environment. *)

Record Frame : Type := {
  frame_lm : list Landmark.t;
  frame_clk : Clock
}.

(** ** Reading of the specification: the velocity reference sample

    The design text describes the reference sample of the velocity estimate
    as the earliest sample whose timestamp is at least [latest.t - 0.1].
    [spec_reference] follows those words, to be compared with [scan_best]. *)

Definition spec_reference (target_t : float) (trail : list Sample)
  : option Sample :=
  find (fun pt => target_t <=? sample_t pt) trail.

(** The longest prefix of a trail whose samples satisfy [p]. *)
Fixpoint take_while (p : Sample -> bool) (trail : list Sample) : list Sample :=
  match trail with
  | [] => []
  | pt :: rest => if p pt then pt :: take_while p rest else []
  end.

(** A trail of five samples 33 ms apart, the tracked point moving along x,
    fastest between the first two samples. *)
Definition trail5 : list Sample :=
  [ (0.1, 0.5, 1.0); (0.3, 0.5, 1.033); (0.35, 0.5, 1.066);
    (0.4, 0.5, 1.099); (0.5, 0.5, 1.132) ].

(** ** Counting flag changes *)

Definition below_enter (d : float) : bool := d <? PINCH_DIST.
Definition above_exit (d : float) : bool := PINCH_EXIT <? d.

(** The number of times the flag changes value while a channel is fed the
    distances [ds], starting from the flag [pinched]. *)
Fixpoint changes (pinched : bool) (ds : list float) : nat :=
  match ds with
  | [] => 0
  | d :: ds' =>
      let pinched' := hysteresis pinched d in
      (if Bool.eqb pinched pinched' then 0 else 1) + changes pinched' ds'
  end.

(** The number of consecutive samples that lie on different sides of a
    threshold. *)
Fixpoint crossings (side : float -> bool) (ds : list float) : nat :=
  match ds with
  | a :: (b :: _) as ds' =>
      (if Bool.eqb (side a) (side b) then 0 else 1) + crossings side ds'
  | _ => 0
  end.

Fixpoint nonincreasing (ds : list float) : bool :=
  match ds with
  | a :: (b :: _) as ds' => (b <=? a) && nonincreasing ds'
  | _ => true
  end.

(** Non-decreasing up to some sample, non-increasing from it on. *)
Fixpoint rises_then_falls (ds : list float) : bool :=
  match ds with
  | a :: (b :: _) as ds' =>
      ((a <=? b) && rises_then_falls ds') || nonincreasing ds
  | _ => true
  end.

(** ** The two halves of [update]

    For the proofs [update] is read in steps: the two distances, then
    [sense], the assignments that follow them (cursor, distances, hysteresis,
    trail, per-frame reset; [di] and [dm] are the distances [_dist] has
    returned), then the state machine [advance]. [update_eq] shows that this
    is the same function. *)

Definition sense (self : GestureEngine) (index : Landmark.t)
           (di dm now : float) : GestureEngine :=
  let ix := Landmark.x index in
  let iy := Landmark.y index in
  let self := set_cursor_x ix self in
  let self := set_cursor_y iy self in
  let self := set_idx_dist di self in
  let self := set_mid_dist dm self in
  let self :=
    set_idx_pinched (hysteresis (idx_pinched self) (idx_dist self)) self in
  let self :=
    set_mid_pinched (hysteresis (mid_pinched self) (mid_dist self)) self in
  let self := set_trail (deque_append (_trail self) (ix, iy, now)) self in
  let self := set_frame_dx 0.0 self in
  set_frame_dy 0.0 self.

(** The classification of a release (lines 431-458), once the velocity is
    set. *)
Definition classify_release (now : float) (self : GestureEngine)
  : GestureEngine :=
  let dur_s := dur_ms self / 1000.0 in
  if moved self && (FLICK_VELOCITY <? vel self) then
    let self := set_gtype "pinch_flick" self in
    let self := set_gstate "end" self in
    _flash "FLICK" now self
  else if (dur_s <? TAP_MAX_TIME) && negb (moved self) then
    let self := set_gtype "tap" self in
    let self := set_gstate "end" self in
    let self := set_tap_count 1%Z self in
    _flash "TAP" now self
  else if moved self then
    let self := set_gtype "pinch_drag" self in
    set_gstate "end" self
  else
    let self := set_gtype "pinch_hold" self in
    set_gstate "end" self.

(** ** Frames *)

Definition origin : Landmark.t := Landmark.mk 0 0 0.

(** The landmark at index [i] of a frame (the [origin] when there is none;
    [well_formed] frames have the three fingertips). *)
Definition tip (i : nat) (f : Frame) : Landmark.t := nth i (frame_lm f) origin.

Definition well_formed (f : Frame) : Prop :=
  (MIDDLE_TIP < List.length (frame_lm f))%nat.

Definition now (f : Frame) : float := monotonic (frame_clk f).
Definition tracked_x (f : Frame) : float := Landmark.x (tip INDEX_TIP f).
Definition tracked_y (f : Frame) : float := Landmark.y (tip INDEX_TIP f).

(** Simplification keeps these folded. *)
Arguments hysteresis : simpl never.
Arguments deque_append : simpl never.
Arguments _payload : simpl never.
Arguments round : simpl never.
Arguments py_min : simpl never.
Arguments py_sqrt : simpl never.
Arguments PINCH_DIST : simpl never.
Arguments PINCH_EXIT : simpl never.
Arguments TAP_MAX_TIME : simpl never.
Arguments HOLD_MIN_MS : simpl never.
Arguments DRAG_DEADZONE : simpl never.
Arguments FLICK_VELOCITY : simpl never.
Arguments DOUBLE_TAP_COOL : simpl never.
Arguments now : simpl never.

(** The engine after the last frame of a trace ([self] for an empty one). *)
Definition final (self : GestureEngine)
           (trace : list (GestureEngine * FrameEvent)) : GestureEngine :=
  last (map fst trace) self.

Definition reports_idle (r : GestureEngine * FrameEvent) : Prop :=
  state (fst r) = S_IDLE
  /\ gtype (fst r) = "none" /\ gstate (fst r) = "idle"
  /\ Payload.type (Payload.gesture (snd r)) = "none"
  /\ Payload.state (Payload.gesture (snd r)) = "idle".

(** The fields of the event that [_payload] copies from the engine. *)
Definition carries (self : GestureEngine) (ev : FrameEvent) : Prop :=
  Payload.type (Payload.gesture ev) = gtype self
  /\ Payload.state (Payload.gesture ev) = gstate self
  /\ Payload.confidence (Payload.gesture ev)
     = 1.0 - py_min (idx_dist self) (mid_dist self)
  /\ Payload.cursor ev
     = {| Payload.px := round (cursor_x self) 5;
          Payload.py := round (cursor_y self) 5 |}
  /\ Payload.timing (Payload.interaction_data (Payload.gesture ev))
     = {| Payload.duration_ms := round (dur_ms self) 1;
          Payload.tap_count := tap_count self |}.

Definition below_deadzone (c : float) : Prop := (c <? DRAG_DEADZONE) = true.

Definition pinching (r : GestureEngine * FrameEvent) : Prop :=
  state (fst r) = S_IDX_PINCH.

Definition dragging (r : GestureEngine * FrameEvent) : Prop :=
  state (fst r) = S_IDX_PINCH
  /\ moved (fst r) = true
  /\ gtype (fst r) = "pinch_drag" /\ gstate (fst r) = "active"
  /\ Payload.type (Payload.gesture (snd r)) = "pinch_drag"
  /\ Payload.state (Payload.gesture (snd r)) = "active".

(** A flag that agrees with the side of the thresholds the distance [d] lies
    on: closed below [PINCH_DIST], open above [PINCH_EXIT]. *)
Definition consistent (pinched : bool) (d : float) : Prop :=
  (below_enter d = true -> pinched = true)
  /\ (above_exit d = true -> pinched = false).

Definition idle (r : GestureEngine * FrameEvent) : Prop :=
  state (fst r) = S_IDLE.

(** The event reports the timing of the engine [self]. *)
Definition reports_timing_of (self : GestureEngine) (ev : FrameEvent) : Prop :=
  Payload.timing (Payload.interaction_data (Payload.gesture ev))
  = {| Payload.duration_ms := round (dur_ms self) 1;
       Payload.tap_count := tap_count self |}.

(** ** Sample hands and scenarios *)

Definition pt (x y : float) : Landmark.t := Landmark.mk x y 0.

(** A hand of 21 landmarks: the three fingertips as given, every other
    landmark at the wrist. *)
Definition hand (thumb index middle : Landmark.t) : list Landmark.t :=
  let w := pt 0.5 0.9 in
  [ w; w; w; w; thumb; w; w; w; index; w; w; w; middle;
    w; w; w; w; w; w; w; w ].

Definition clock_at (t : float) : Clock :=
  {| monotonic := t;
     uuid4_hex := "0123456789abcdef0123456789abcdef";
     utc_isoformat := "2026-01-01T00:00:00+00:00" |}.

Definition frame_at (thumb index middle : Landmark.t) (t : float) : Frame :=
  {| frame_lm := hand thumb index middle; frame_clk := clock_at t |}.

(** The index fingertip rests at (0.5, 0.5) with the thumb [gap] to its
    left; the middle fingertip is far away. *)
Definition index_gap_frame (gap t : float) : Frame :=
  frame_at (pt (0.5 - gap) 0.5) (pt 0.5 0.5) (pt 0.5 0.1) t.

(** The same with the roles of the index and the middle fingertip swapped. *)
Definition middle_gap_frame (gap t : float) : Frame :=
  frame_at (pt (0.5 - gap) 0.5) (pt 0.5 0.1) (pt 0.5 0.5) t.

(** The index fingertip at [(x, 0.5)] with the thumb [gap] to its left. *)
Definition moving_frame (x gap t : float) : Frame :=
  frame_at (pt (x - gap) 0.5) (pt x 0.5) (pt 0.5 0.1) t.

(** A pinch that travels 0.06 in two frames and then rests for two. *)
Definition drag_scenario : list Frame :=
  [ moving_frame 0.50 0.02 1.0; moving_frame 0.53 0.02 1.033;
    moving_frame 0.56 0.02 1.066; moving_frame 0.56 0.02 1.099;
    moving_frame 0.56 0.02 1.132 ].

(** Index distances 0.10, 0.02, 0.02, 0.02, 0.10 sampled 33 ms apart, the
    tracked point at rest. *)
Definition tap_scenario : list Frame :=
  [ index_gap_frame 0.10 10.0; index_gap_frame 0.02 10.033;
    index_gap_frame 0.02 10.066; index_gap_frame 0.02 10.099;
    index_gap_frame 0.10 10.132 ].

(** ** Invariants and the transition table of the engine *)

(** What the engine keeps true between calls: in an index pinch the index
    flag is closed and a previous point is recorded; in a middle pinch the
    middle flag is closed; outside an index pinch the motion accumulator is
    at rest. *)
Definition coherent (self : GestureEngine) : Prop :=
  match state self with
  | S_IDX_PINCH =>
      idx_pinched self = true /\ exists p, prev_palm self = Some p
  | S_MID_PINCH =>
      mid_pinched self = true
      /\ moved self = false /\ prev_palm self = None /\ cum_move self = 0.0
  | S_IDLE =>
      moved self = false /\ prev_palm self = None /\ cum_move self = 0.0
  end.

(** Every move of the state machine: the state before a call, the state
    after it, and the classification (type, phase) the call emits. *)
Definition transitions
  : list (EngineState * EngineState * (string * string)) :=
  [ (S_IDLE, S_IDLE, ("none", "idle"));
    (S_IDLE, S_MID_PINCH, ("double_tap", "start"));
    (S_IDLE, S_IDX_PINCH, ("pinch_hold", "start"));
    (S_MID_PINCH, S_MID_PINCH, ("double_tap", "start"));
    (S_MID_PINCH, S_IDLE, ("double_tap", "end"));
    (S_MID_PINCH, S_IDLE, ("none", "idle"));
    (S_IDX_PINCH, S_IDX_PINCH, ("pinch_hold", "start"));
    (S_IDX_PINCH, S_IDX_PINCH, ("pinch_hold", "active"));
    (S_IDX_PINCH, S_IDX_PINCH, ("pinch_drag", "active"));
    (S_IDX_PINCH, S_IDLE, ("pinch_flick", "end"));
    (S_IDX_PINCH, S_IDLE, ("tap", "end"));
    (S_IDX_PINCH, S_IDLE, ("pinch_drag", "end"));
    (S_IDX_PINCH, S_IDLE, ("pinch_hold", "end")) ].

Definition event_class (ev : FrameEvent) : string * string :=
  (Payload.type (Payload.gesture ev), Payload.state (Payload.gesture ev)).

Definition event_is_pinched (ev : FrameEvent) : bool :=
  Payload.is_pinched
    (Payload.pinch_status (Payload.interaction_data (Payload.gesture ev))).

Definition trail_bounded (self : GestureEngine) : Prop :=
  (1 <= List.length (_trail self) <= 12)%nat.

(** ** Parts of the frame event *)

Definition movement_of (ev : FrameEvent) : Payload.Movement :=
  Payload.movement (Payload.interaction_data (Payload.gesture ev)).

Definition tracking_of (ev : FrameEvent) : Payload.TrackingData :=
  Payload.tracking_data (Payload.gesture ev).

(** The entry [_payload] writes for landmark [l] at index [i]. *)
Definition landmark_entry (i : nat) (l : Landmark.t) : Payload.LandmarkEntry :=
  {| Payload.id := i;
     Payload.x := round (Landmark.x l) 5;
     Payload.y := round (Landmark.y l) 5;
     Payload.z := round (Landmark.z l) 5 |}.

Definition no_motion (mv : Payload.Movement) : Prop :=
  Payload.delta mv = {| Payload.dx := 0.0; Payload.dy := 0.0 |}
  /\ Payload.velocity mv = {| Payload.vx := 0.0; Payload.vy := 0.0 |}.

(** * The test overlay (lines 149-261 of the source)

    [TestOverlay] keeps what the preview window shows on top of the camera
    image: a marker per tap, the points of the drag in progress and the
    trails of finished drags. The engine owns one overlay and calls it from
    [update] and [_enter_idx_pinch]; the capture loop calls its [draw] once
    per iteration. *)

Definition TAP_MARKER_LIFETIME : float := 2.0.
Definition DRAG_TRAIL_LIFETIME : float := 2.0.

Module TestOverlay.

(** [(x_norm, y_norm, timestamp, gesture_type)]. *)
Definition Marker : Type := (float * float * float * string)%type.

(** [(points_list, end_timestamp)]. *)
Definition Trail : Type := (list (float * float) * float)%type.

Record t : Type := {
  tap_markers : list Marker;
  drag_points : list (float * float);
  finished_trails : list Trail;
  dragging : bool
}.

Definition init : t :=
  {| tap_markers := []; drag_points := []; finished_trails := [];
     dragging := false |}.

(** In [on_tap] and [on_drag_end], [t_now] is the value [time.monotonic()]
    returns inside the call. *)
Definition on_tap (x y : float) (gesture_type : string) (t_now : float)
           (self : t) : t :=
  {| tap_markers := (tap_markers self ++ [(x, y, t_now, gesture_type)])%list;
     drag_points := drag_points self;
     finished_trails := finished_trails self;
     dragging := dragging self |}.

Definition on_drag_start (x y : float) (self : t) : t :=
  {| tap_markers := tap_markers self;
     drag_points := [(x, y)];
     finished_trails := finished_trails self;
     dragging := true |}.

Definition on_drag_update (x y : float) (self : t) : t :=
  if dragging self then
    {| tap_markers := tap_markers self;
       drag_points := (drag_points self ++ [(x, y)])%list;
       finished_trails := finished_trails self;
       dragging := dragging self |}
  else self.

Definition on_drag_end (t_now : float) (self : t) : t :=
  {| tap_markers := tap_markers self;
     drag_points := [];
     finished_trails :=
       match drag_points self with
       | [] => finished_trails self
       | _ :: _ => (finished_trails self ++ [(drag_points self, t_now)])%list
       end;
     dragging := false |}.

Definition marker_t (m : Marker) : float := snd (fst m).

(** The first statements of [draw] (lines 184-192), all it does to the
    overlay: markers and finished trails that have reached their lifetime at
    [now] are dropped. The painting that follows (lines 194-230, with
    [_draw_trail]) reads the overlay and writes to the image only; it can
    raise, and is not part of this model. *)
Definition draw_purge (now : float) (self : t) : t :=
  {| tap_markers :=
       filter (fun m => now - marker_t m <? TAP_MARKER_LIFETIME)
              (tap_markers self);
     drag_points := drag_points self;
     finished_trails :=
       filter (fun tr => now - snd tr <? DRAG_TRAIL_LIFETIME)
              (finished_trails self);
     dragging := dragging self |}.

(** The condition under which [draw] paints the drag in progress. *)
Definition draws_active_trail (self : t) : bool :=
  dragging self && (1 <? List.length (drag_points self))%nat.

End TestOverlay.

(** What holds of the overlay between calls: every finished trail has at
    least two points; in an index pinch the overlay is dragging and holds the
    entry point alone until the pinch has moved, and at least two points
    afterwards; outside an index pinch at most one point is pending. *)
Definition overlay_coherent (st : GestureEngine * TestOverlay.t) : Prop :=
  let '(self, ov) := st in
  Forall (fun tr : TestOverlay.Trail => (2 <= List.length (fst tr))%nat)
         (TestOverlay.finished_trails ov)
  /\ match state self with
     | S_IDX_PINCH =>
         TestOverlay.dragging ov = true
         /\ if moved self
            then (2 <= List.length (TestOverlay.drag_points ov))%nat
            else List.length (TestOverlay.drag_points ov) = 1%nat
     | _ => (List.length (TestOverlay.drag_points ov) <= 1)%nat
     end.

Definition class_eqb (a b : string * string) : bool :=
  String.eqb (fst a) (fst b) && String.eqb (snd a) (snd b).

(** The marker and the finished trail an event is recorded with, if any. *)
Definition marker_of (f : Frame) (t_ov : float) (ev : FrameEvent)
  : list TestOverlay.Marker :=
  if class_eqb (event_class ev) ("tap", "end") then
    [(Landmark.x (tip INDEX_TIP f), Landmark.y (tip INDEX_TIP f), t_ov, "tap")]
  else if class_eqb (event_class ev) ("double_tap", "end") then
    [(Landmark.x (tip MIDDLE_TIP f), Landmark.y (tip MIDDLE_TIP f), t_ov,
      "double_tap")]
  else [].

Definition trail_of (ov : TestOverlay.t) (t_ov : float) (ev : FrameEvent)
  : list TestOverlay.Trail :=
  if class_eqb (event_class ev) ("pinch_flick", "end")
     || class_eqb (event_class ev) ("pinch_drag", "end")
  then [(TestOverlay.drag_points ov, t_ov)]
  else [].

(** * The gesture handler of the desktop side
    (src/WindowsControl/gesture_handler.py)

    [GestureHandler] receives the events of the engine, parsed back from
    JSON, and turns them into mouse moves and tool calls. It is modelled on
    the event as [update] returns it: every key the handler looks up is
    present, and a finite number is read back as the number written.
    Logging, and the [time.monotonic()] call that only rate-limits it, are
    left out. *)

Module GestureHandler.

Inductive error : Type :=
| ZeroDivisionError
| OverflowError
| ValueError
| TypeError.

Inductive outcome (A : Type) : Type :=
| Done (a : A)
| Raised (e : error).

Arguments Done {A} a.
Arguments Raised {A} e.

Definition SMOOTHING_FACTOR : float := 0.35.
Definition EDGE_MARGIN : float := 0.08.

Definition HANDLED_GESTURES : list string :=
  ["tap"; "double_tap"; "pinch_hold"; "pinch_drag"; "pinch_flick"].

Record t : Type := {
  _screen_w : Z;
  _screen_h : Z;
  _action_count : Z;
  _smooth_x : option float;
  _smooth_y : option float;
  _frozen : bool;
  _freeze_px : Z;
  _freeze_py : Z
}.

(** [GestureHandler.__init__] (line 51), with the screen size resolved. *)
Definition init (screen_w screen_h : Z) : t :=
  {| _screen_w := screen_w; _screen_h := screen_h; _action_count := 0;
     _smooth_x := None; _smooth_y := None;
     _frozen := false; _freeze_px := 0; _freeze_py := 0 |}.

Definition set_action_count (v : Z) (self : t) : t :=
  {| _screen_w := _screen_w self; _screen_h := _screen_h self;
     _action_count := v;
     _smooth_x := _smooth_x self; _smooth_y := _smooth_y self;
     _frozen := _frozen self;
     _freeze_px := _freeze_px self; _freeze_py := _freeze_py self |}.

Definition set_smooth_x (v : option float) (self : t) : t :=
  {| _screen_w := _screen_w self; _screen_h := _screen_h self;
     _action_count := _action_count self;
     _smooth_x := v; _smooth_y := _smooth_y self;
     _frozen := _frozen self;
     _freeze_px := _freeze_px self; _freeze_py := _freeze_py self |}.

Definition set_smooth_y (v : option float) (self : t) : t :=
  {| _screen_w := _screen_w self; _screen_h := _screen_h self;
     _action_count := _action_count self;
     _smooth_x := _smooth_x self; _smooth_y := v;
     _frozen := _frozen self;
     _freeze_px := _freeze_px self; _freeze_py := _freeze_py self |}.

Definition set_frozen (v : bool) (self : t) : t :=
  {| _screen_w := _screen_w self; _screen_h := _screen_h self;
     _action_count := _action_count self;
     _smooth_x := _smooth_x self; _smooth_y := _smooth_y self;
     _frozen := v;
     _freeze_px := _freeze_px self; _freeze_py := _freeze_py self |}.

Definition set_freeze_px (v : Z) (self : t) : t :=
  {| _screen_w := _screen_w self; _screen_h := _screen_h self;
     _action_count := _action_count self;
     _smooth_x := _smooth_x self; _smooth_y := _smooth_y self;
     _frozen := _frozen self;
     _freeze_px := v; _freeze_py := _freeze_py self |}.

Definition set_freeze_py (v : Z) (self : t) : t :=
  {| _screen_w := _screen_w self; _screen_h := _screen_h self;
     _action_count := _action_count self;
     _smooth_x := _smooth_x self; _smooth_y := _smooth_y self;
     _frozen := _frozen self;
     _freeze_px := _freeze_px self; _freeze_py := v |}.

(** A method of the handler: it runs on the handler, leaves a handler
    behind, and returns or raises. What it wrote before raising stays
    written. *)
Definition M (A : Type) : Type := t -> t * outcome A.

Definition ret {A : Type} (a : A) : M A := fun self => (self, Done a).

Definition raise {A : Type} (e : error) : M A := fun self => (self, Raised e).

Definition and_then {A B : Type} (m : M A) (k : A -> M B) : M B :=
  fun self =>
    match m self with
    | (self', Done a) => k a self'
    | (self', Raised e) => (self', Raised e)
    end.

Definition lift {A : Type} (r : outcome A) : M A := fun self => (self, r).

Definition get {A : Type} (field : t -> A) : M A :=
  fun self => (self, Done (field self)).

Definition modify (f : t -> t) : M unit := fun self => (f self, Done tt).

Notation "x <~ m ;; k" := (and_then m (fun x => k))
  (at level 61, m at next level, right associativity).
Notation "m ;;; k" := (and_then m (fun _ => k))
  (at level 61, right associativity).

(** ** Numbers *)

(** [a / b] on floats. *)
Definition float_truediv (a b : float) : outcome float :=
  if b =? 0 then Raised ZeroDivisionError else Done (a / b).

(** An int operand of a float operation: the nearest float, and
    [OverflowError] beyond the range of floats. *)
Definition float_of_int (n : Z) : outcome float :=
  let f := SF2Prim (binary_normalize prec emax n 0 false) in
  if is_infinity f then Raised OverflowError else Done f.

(** [a / b] on ints: the quotient of the two integers rounded once. *)
Definition int_truediv (a b : Z) : outcome float :=
  if (b =? 0)%Z then Raised ZeroDivisionError
  else
    let q :=
      SF2Prim (SFdiv prec emax (Z2SF (a <? 0)%Z (Z.abs a))
                     (Z2SF (b <? 0)%Z (Z.abs b))) in
    if is_infinity q then Raised OverflowError else Done q.

(** [int(x)] on a float: truncation toward zero. *)
Definition int_of_float (x : float) : outcome Z :=
  match Prim2SF x with
  | S754_zero _ => Done 0%Z
  | S754_finite s m e =>
      let n := if (0 <=? e)%Z then (Zpos m * 2 ^ e)%Z
               else (Zpos m / 2 ^ (- e))%Z in
      Done (if s then (- n)%Z else n)
  | S754_infinity _ => Raised OverflowError
  | S754_nan => Raised ValueError
  end.

(** ** Cursor helpers (lines 77-92 and 250-254) *)

Definition _remap_edge (v : float) : outcome float :=
  let m := EDGE_MARGIN in
  match float_truediv (v - m) (1.0 - 2 * m) with
  | Done q => Done (py_max 0.0 (py_min 1.0 q))
  | Raised e => Raised e
  end.

Definition _smooth (raw_x raw_y : float) : M (float * float) :=
  let a := SMOOTHING_FACTOR in
  sx <~ get _smooth_x ;;
  match sx with
  | None =>
      modify (set_smooth_x (Some raw_x)) ;;;
      modify (set_smooth_y (Some raw_y)) ;;;
      ret (raw_x, raw_y)
  | Some smooth_x =>
      let x := a * raw_x + (1 - a) * smooth_x in
      modify (set_smooth_x (Some x)) ;;;
      sy <~ get _smooth_y ;;
      match sy with
      | None => raise TypeError
      | Some smooth_y =>
          let y := a * raw_y + (1 - a) * smooth_y in
          modify (set_smooth_y (Some y)) ;;;
          ret (x, y)
      end
  end.

Definition _norm_to_px (nx ny : float) : M (Z * Z) :=
  screen_w <~ get _screen_w ;;
  w <~ lift (float_of_int screen_w) ;;
  px <~ lift (int_of_float (py_max 0.0 (py_min 1.0 nx) * w)) ;;
  screen_h <~ get _screen_h ;;
  h <~ lift (float_of_int screen_h) ;;
  py <~ lift (int_of_float (py_max 0.0 (py_min 1.0 ny) * h)) ;;
  ret (px, py).

(** ** Tool calls (lines 256-323)

    [_execute_tool] hands a tool name and its keyword arguments to the tool
    layer; a [ToolCall] is that request. *)
Inductive ToolCall : Type :=
| click (x y : Z) (button : string) (clicks : Z)
| drag_and_drop (from_x from_y to_x to_y : Z) (duration : float)
| scroll (x y : Z) (direction : string) (amount : Z).

Definition _handle_tap (cx cy : float) (movement : Payload.Movement)
  : M ToolCall :=
  p <~ _norm_to_px cx cy ;;
  ret (click (fst p) (snd p) "left" 1).

Definition _handle_double_tap (cx cy : float) (movement : Payload.Movement)
  : M ToolCall :=
  p <~ _norm_to_px cx cy ;;
  ret (click (fst p) (snd p) "left" 2).

Definition _handle_pinch_hold (cx cy : float) (movement : Payload.Movement)
  : M ToolCall :=
  p <~ _norm_to_px cx cy ;;
  ret (click (fst p) (snd p) "right" 1).

Definition _handle_pinch_drag (cx cy : float) (movement : Payload.Movement)
  : M ToolCall :=
  let origin := Payload.origin movement in
  let current := Payload.current movement in
  let ox := Payload.px origin in
  let oy := Payload.py origin in
  let dx := Payload.px current in
  let dy := Payload.py current in
  src <~ _norm_to_px ox oy ;;
  dst <~ _norm_to_px dx dy ;;
  ret (drag_and_drop (fst src) (snd src) (fst dst) (snd dst) 0.5).

Definition _handle_pinch_flick (cx cy : float) (movement : Payload.Movement)
  : M ToolCall :=
  let velocity := Payload.velocity movement in
  let vx := Payload.vx velocity in
  let vy := Payload.vy velocity in
  let '(direction, magnitude) :=
    if abs vx <=? abs vy then
      ((if 0 <? vy then "down" else "up"), abs vy)
    else
      ((if 0 <? vx then "right" else "left"), abs vx) in
  n <~ lift (int_of_float (magnitude / 200)) ;;
  let amount := Z.max 1 (Z.min 10 n) in
  p <~ _norm_to_px cx cy ;;
  ret (scroll (fst p) (snd p) direction amount).

Definition handler_map (gtype : string)
  : option (float -> float -> Payload.Movement -> M ToolCall) :=
  if String.eqb gtype "tap" then Some _handle_tap
  else if String.eqb gtype "double_tap" then Some _handle_double_tap
  else if String.eqb gtype "pinch_hold" then Some _handle_pinch_hold
  else if String.eqb gtype "pinch_drag" then Some _handle_pinch_drag
  else if String.eqb gtype "pinch_flick" then Some _handle_pinch_flick
  else None.

Definition is_in (s : string) (l : list string) : bool :=
  existsb (String.eqb s) l.

(** ** [handle_cursor] (line 94): what it returns here is the pixel
    [pyautogui.moveTo] is called with, if it is called. *)
Definition handle_cursor (event : FrameEvent) : M (option (Z * Z)) :=
  let gesture := Payload.gesture event in
  let gstate := Payload.state gesture in
  let gtype := Payload.type gesture in
  let cursor := Payload.cursor event in
  if is_in gstate ["start"; "active"] && negb (String.eqb gtype "none") then
    frozen <~ get _frozen ;;
    (if negb frozen then
       modify (set_frozen true) ;;;
       cx <~ lift (_remap_edge (Payload.px cursor)) ;;
       cy <~ lift (_remap_edge (Payload.py cursor)) ;;
       c <~ _smooth cx cy ;;
       p <~ _norm_to_px (fst c) (snd c) ;;
       modify (set_freeze_px (fst p)) ;;;
       modify (set_freeze_py (snd p))
     else ret tt) ;;;
    ret None
  else
    (if is_in gstate ["end"; "ended"; EmptyString] || String.eqb gtype "none"
     then
       frozen <~ get _frozen ;;
       if frozen then modify (set_frozen false) else ret tt
     else ret tt) ;;;
    cx <~ lift (_remap_edge (Payload.px cursor)) ;;
    cy <~ lift (_remap_edge (Payload.py cursor)) ;;
    c <~ _smooth cx cy ;;
    p <~ _norm_to_px (fst c) (snd c) ;;
    ret (Some p).

(** ** [handle_event] (line 161): what it returns here is the tool call it
    requests, if any. *)
Definition handle_event (event : FrameEvent) : M (option ToolCall) :=
  let gesture := Payload.gesture event in
  let gtype := Payload.type gesture in
  let gstate := Payload.state gesture in
  if negb (is_in gstate ["end"; "ended"]) then ret None
  else if negb (is_in gtype HANDLED_GESTURES) then ret None
  else
    let interaction := Payload.interaction_data gesture in
    let movement := Payload.movement interaction in
    let cursor := Payload.cursor event in
    frozen <~ get _frozen ;;
    freeze_px <~ get _freeze_px ;;
    freeze_py <~ get _freeze_py ;;
    c <~ (if frozen || (negb (freeze_px =? 0)%Z && negb (freeze_py =? 0)%Z)
          then
            screen_w <~ get _screen_w ;;
            cx <~ lift (int_truediv freeze_px screen_w) ;;
            screen_h <~ get _screen_h ;;
            cy <~ lift (int_truediv freeze_py screen_h) ;;
            ret (cx, cy)
          else ret (Payload.px cursor, Payload.py cursor)) ;;
    match handler_map gtype with
    | None => ret None
    | Some handler =>
        n <~ get _action_count ;;
        modify (set_action_count (n + 1)) ;;;
        result <~ handler (fst c) (snd c) movement ;;
        modify (set_freeze_px 0) ;;;
        modify (set_freeze_py 0) ;;;
        ret (Some result)
    end.

(** [ExecutionMode._on_gesture] (mode_manager.py, line 85): the cursor
    first, then the action. *)
Definition _on_gesture (event : FrameEvent)
  : M (option (Z * Z) * option ToolCall) :=
  moved_to <~ handle_cursor event ;;
  result <~ handle_event event ;;
  ret (moved_to, result).

(** ** The action table

    The class docstring maps gestures to actions: tap to a click, double tap
    to a double click, hold to a right click, drag to [drag_and_drop] from
    the origin to the current point, flick to a scroll whose direction
    comes from the velocity. [response] is that table as the events of the
    engine exercise it, to be compared with [handle_event]. *)

(** The point an action is aimed at (lines 188-194 of [handle_event]). *)
Definition click_point (event : FrameEvent) : M (float * float) :=
  frozen <~ get _frozen ;;
  freeze_px <~ get _freeze_px ;;
  freeze_py <~ get _freeze_py ;;
  if frozen || (negb (freeze_px =? 0)%Z && negb (freeze_py =? 0)%Z) then
    screen_w <~ get _screen_w ;;
    cx <~ lift (int_truediv freeze_px screen_w) ;;
    screen_h <~ get _screen_h ;;
    cy <~ lift (int_truediv freeze_py screen_h) ;;
    ret (cx, cy)
  else ret (Payload.px (Payload.cursor event), Payload.py (Payload.cursor event)).

(** Count the action, convert the point [aim] picks to pixels, request the
    call [make] builds there, and clear the freeze point. *)
Definition respond (event : FrameEvent)
           (aim : float * float -> float * float)
           (make : Z -> Z -> ToolCall) : M (option ToolCall) :=
  c <~ click_point event ;;
  n <~ get _action_count ;;
  modify (set_action_count (n + 1)) ;;;
  p <~ _norm_to_px (fst (aim c)) (snd (aim c)) ;;
  modify (set_freeze_px 0) ;;;
  modify (set_freeze_py 0) ;;;
  ret (Some (make (fst p) (snd p))).

Definition response (event : FrameEvent) : M (option ToolCall) :=
  let gesture := Payload.gesture event in
  let cursor := Payload.cursor event in
  if negb (String.eqb (Payload.state gesture) "end") then ret None
  else if String.eqb (Payload.type gesture) "tap" then
    respond event (fun c => c) (fun x y => click x y "left" 1)
  else if String.eqb (Payload.type gesture) "double_tap" then
    respond event (fun c => c) (fun x y => click x y "left" 2)
  else if String.eqb (Payload.type gesture) "pinch_hold" then
    respond event (fun c => c) (fun x y => click x y "right" 1)
  else if String.eqb (Payload.type gesture) "pinch_drag" then
    respond event (fun _ => (Payload.px cursor, Payload.py cursor))
            (fun x y => drag_and_drop x y x y 0.5)
  else if String.eqb (Payload.type gesture) "pinch_flick" then
    respond event (fun c => c) (fun x y => scroll x y "up" 1)
  else ret None.

(** The cursor of the event holds finite numbers, which is when the JSON
    text the handler parses carries them unchanged. *)
Definition transported (event : FrameEvent) : Prop :=
  is_finite (Payload.px (Payload.cursor event)) = true
  /\ is_finite (Payload.py (Payload.cursor event)) = true.

End GestureHandler.

(** ** Views of the handler's methods *)

(** A method that leaves a field of the handler as it finds it. *)
Definition keeps {A B : Type} (field : GestureHandler.t -> B)
           (m : GestureHandler.M A) : Prop :=
  forall h, field (fst (m h)) = field h.

(** A method that, when it returns, returns [Some] value. *)
Definition yields_some {A : Type} (m : GestureHandler.M (option A)) : Prop :=
  forall h, snd (m h) <> GestureHandler.Done None.

(** ** HUD properties of the engine (lines 574-586) *)

(** [GestureEngine.flash_label], read when the monotonic clock shows
    [t_now]. *)
Definition flash_label (self : GestureEngine) (t_now : float) : string :=
  if t_now <? _flash_until self then _flash_label self else EmptyString.

(** [GestureEngine.pinched]. *)
Definition pinched (self : GestureEngine) : bool :=
  idx_pinched self || mid_pinched self.

(** The banner a completed gesture is announced with, if any. *)
Definition banner_of (cls : string * string) : option string :=
  if class_eqb cls ("tap", "end") then Some "TAP"
  else if class_eqb cls ("double_tap", "end") then Some "DOUBLE TAP"
  else if class_eqb cls ("pinch_flick", "end") then Some "FLICK"
  else None.

(** ** Aiming at a frozen pixel

    [aim_pixel screen px] is the pixel coordinate [_norm_to_px] computes
    from the click coordinate [px / screen] that [handle_event] derives from
    a frozen pixel coordinate [px]. *)
Definition aim_pixel (screen px : Z) : GestureHandler.outcome Z :=
  match GestureHandler.int_truediv px screen with
  | GestureHandler.Done c =>
      match GestureHandler.float_of_int screen with
      | GestureHandler.Done w =>
          GestureHandler.int_of_float (py_max 0.0 (py_min 1.0 c) * w)
      | GestureHandler.Raised e => GestureHandler.Raised e
      end
  | GestureHandler.Raised e => GestureHandler.Raised e
  end.

Definition lands_near (px : Z) (r : GestureHandler.outcome Z) : bool :=
  match r with
  | GestureHandler.Done x => ((px - 1 <=? x) && (x <=? px))%Z
  | GestureHandler.Raised _ => false
  end.

Definition pixels (screen : Z) : list Z :=
  map Z.of_nat (seq 0 (S (Z.to_nat screen))).

(** A call that has found both fingertips further than [PINCH_EXIT] from
    the thumb: the two distances it has stored in the engine. *)
Definition open_hand (r : GestureEngine * FrameEvent) : Prop :=
  (PINCH_EXIT <? idx_dist (fst r)) = true
  /\ (PINCH_EXIT <? mid_dist (fst r)) = true.

(** ** The power of the scenarios

    The scenarios of this file run the engine with the rounded product
    [v * v] for [v ** 2], raising OverflowError when the product of a finite
    [v] is infinite. On every coordinate difference the scenarios square,
    this is the float CPython computes. *)
Definition pow2_rounded (v : float) : option float :=
  let r := v * v in
  if is_infinity r && negb (is_infinity v) then None else Some r.

(** * The engine over the platform's power

    [pow2 v] is the value of [v ** 2], [None] when the power raises
    OverflowError. Nothing is assumed of it: the statements of this section
    hold for whatever the C library computes. In particular the squares are
    not assumed to be non-negative, so that the statements allow for the
    ValueError of [math.sqrt], which no power with non-negative squares
    leads to. *)

Section Engine.

Variable pow2 : float -> option float.

Definition square (v : float) : result float :=
  match pow2 v with
  | Some r => Ok r
  | None => Raise OverflowError
  end.

(** [math.sqrt(dx**2 + dy**2)]: the two powers from left to right, then the
    root of their sum. *)
Definition norm2 (dx dy : float) : result float :=
  a <- square dx ;;
  b <- square dy ;;
  py_sqrt (a + b).

(** [_dist] (line 131). *)
Definition _dist (a b : Landmark.t) : result float :=
  norm2 (Landmark.x a - Landmark.x b) (Landmark.y a - Landmark.y b).

(** [GestureEngine._calc_vel] (line 489). In the last line the distance is
    evaluated before the quotient. *)
Definition _calc_vel (trail : list Sample) : result float :=
  if (List.length trail <? 3)%nat then Ok 0.0
  else
    latest <- getitem_last trail ;;
    let now := sample_t latest in
    let target_t := now - 0.1 in
    oldest <- getitem trail 0 ;;
    let best := scan_best target_t oldest trail in
    let '(x0, y0, t0) := best in
    let '(x1, y1, t1) := latest in
    let dt := t1 - t0 in
    if dt <? 0.01 then Ok 0.0
    else
      d <- norm2 (x1 - x0) (y1 - y0) ;;
      q <- truediv 0.1 dt ;;
      Ok (d * q).

(** ** One frame: [GestureEngine.update] (lines 327-463) *)

Definition update (self : GestureEngine) (lm : list Landmark.t) (clk : Clock)
  : result (GestureEngine * FrameEvent) :=
  let now := monotonic clk in
  thumb <- getitem lm THUMB_TIP ;;
  index <- getitem lm INDEX_TIP ;;
  middle <- getitem lm MIDDLE_TIP ;;
  (* cursor always follows the index finger tip *)
  let ix := Landmark.x index in
  let iy := Landmark.y index in
  let self := set_cursor_x ix self in
  let self := set_cursor_y iy self in
  (* raw distances *)
  di <- _dist thumb index ;;
  let self := set_idx_dist di self in
  dm <- _dist thumb middle ;;
  let self := set_mid_dist dm self in
  (* hysteresis for the index and the middle pinch *)
  let self :=
    set_idx_pinched (hysteresis (idx_pinched self) (idx_dist self)) self in
  let self :=
    set_mid_pinched (hysteresis (mid_pinched self) (mid_dist self)) self in
  (* velocity trail *)
  let self := set_trail (deque_append (_trail self) (ix, iy, now)) self in
  (* reset per-frame *)
  let self := set_frame_dx 0.0 self in
  let self := set_frame_dy 0.0 self in
  (* state machine *)
  self <-
    match state self with
    | S_IDLE =>
        let self := set_gtype "none" self in
        let self := set_gstate "idle" self in
        if mid_pinched self then Ok (_enter_mid_pinch now self)
        else if idx_pinched self && (_dbl_cooldown_until self <? now)
        then Ok (_enter_idx_pinch now ix iy self)
        else Ok self
    | S_MID_PINCH =>
        let self := set_dur_ms ((now - pinch_t0 self) * 1000) self in
        if mid_pinched self then
          let self := set_gtype "double_tap" self in
          Ok (set_gstate "start" self)
        else
          let dur_s := dur_ms self / 1000.0 in
          let self :=
            if dur_s <? TAP_MAX_TIME then
              let self := set_gtype "double_tap" self in
              let self := set_gstate "end" self in
              let self := set_tap_count 2%Z self in
              let self := _flash "DOUBLE TAP" now self in
              set_dbl_cooldown_until (now + DOUBLE_TAP_COOL) self
            else
              let self := set_gtype "none" self in
              set_gstate "idle" self in
          Ok (set_state S_IDLE self)
    | S_IDX_PINCH =>
        let self := set_dur_ms ((now - pinch_t0 self) * 1000) self in
        if idx_pinched self then
          self <-
            match prev_palm self with
            | Some (palm_x, palm_y) =>
                let self := set_frame_dx (ix - palm_x) self in
                let self := set_frame_dy (iy - palm_y) self in
                fm <- norm2 (frame_dx self) (frame_dy self) ;;
                Ok (set_cum_move (cum_move self + fm) self)
            | None => Ok self
            end ;;
          let self := set_prev_palm (Some (ix, iy)) self in
          let self :=
            if DRAG_DEADZONE <? cum_move self then set_moved true self
            else self in
          if moved self then
            let self := set_gtype "pinch_drag" self in
            Ok (set_gstate "active" self)
          else if HOLD_MIN_MS <? dur_ms self then
            let self := set_gtype "pinch_hold" self in
            Ok (set_gstate "active" self)
          else
            let self := set_gtype "pinch_hold" self in
            Ok (set_gstate "start" self)
        else
          v <- _calc_vel (_trail self) ;;
          let self := set_vel v self in
          let dur_s := dur_ms self / 1000.0 in
          let self :=
            if moved self && (FLICK_VELOCITY <? vel self) then
              let self := set_gtype "pinch_flick" self in
              let self := set_gstate "end" self in
              _flash "FLICK" now self
            else if (dur_s <? TAP_MAX_TIME) && negb (moved self) then
              let self := set_gtype "tap" self in
              let self := set_gstate "end" self in
              let self := set_tap_count 1%Z self in
              _flash "TAP" now self
            else if moved self then
              let self := set_gtype "pinch_drag" self in
              set_gstate "end" self
            else
              let self := set_gtype "pinch_hold" self in
              set_gstate "end" self in
          let self := _reset_pinch self in
          Ok (set_state S_IDLE self)
    end ;;
  ev <- _payload self lm clk ;;
  Ok (self, ev).

(** ** The frame loop

    The capture loop calls [update] once per frame in which a hand is seen;
    [run] does so over a list of frames and collects, per frame, the engine
    after the call and the event it returned. It raises what the first
    raising call raises. *)

Fixpoint run (self : GestureEngine) (frames : list Frame)
  : result (list (GestureEngine * FrameEvent)) :=
  match frames with
  | [] => Ok []
  | f :: frames' =>
      r <- update self (frame_lm f) (frame_clk f) ;;
      rest <- run (fst r) frames' ;;
      Ok (r :: rest)
  end.

(** ** Reading of the specification: the velocity estimate

    [spec_calc_vel] follows the words of the design text, with
    [spec_reference] for its reference sample, to be compared with
    [_calc_vel]. *)

Definition sample_dist (a b : Sample) : result float :=
  let '(x0, y0, _) := a in
  let '(x1, y1, _) := b in
  norm2 (x1 - x0) (y1 - y0).

Definition spec_calc_vel (trail : list Sample) : result float :=
  if (List.length trail <? 3)%nat then Ok 0.0
  else
    latest <- getitem_last trail ;;
    match spec_reference (sample_t latest - 0.1) trail with
    | Some ref =>
        let dt := sample_t latest - sample_t ref in
        if dt <? 0.01 then Ok 0.0
        else
          d <- sample_dist ref latest ;;
          q <- truediv 0.1 dt ;;
          Ok (d * q)
    | None => Ok 0.0
    end.

(** ** The state machine of [update] *)

(** The motion tracking of a held index pinch (lines 406-414). *)
Definition track (ix iy : float) (self : GestureEngine)
  : result GestureEngine :=
  self <-
    match prev_palm self with
    | Some (palm_x, palm_y) =>
        let self := set_frame_dx (ix - palm_x) self in
        let self := set_frame_dy (iy - palm_y) self in
        fm <- norm2 (frame_dx self) (frame_dy self) ;;
        Ok (set_cum_move (cum_move self + fm) self)
    | None => Ok self
    end ;;
  let self := set_prev_palm (Some (ix, iy)) self in
  Ok (if DRAG_DEADZONE <? cum_move self then set_moved true self else self).

Definition advance (self : GestureEngine) (ix iy now : float)
  : result GestureEngine :=
  match state self with
  | S_IDLE =>
      let self := set_gtype "none" self in
      let self := set_gstate "idle" self in
      if mid_pinched self then Ok (_enter_mid_pinch now self)
      else if idx_pinched self && (_dbl_cooldown_until self <? now)
      then Ok (_enter_idx_pinch now ix iy self)
      else Ok self
  | S_MID_PINCH =>
      let self := set_dur_ms ((now - pinch_t0 self) * 1000) self in
      if mid_pinched self then
        let self := set_gtype "double_tap" self in
        Ok (set_gstate "start" self)
      else
        let dur_s := dur_ms self / 1000.0 in
        let self :=
          if dur_s <? TAP_MAX_TIME then
            let self := set_gtype "double_tap" self in
            let self := set_gstate "end" self in
            let self := set_tap_count 2%Z self in
            let self := _flash "DOUBLE TAP" now self in
            set_dbl_cooldown_until (now + DOUBLE_TAP_COOL) self
          else
            let self := set_gtype "none" self in
            set_gstate "idle" self in
        Ok (set_state S_IDLE self)
  | S_IDX_PINCH =>
      let self := set_dur_ms ((now - pinch_t0 self) * 1000) self in
      if idx_pinched self then
        self <- track ix iy self ;;
        if moved self then
          let self := set_gtype "pinch_drag" self in
          Ok (set_gstate "active" self)
        else if HOLD_MIN_MS <? dur_ms self then
          let self := set_gtype "pinch_hold" self in
          Ok (set_gstate "active" self)
        else
          let self := set_gtype "pinch_hold" self in
          Ok (set_gstate "start" self)
      else
        v <- _calc_vel (_trail self) ;;
        let self := classify_release now (set_vel v self) in
        let self := _reset_pinch self in
        Ok (set_state S_IDLE self)
  end.

(** The two distances of a frame, as [update] computes them. *)
Definition idx_gap (f : Frame) : result float :=
  _dist (tip THUMB_TIP f) (tip INDEX_TIP f).
Definition mid_gap (f : Frame) : result float :=
  _dist (tip THUMB_TIP f) (tip MIDDLE_TIP f).

(** The engine after the frames, from [self] ([self] itself if a call
    raises). *)
Definition engine_after (self : GestureEngine) (frames : list Frame)
  : GestureEngine :=
  match run self frames with
  | Ok trace => final self trace
  | Raise _ => self
  end.

(** ** The engine together with its overlay

    [advance_overlay] is the state machine of [update] with the overlay it
    calls: the engine half of its result is [advance]. [t_ov] is the clock
    value the overlay reads when it is called, after [update] has read
    [now]. *)

Definition advance_overlay (self : GestureEngine) (ov : TestOverlay.t)
           (index middle : Landmark.t) (now t_ov : float)
  : result (GestureEngine * TestOverlay.t) :=
  let ix := Landmark.x index in
  let iy := Landmark.y index in
  match state self with
  | S_IDLE =>
      let self := set_gtype "none" self in
      let self := set_gstate "idle" self in
      if mid_pinched self then Ok (_enter_mid_pinch now self, ov)
      else if idx_pinched self && (_dbl_cooldown_until self <? now)
      then Ok (_enter_idx_pinch now ix iy self,
               TestOverlay.on_drag_start ix iy ov)
      else Ok (self, ov)
  | S_MID_PINCH =>
      let self := set_dur_ms ((now - pinch_t0 self) * 1000) self in
      if mid_pinched self then
        let self := set_gtype "double_tap" self in
        Ok (set_gstate "start" self, ov)
      else
        let dur_s := dur_ms self / 1000.0 in
        let '(self, ov) :=
          if dur_s <? TAP_MAX_TIME then
            let self := set_gtype "double_tap" self in
            let self := set_gstate "end" self in
            let self := set_tap_count 2%Z self in
            let self := _flash "DOUBLE TAP" now self in
            let ov :=
              TestOverlay.on_tap (Landmark.x middle) (Landmark.y middle)
                                 "double_tap" t_ov ov in
            (set_dbl_cooldown_until (now + DOUBLE_TAP_COOL) self, ov)
          else
            let self := set_gtype "none" self in
            (set_gstate "idle" self, ov) in
        Ok (set_state S_IDLE self, ov)
  | S_IDX_PINCH =>
      let self := set_dur_ms ((now - pinch_t0 self) * 1000) self in
      if idx_pinched self then
        self <- track ix iy self ;;
        if moved self then
          let self := set_gtype "pinch_drag" self in
          Ok (set_gstate "active" self, TestOverlay.on_drag_update ix iy ov)
        else if HOLD_MIN_MS <? dur_ms self then
          let self := set_gtype "pinch_hold" self in
          Ok (set_gstate "active" self, ov)
        else
          let self := set_gtype "pinch_hold" self in
          Ok (set_gstate "start" self, ov)
      else
        v <- _calc_vel (_trail self) ;;
        let self := set_vel v self in
        let dur_s := dur_ms self / 1000.0 in
        let '(self, ov) :=
          if moved self && (FLICK_VELOCITY <? vel self) then
            let self := set_gtype "pinch_flick" self in
            let self := set_gstate "end" self in
            (_flash "FLICK" now self, TestOverlay.on_drag_end t_ov ov)
          else if (dur_s <? TAP_MAX_TIME) && negb (moved self) then
            let self := set_gtype "tap" self in
            let self := set_gstate "end" self in
            let self := set_tap_count 1%Z self in
            (_flash "TAP" now self,
             TestOverlay.on_tap (Landmark.x index) (Landmark.y index)
                                "tap" t_ov ov)
          else if moved self then
            let self := set_gtype "pinch_drag" self in
            (set_gstate "end" self, TestOverlay.on_drag_end t_ov ov)
          else
            let self := set_gtype "pinch_hold" self in
            (set_gstate "end" self, ov) in
        let self := _reset_pinch self in
        Ok (set_state S_IDLE self, ov)
  end.

(** [GestureEngine.update] with the overlay of the engine made explicit. *)
Definition update_overlay (self : GestureEngine) (ov : TestOverlay.t)
           (lm : list Landmark.t) (clk : Clock) (t_ov : float)
  : result (GestureEngine * TestOverlay.t * FrameEvent) :=
  let now := monotonic clk in
  thumb <- getitem lm THUMB_TIP ;;
  index <- getitem lm INDEX_TIP ;;
  middle <- getitem lm MIDDLE_TIP ;;
  di <- _dist thumb index ;;
  dm <- _dist thumb middle ;;
  r <- advance_overlay (sense self index di dm now) ov index middle
                       now t_ov ;;
  ev <- _payload (fst r) lm clk ;;
  Ok (fst r, snd r, ev).

(** ** The capture loop (lines 776-819)

    Two statements of the loop change the engine or its overlay: the call of
    [update] on a frame in which a hand is seen (line 796), and the cleanup
    at the head of [draw], which [draw_cursor] calls in every iteration
    (line 714). What else the loop does ([draw_hand], the painting of
    [draw_cursor], [draw] and [draw_hud], the serialisation and the socket)
    reads the engine; when any of it or [update] raises, the loop ends, as
    its [try] has no handler. [loop_step] is one of the two moves,
    [loop_reaches] a sequence of them: every state the loop goes through is
    reached from the initial one. *)

Inductive loop_step
  : GestureEngine * TestOverlay.t -> GestureEngine * TestOverlay.t -> Prop :=
| loop_update (self : GestureEngine) (ov : TestOverlay.t) (f : Frame)
              (t_ov : float) (self' : GestureEngine) (ov' : TestOverlay.t)
              (ev : FrameEvent) :
    update_overlay self ov (frame_lm f) (frame_clk f) t_ov
    = Ok (self', ov', ev) ->
    loop_step (self, ov) (self', ov')
| loop_draw (self : GestureEngine) (ov : TestOverlay.t) (t_now : float) :
    loop_step (self, ov) (self, TestOverlay.draw_purge t_now ov).

Inductive loop_reaches
  : GestureEngine * TestOverlay.t -> GestureEngine * TestOverlay.t -> Prop :=
| loop_here (st : GestureEngine * TestOverlay.t) : loop_reaches st st
| loop_then (st st' st'' : GestureEngine * TestOverlay.t) :
    loop_step st st' -> loop_reaches st' st'' -> loop_reaches st st''.

(** One engine and frame for each row of [transitions], in order. *)
Definition row_examples : list (GestureEngine * Frame) :=
  let mid := engine_after init [middle_gap_frame 0.02 1.0] in
  let idx := engine_after init [index_gap_frame 0.02 1.0] in
  let drag := engine_after init [ moving_frame 0.50 0.02 1.0;
                                  moving_frame 0.53 0.02 1.033;
                                  moving_frame 0.56 0.02 1.066 ] in
  [ (init, index_gap_frame 0.10 1.0);
    (init, middle_gap_frame 0.02 1.0);
    (init, index_gap_frame 0.02 1.0);
    (mid, middle_gap_frame 0.02 1.033);
    (mid, middle_gap_frame 0.10 1.1);
    (mid, middle_gap_frame 0.10 1.5);
    (idx, index_gap_frame 0.02 1.033);
    (idx, index_gap_frame 0.02 1.6);
    (drag, moving_frame 0.56 0.02 1.099);
    (drag, moving_frame 0.96 0.2 1.099);
    (idx, index_gap_frame 0.10 1.1);
    (drag, moving_frame 0.56 0.2 1.099);
    (idx, index_gap_frame 0.10 1.5) ].

Definition row_taken (ex : GestureEngine * Frame)
  : option (EngineState * EngineState * (string * string)) :=
  match update (fst ex) (frame_lm (snd ex)) (frame_clk (snd ex)) with
  | Ok (self', ev) => Some (state (fst ex), state self', event_class ev)
  | Raise _ => None
  end.

Arguments norm2 : simpl never.
Arguments _dist : simpl never.
Arguments _calc_vel : simpl never.

(** * Properties *)

(** ** Order facts on binary64 comparisons *)

Ltac sf_cases x := destruct x as [ [|] | [|] | | [|] ? ? ].

Lemma SFcompare_Lt_Gt (a b : spec_float) :
  SFcompare a b = Some Lt -> SFcompare b a = Some Gt.
Proof.
  sf_cases a; sf_cases b; simpl; try congruence;
    rewrite (Z.compare_antisym e e0), !Pos.compare_cont_spec;
    unfold Pos.switch_Eq;
    rewrite (Pos.compare_antisym m m0);
    destruct (e ?= e0)%Z; simpl; try congruence;
    destruct (m ?= m0)%positive; simpl; congruence.
Qed.

Lemma SFcompare_Eq_sym (a b : spec_float) :
  SFcompare a b = Some Eq -> SFcompare b a = Some Eq.
Proof.
  sf_cases a; sf_cases b; simpl; try congruence;
    rewrite (Z.compare_antisym e e0), !Pos.compare_cont_spec;
    unfold Pos.switch_Eq;
    rewrite (Pos.compare_antisym m m0);
    destruct (e ?= e0)%Z; simpl; try congruence;
    destruct (m ?= m0)%positive; simpl; congruence.
Qed.

Ltac lex_cases :=
  repeat match goal with
    | |- context [ Pos.compare_cont Eq ?p ?q ] =>
        rewrite (Pos.compare_cont_spec p q); unfold Pos.switch_Eq
    | H : context [ Pos.compare_cont Eq ?p ?q ] |- _ =>
        rewrite (Pos.compare_cont_spec p q) in H; unfold Pos.switch_Eq in H
    end;
  repeat match goal with
    | |- context [ (?p ?= ?q)%Z ] => destruct (Z.compare_spec p q)
    | H : context [ (?p ?= ?q)%Z ] |- _ => destruct (Z.compare_spec p q)
    | |- context [ (?p ?= ?q)%positive ] => destruct (Pos.compare_spec p q)
    | H : context [ (?p ?= ?q)%positive ] |- _ =>
        destruct (Pos.compare_spec p q)
    end;
  simpl in *; subst; try congruence; try lia.

(** [SFcompare] is a lexicographic comparison, hence transitive, whichever
    of the two steps is strict. *)
Lemma SFcompare_trans (a b c : spec_float) (r1 r2 : comparison) :
  SFcompare a b = Some r1 -> SFcompare b c = Some r2 ->
  r1 <> Gt -> r2 <> Gt ->
  SFcompare a c = Some (match r1 with Lt => Lt | _ => r2 end).
Proof.
  intros H1 H2 N1 N2.
  sf_cases a; sf_cases b; sf_cases c; simpl in *;
    try discriminate;
    try (injection H1 as <-); try (injection H2 as <-);
    try congruence;
    lex_cases.
Qed.

Lemma ltb_asym (a b : float) : (a <? b)%float = true -> (b <? a)%float = false.
Proof.
  rewrite !ltb_spec. unfold SFltb.
  destruct (SFcompare (Prim2SF a) (Prim2SF b)) as [[]|] eqn:E; try discriminate.
  intros _. now rewrite (SFcompare_Lt_Gt _ _ E).
Qed.

Lemma leb_not_gt (a b : float) : (a <=? b)%float = true -> (b <? a)%float = false.
Proof.
  rewrite ltb_spec, leb_spec. unfold SFltb, SFleb.
  destruct (SFcompare (Prim2SF a) (Prim2SF b)) as [[]|] eqn:E; try discriminate;
    intros _.
  - now rewrite (SFcompare_Eq_sym _ _ E).
  - now rewrite (SFcompare_Lt_Gt _ _ E).
Qed.

Lemma ltb_trans (a b c : float) :
  (a <? b)%float = true -> (b <? c)%float = true -> (a <? c)%float = true.
Proof.
  rewrite !ltb_spec. unfold SFltb.
  destruct (SFcompare (Prim2SF a) (Prim2SF b)) as [[]|] eqn:E1; try discriminate.
  destruct (SFcompare (Prim2SF b) (Prim2SF c)) as [[]|] eqn:E2; try discriminate.
  intros _ _.
  now rewrite (SFcompare_trans _ _ _ _ _ E1 E2 ltac:(discriminate) ltac:(discriminate)).
Qed.

Lemma eqb_ltb_trans (a b c : float) :
  (a =? b)%float = true -> (b <? c)%float = true -> (a <? c)%float = true.
Proof.
  rewrite FloatAxioms.eqb_spec, !ltb_spec. unfold SFeqb, SFltb.
  destruct (SFcompare (Prim2SF a) (Prim2SF b)) as [[]|] eqn:E1; try discriminate.
  destruct (SFcompare (Prim2SF b) (Prim2SF c)) as [[]|] eqn:E2; try discriminate.
  intros _ _.
  now rewrite (SFcompare_trans _ _ _ _ _ E1 E2 ltac:(discriminate) ltac:(discriminate)).
Qed.

Lemma leb_ltb_trans (a b c : float) :
  (a <=? b)%float = true -> (b <? c)%float = true -> (a <? c)%float = true.
Proof.
  rewrite leb_spec, !ltb_spec. unfold SFleb, SFltb.
  destruct (SFcompare (Prim2SF a) (Prim2SF b)) as [[]|] eqn:E1; try discriminate;
    destruct (SFcompare (Prim2SF b) (Prim2SF c)) as [[]|] eqn:E2;
    try discriminate; intros _ _;
    now rewrite (SFcompare_trans _ _ _ _ _ E1 E2 ltac:(discriminate) ltac:(discriminate)).
Qed.

Lemma ltb_leb_trans (a b c : float) :
  (a <? b)%float = true -> (b <=? c)%float = true -> (a <? c)%float = true.
Proof.
  rewrite leb_spec, !ltb_spec. unfold SFleb, SFltb.
  destruct (SFcompare (Prim2SF a) (Prim2SF b)) as [[]|] eqn:E1; try discriminate;
    destruct (SFcompare (Prim2SF b) (Prim2SF c)) as [[]|] eqn:E2;
    try discriminate; intros _ _;
    now rewrite (SFcompare_trans _ _ _ _ _ E1 E2 ltac:(discriminate) ltac:(discriminate)).
Qed.

Lemma ltb_leb (a b : float) : (a <? b) = true -> (a <=? b) = true.
Proof.
  rewrite ltb_spec, leb_spec. unfold SFltb, SFleb.
  now destruct (SFcompare (Prim2SF a) (Prim2SF b)) as [[]|].
Qed.

(** ** Indexing *)

Lemma getitem_Ok_iff {A : Type} (l : list A) (i : nat) :
  (exists a, getitem l i = Ok a) <-> (i < List.length l)%nat.
Proof.
  unfold getitem. rewrite <- nth_error_Some.
  destruct (nth_error l i) as [a|]; split.
  - intros _. congruence.
  - intros _. eauto.
  - intros [a H]. discriminate.
  - intros H. congruence.
Qed.


(** ** The arithmetic that can raise *)

(** The distance [sqrt(dx**2 + dy**2)] raises what the power raises, or the
    ValueError of [math.sqrt]. *)
Lemma norm2_raises (dx dy : float) (e : exn) :
  norm2 dx dy = Raise e -> e = OverflowError \/ e = ValueError.
Proof.
  unfold norm2, square, py_sqrt.
  destruct (pow2 dx); cbn [bind]; [|intros [= <-]; auto].
  destruct (pow2 dy); cbn [bind]; [|intros [= <-]; auto].
  destruct (_ && _); [intros [= <-]; auto|discriminate].
Qed.

(** ** C7: the velocity estimate *)

Lemma last_nonempty {A : Type} (a : A) (l : list A) (d d' : A) :
  last (a :: l) d = last (a :: l) d'.
Proof.
  revert a. induction l as [|b l IH]; intros a; [reflexivity|].
  change (last (b :: l) d = last (b :: l) d'). apply IH.
Qed.

Lemma scan_best_take_while (target_t : float) (trail : list Sample)
      (best : Sample) :
  scan_best target_t best trail
  = last (take_while (fun pt => sample_t pt <=? target_t) trail) best.
Proof.
  revert best.
  induction trail as [|pt rest IH]; intros best; cbn [scan_best take_while].
  - reflexivity.
  - destruct (sample_t pt <=? target_t); [|reflexivity].
    rewrite IH. destruct (take_while _ rest) as [|q l]; [reflexivity|].
    change (last (q :: l) pt = last (q :: l) best). apply last_nonempty.
Qed.

(** The guard [dt < 0.01] catches a zero [dt]: the division cannot raise. *)
Lemma guard_excludes_zero (dt : float) :
  (dt <? 0.01) = false -> (dt =? 0) = false.
Proof.
  intros H. destruct (dt =? 0) eqn:E; [|reflexivity].
  rewrite (eqb_ltb_trans dt 0 0.01 E) in H by reflexivity.
  discriminate.
Qed.

Lemma calc_vel_short (trail : list Sample) :
  (List.length trail < 3)%nat -> _calc_vel trail = Ok 0.0.
Proof.
  intros Hlt. unfold _calc_vel.
  now replace (List.length trail <? 3)%nat with true
    by (symmetry; apply Nat.ltb_lt; exact Hlt).
Qed.

Lemma calc_vel_long (oldest : Sample) (rest : list Sample) :
  (2 <= List.length rest)%nat ->
  let trail := oldest :: rest in
  let latest := last rest oldest in
  let best := scan_best (sample_t latest - 0.1) oldest trail in
  let dt := sample_t latest - sample_t best in
  _calc_vel trail
  = if dt <? 0.01 then Ok 0.0
    else d <- sample_dist best latest ;; Ok (d * (0.1 / dt)).
Proof.
  intros Hlen trail latest best dt. unfold _calc_vel.
  replace (List.length trail <? 3)%nat with false
    by (symmetry; apply Nat.ltb_ge; simpl; lia).
  cbn [getitem_last getitem nth_error trail bind].
  fold latest. fold trail. fold best.
  unfold dt, sample_dist, sample_t.
  destruct best as [[x0 y0] t0], latest as [[x1 y1] t1]. cbn [snd].
  destruct (t1 - t0 <? 0.01) eqn:G; [reflexivity|].
  unfold truediv. rewrite (guard_excludes_zero _ G).
  destruct (norm2 _ _); reflexivity.
Qed.

(** [_calc_vel] raises nothing but what the distance raises. *)
Lemma calc_vel_raises (trail : list Sample) (e : exn) :
  _calc_vel trail = Raise e -> e = OverflowError \/ e = ValueError.
Proof.
  destruct (Nat.ltb_spec (List.length trail) 3) as [Hlt|Hge].
  - rewrite (calc_vel_short _ Hlt). discriminate.
  - destruct trail as [|oldest rest]; [simpl in Hge; lia|].
    rewrite calc_vel_long by (simpl in Hge; lia).
    destruct (_ <? 0.01); [discriminate|].
    unfold sample_dist.
    destruct (scan_best _ _ _) as [[x0 y0] t0], (last rest oldest) as [[x1 y1] t1].
    destruct (norm2 _ _) eqn:Hn; cbn [bind]; [discriminate|].
    intros [= <-]. exact (norm2_raises _ _ _ Hn).
Qed.

(** C7, amended. [_calc_vel] returns 0 on fewer than three samples.
    Otherwise its reference sample is the last sample of the longest leading
    run of samples with [t <= latest.t - 0.1], or the oldest sample when that
    run is empty; with [dt = latest.t - reference.t] it returns 0, raising
    nothing, when [dt < 0.01]; otherwise [dt] is not zero, the division does
    not raise, and the call evaluates [distance(reference, latest)] and, if
    that returns, returns it times [0.1 / dt]. The distance can raise:
    OverflowError when a squared coordinate difference is out of range (or
    the ValueError of [math.sqrt]); [_calc_vel] raises nothing else. *)
Theorem calc_vel_reference (trail : list Sample) :
  ((List.length trail < 3)%nat -> _calc_vel trail = Ok 0.0)
  /\ ((3 <= List.length trail)%nat ->
      exists oldest latest,
        getitem trail 0 = Ok oldest
        /\ getitem_last trail = Ok latest
        /\ let target_t := sample_t latest - 0.1 in
           let reference :=
             last (take_while (fun pt => sample_t pt <=? target_t) trail)
                  oldest in
           let dt := sample_t latest - sample_t reference in
           ((dt <? 0.01) = true -> _calc_vel trail = Ok 0.0)
           /\ ((dt <? 0.01) = false ->
               truediv 0.1 dt = Ok (0.1 / dt)
               /\ _calc_vel trail
                  = (d <- sample_dist reference latest ;;
                     Ok (d * (0.1 / dt)))))
  /\ (forall e, _calc_vel trail = Raise e ->
                e = OverflowError \/ e = ValueError).
Proof.
  split; [exact (calc_vel_short trail)|]. split; [|exact (calc_vel_raises trail)].
  intros Hge. destruct trail as [|oldest rest]; [simpl in Hge; lia|].
  exists oldest, (last rest oldest). repeat split.
  - intros G. rewrite calc_vel_long by (simpl in Hge; lia).
    rewrite scan_best_take_while. cbv zeta in G. now rewrite G.
  - unfold truediv. now rewrite (guard_excludes_zero _ H).
  - rewrite calc_vel_long by (simpl in Hge; lia).
    rewrite scan_best_take_while. cbv zeta in H. now rewrite H.
Qed.

(** ** Hysteresis *)

Lemma below_enter_not_above_exit (d : float) :
  below_enter d = true -> above_exit d = false.
Proof.
  unfold below_enter, above_exit. intros H.
  apply ltb_asym.
  apply (ltb_trans d PINCH_DIST PINCH_EXIT H). reflexivity.
Qed.

Lemma hysteresis_below (pinched : bool) (d : float) :
  below_enter d = true -> hysteresis pinched d = true.
Proof.
  intros H. pose proof (below_enter_not_above_exit d H) as H'.
  unfold hysteresis, below_enter, above_exit in *. rewrite H, H'.
  now destruct pinched.
Qed.

Lemma hysteresis_not_below (pinched : bool) (d : float) :
  below_enter d = false ->
  hysteresis pinched d = pinched && negb (above_exit d).
Proof.
  intros H. unfold hysteresis, below_enter, above_exit in *. rewrite H.
  destruct pinched, (PINCH_EXIT <? d); reflexivity.
Qed.

(** How often the flag can change, by the side of [PINCH_DIST] the first
    sample lies on and by the number of crossings of [PINCH_DIST]. *)
Lemma changes_by_crossings (ds : list float) (pinched : bool) :
  match ds with
  | [] => changes pinched ds = 0%nat
  | a :: _ =>
      if below_enter a then
        (crossings below_enter ds = 0%nat ->
         changes pinched ds = if pinched then 0%nat else 1%nat)
        /\ (crossings below_enter ds = 1%nat ->
            (changes pinched ds <= if pinched then 1 else 2)%nat)
      else
        (crossings below_enter ds = 0%nat ->
         (changes pinched ds <= if pinched then 1 else 0)%nat)
        /\ (crossings below_enter ds = 1%nat ->
            (changes pinched ds <= if pinched then 2 else 1)%nat)
  end.
Proof.
  revert pinched. induction ds as [|a ds IH]; intros pinched; [reflexivity|].
  destruct ds as [|b ds].
  - cbn [changes crossings]. destruct (below_enter a) eqn:Ea.
    + rewrite (hysteresis_below _ _ Ea). destruct pinched; simpl; lia.
    + rewrite (hysteresis_not_below _ _ Ea).
      destruct pinched, (above_exit a); simpl; lia.
  - change (changes pinched (a :: b :: ds))
      with ((if Bool.eqb pinched (hysteresis pinched a) then 0 else 1)
            + changes (hysteresis pinched a) (b :: ds))%nat.
    change (crossings below_enter (a :: b :: ds))
      with ((if Bool.eqb (below_enter a) (below_enter b) then 0 else 1)
            + crossings below_enter (b :: ds))%nat.
    specialize (IH (hysteresis pinched a)).
    destruct (below_enter a) eqn:Ea.
    + rewrite (hysteresis_below _ _ Ea) in *.
      destruct (below_enter b), pinched; simpl in *; lia.
    + rewrite (hysteresis_not_below _ _ Ea) in *.
      destruct (below_enter b), pinched, (above_exit a); simpl in *; lia.
Qed.

(** A channel whose distance crosses [PINCH_DIST] at most once changes its
    flag at most twice, whatever the flag it starts from. *)
Lemma changes_le_2 (ds : list float) (pinched : bool) :
  (crossings below_enter ds <= 1)%nat -> (changes pinched ds <= 2)%nat.
Proof.
  intros H. pose proof (changes_by_crossings ds pinched) as B.
  destruct ds as [|a ds]; [simpl; lia|].
  assert (crossings below_enter (a :: ds) = 0 \/
          crossings below_enter (a :: ds) = 1)%nat as [E|E] by lia;
    destruct (below_enter a), pinched, B as [B0 B1];
    try specialize (B0 E); try specialize (B1 E); lia.
Qed.

(** ** One call of [update] *)

Lemma update_eq (self : GestureEngine) (lm : list Landmark.t) (clk : Clock) :
  update self lm clk
  = (thumb <- getitem lm THUMB_TIP ;;
     index <- getitem lm INDEX_TIP ;;
     middle <- getitem lm MIDDLE_TIP ;;
     di <- _dist thumb index ;;
     dm <- _dist thumb middle ;;
     self' <- advance (sense self index di dm (monotonic clk))
                      (Landmark.x index) (Landmark.y index) (monotonic clk) ;;
     ev <- _payload self' lm clk ;;
     Ok (self', ev)).
Proof.
  unfold update.
  destruct (getitem lm THUMB_TIP) as [thumb|]; [|reflexivity].
  destruct (getitem lm INDEX_TIP) as [index|]; [|reflexivity].
  destruct (getitem lm MIDDLE_TIP) as [middle|]; [|reflexivity].
  cbn [bind]. destruct (_dist thumb index) as [di|]; [|reflexivity].
  cbn [bind]. destruct (_dist thumb middle) as [dm|]; [|reflexivity].
  cbn [bind]. unfold advance, track, classify_release.
  destruct self. cbn. destruct state0; try reflexivity.
  destruct (hysteresis idx_pinched0 di); [|reflexivity].
  destruct prev_palm0 as [[palm_x palm_y]|]; [|reflexivity].
  destruct (norm2 _ _); reflexivity.
Qed.

Lemma getitem_tip (f : Frame) (i : nat) :
  (i < List.length (frame_lm f))%nat -> getitem (frame_lm f) i = Ok (tip i f).
Proof.
  intros H. unfold getitem, tip.
  now rewrite (nth_error_nth' (frame_lm f) origin H).
Qed.

(** On a well-formed frame [update] is its arithmetic followed by
    [_payload]. *)
Lemma update_well_formed (self : GestureEngine) (f : Frame) :
  well_formed f ->
  update self (frame_lm f) (frame_clk f)
  = (di <- idx_gap f ;;
     dm <- mid_gap f ;;
     self' <- advance (sense self (tip INDEX_TIP f) di dm (now f))
                      (tracked_x f) (tracked_y f) (now f) ;;
     ev <- _payload self' (frame_lm f) (frame_clk f) ;;
     Ok (self', ev)).
Proof.
  intros Hwf. rewrite update_eq.
  unfold well_formed, MIDDLE_TIP in Hwf.
  rewrite !getitem_tip by (unfold THUMB_TIP, INDEX_TIP, MIDDLE_TIP; lia).
  reflexivity.
Qed.

Lemma update_Ok_length (self : GestureEngine) (lm : list Landmark.t)
      (clk : Clock) (r : GestureEngine * FrameEvent) :
  update self lm clk = Ok r -> (MIDDLE_TIP < List.length lm)%nat.
Proof.
  intros H. rewrite update_eq in H.
  destruct (getitem lm THUMB_TIP); cbn [bind] in H; [|discriminate].
  destruct (getitem lm INDEX_TIP); cbn [bind] in H; [|discriminate].
  destruct (getitem lm MIDDLE_TIP) as [middle|] eqn:Hm; [|discriminate].
  apply getitem_Ok_iff. eauto.
Qed.

(** [_payload] returns on a well-formed frame, with one landmark entry per
    landmark of the frame. *)
Lemma payload_fields (self : GestureEngine) (f : Frame) :
  well_formed f ->
  exists ev,
    _payload self (frame_lm f) (frame_clk f) = Ok ev
    /\ carries self ev
    /\ List.length (Payload.landmarks (Payload.tracking_data (Payload.gesture ev)))
       = List.length (frame_lm f).
Proof.
  intros Hwf. unfold _payload.
  rewrite (getitem_tip f INDEX_TIP)
    by (unfold well_formed, MIDDLE_TIP, INDEX_TIP in *; lia).
  cbn [bind]. eexists. split; [reflexivity|]. split.
  - unfold carries. cbn. repeat split.
  - cbn. rewrite length_map. generalize 0%nat.
    induction (frame_lm f) as [|l lm IH]; intros i; simpl; [reflexivity|].
    now rewrite IH.
Qed.

(** What a call that returns has computed: the frame has the three
    fingertips, both distances have returned, the state machine has returned
    the engine and [_payload] the event. *)
Lemma update_inv (self : GestureEngine) (f : Frame) (self' : GestureEngine)
      (ev : FrameEvent) :
  update self (frame_lm f) (frame_clk f) = Ok (self', ev) ->
  well_formed f
  /\ exists di dm,
       idx_gap f = Ok di /\ mid_gap f = Ok dm
       /\ advance (sense self (tip INDEX_TIP f) di dm (now f))
                  (tracked_x f) (tracked_y f) (now f) = Ok self'
       /\ _payload self' (frame_lm f) (frame_clk f) = Ok ev.
Proof.
  intros H. pose proof (update_Ok_length _ _ _ _ H) as Hwf.
  split; [exact Hwf|].
  rewrite (update_well_formed self f Hwf) in H.
  destruct (idx_gap f) as [di|]; cbn [bind] in H; [|discriminate].
  destruct (mid_gap f) as [dm|]; cbn [bind] in H; [|discriminate].
  destruct (advance _ _ _ _) as [s|] eqn:Hadv; cbn [bind] in H; [|discriminate].
  destruct (_payload s _ _) as [e|] eqn:Hpay; cbn [bind] in H; [|discriminate].
  injection H as <- <-. exists di, dm. auto.
Qed.





(** Unpack a call of [update] that has returned: names the two distances
    and leaves the equations on them, on [advance] and on [_payload]. *)
Ltac step_inv Hupd Hwf di dm Hdi Hdm Hadv Hpay :=
  destruct (update_inv _ _ _ _ Hupd) as (Hwf & di & dm & Hdi & Hdm & Hadv & Hpay).

Ltac event_fields s f Hwf e Hpay :=
  let ev := fresh "ev" in
  let H := fresh "H" in
  let Hc := fresh "Hcarries" in
  destruct (payload_fields s f Hwf) as (ev & H & Hc & _);
  rewrite H in Hpay; injection Hpay as <-.

Ltac use_carries H :=
  destruct H as (?Hty & ?Hph & ?Hconf & ?Hcur & ?Htime).

(** Split a call of [advance] on an engine given by its fields into the
    branches of the state machine. *)
Ltac crush_advance Hadv :=
  unfold track, classify_release in Hadv; cbn in Hadv;
  repeat match type of Hadv with
    | context [andb ?a _] =>
        destruct a eqn:?; cbn in Hadv
    | context [if ?c then _ else _] =>
        destruct c eqn:?; cbn in Hadv
    | context [match ?o with Some _ => _ | None => _ end] =>
        destruct o as [[? ?]|] eqn:?; cbn in Hadv
    | context [_calc_vel ?t] =>
        destruct (_calc_vel t) eqn:?; cbn in Hadv
    | context [norm2 ?a ?b] =>
        destruct (norm2 a b) eqn:?; cbn in Hadv
    end;
  try discriminate Hadv; injection Hadv as <-.

Lemma hysteresis_stays_open (d : float) :
  (d <? PINCH_DIST) = false -> hysteresis false d = false.
Proof. intros H. unfold hysteresis. now rewrite H. Qed.

Lemma hysteresis_stays_closed (d : float) :
  (PINCH_EXIT <? d) = false -> hysteresis true d = true.
Proof. intros H. unfold hysteresis. now rewrite H. Qed.

Lemma hysteresis_opens (d : float) :
  (PINCH_EXIT <? d) = true -> hysteresis true d = false.
Proof. intros H. unfold hysteresis. now rewrite H. Qed.

(** What every call that returns has done, whatever the state: cursor,
    distances, flags. *)
Lemma sensed_fields (self : GestureEngine) (f : Frame) (self' : GestureEngine)
      (ev : FrameEvent) :
  update self (frame_lm f) (frame_clk f) = Ok (self', ev) ->
  well_formed f
  /\ carries self' ev
  /\ List.length (Payload.landmarks (Payload.tracking_data (Payload.gesture ev)))
     = List.length (frame_lm f)
  /\ cursor_x self' = tracked_x f /\ cursor_y self' = tracked_y f
  /\ idx_gap f = Ok (idx_dist self') /\ mid_gap f = Ok (mid_dist self')
  /\ idx_pinched self' = hysteresis (idx_pinched self) (idx_dist self')
  /\ mid_pinched self' = hysteresis (mid_pinched self) (mid_dist self').
Proof.
  intros Hupd. step_inv Hupd Hwf di dm Hdi Hdm Hadv Hpay.
  destruct (payload_fields self' f Hwf) as (ev' & Hev & Hcarries & Hlen).
  rewrite Hev in Hpay. injection Hpay as <-.
  split; [exact Hwf|]. split; [exact Hcarries|]. split; [exact Hlen|].
  clear Hupd Hcarries Hev Hlen. rewrite Hdi, Hdm.
  unfold tracked_x, tracked_y in *.
  destruct self. cbn in Hadv. destruct state0; cbn in Hadv;
    crush_advance Hadv; cbn; auto 10.
Qed.

(** ** One call of [update], by engine state *)

Lemma idle_step (self : GestureEngine) (f : Frame) (self' : GestureEngine)
      (ev : FrameEvent) :
  update self (frame_lm f) (frame_clk f) = Ok (self', ev) ->
  state self = S_IDLE ->
  carries self' ev
  /\ _dbl_cooldown_until self' = _dbl_cooldown_until self
  /\ tap_count self' = tap_count self
  /\ dur_ms self' = dur_ms self
  /\ if mid_pinched self' then
       state self' = S_MID_PINCH
       /\ gtype self' = "double_tap" /\ gstate self' = "start"
       /\ pinch_t0 self' = now f /\ moved self' = moved self
     else if idx_pinched self' && (_dbl_cooldown_until self <? now f) then
       state self' = S_IDX_PINCH
       /\ gtype self' = "pinch_hold" /\ gstate self' = "start"
       /\ pinch_t0 self' = now f /\ moved self' = false
       /\ cum_move self' = 0.0
       /\ prev_palm self' = Some (tracked_x f, tracked_y f)
     else
       state self' = S_IDLE
       /\ gtype self' = "none" /\ gstate self' = "idle"
       /\ moved self' = moved self.
Proof.
  intros Hupd Hst. step_inv Hupd Hwf di dm Hdi Hdm Hadv Hpay.
  event_fields self' f Hwf ev Hpay.
  split; [assumption|]. clear Hupd Hcarries.
  unfold tracked_x, tracked_y in *.
  destruct self. cbn in Hst, Hadv. subst. cbn in Hadv.
  destruct (hysteresis mid_pinched0 dm) eqn:Hm; cbn in Hadv;
    [injection Hadv as <-; cbn; repeat split|].
  destruct (hysteresis idx_pinched0 di && _) eqn:Hi;
    injection Hadv as <-; cbn; cbn in Hi; rewrite ?Hi; repeat split.
Qed.

Lemma mid_step (self : GestureEngine) (f : Frame) (self' : GestureEngine)
      (ev : FrameEvent) :
  update self (frame_lm f) (frame_clk f) = Ok (self', ev) ->
  state self = S_MID_PINCH ->
  let dur_s := (now f - pinch_t0 self) * 1000 / 1000.0 in
  carries self' ev
  /\ moved self' = moved self
  /\ dur_ms self' = (now f - pinch_t0 self) * 1000
  /\ if mid_pinched self' then
       state self' = S_MID_PINCH
       /\ gtype self' = "double_tap" /\ gstate self' = "start"
       /\ tap_count self' = tap_count self
       /\ _dbl_cooldown_until self' = _dbl_cooldown_until self
     else if dur_s <? TAP_MAX_TIME then
       state self' = S_IDLE
       /\ gtype self' = "double_tap" /\ gstate self' = "end"
       /\ tap_count self' = 2%Z
       /\ _dbl_cooldown_until self' = now f + DOUBLE_TAP_COOL
     else
       state self' = S_IDLE
       /\ gtype self' = "none" /\ gstate self' = "idle"
       /\ tap_count self' = tap_count self
       /\ _dbl_cooldown_until self' = _dbl_cooldown_until self.
Proof.
  intros Hupd Hst dur_s. step_inv Hupd Hwf di dm Hdi Hdm Hadv Hpay.
  event_fields self' f Hwf ev Hpay.
  split; [assumption|]. clear Hupd Hcarries. subst dur_s.
  destruct self. cbn in Hst, Hadv |- *. subst. cbn in Hadv.
  destruct (hysteresis mid_pinched0 dm) eqn:Hm; cbn in Hadv;
    [injection Hadv as <-; cbn; repeat split|].
  destruct (_ <? TAP_MAX_TIME) eqn:Hd;
    injection Hadv as <-; cbn; repeat split.
Qed.

(** A frame on which the index channel of an index pinch stays closed. *)
Lemma held_step (self : GestureEngine) (f : Frame) (self' : GestureEngine)
      (ev : FrameEvent) :
  update self (frame_lm f) (frame_clk f) = Ok (self', ev) ->
  state self = S_IDX_PINCH ->
  idx_pinched self' = true ->
  carries self' ev
  /\ state self' = S_IDX_PINCH
  /\ pinch_t0 self' = pinch_t0 self
  /\ prev_palm self' = Some (tracked_x f, tracked_y f)
  /\ match prev_palm self with
     | Some (palm_x, palm_y) =>
         exists fm,
           norm2 (tracked_x f - palm_x) (tracked_y f - palm_y) = Ok fm
           /\ cum_move self' = cum_move self + fm
     | None => cum_move self' = cum_move self
     end
  /\ moved self' = (DRAG_DEADZONE <? cum_move self') || moved self
  /\ dur_ms self' = (now f - pinch_t0 self) * 1000
  /\ tap_count self' = tap_count self
  /\ _dbl_cooldown_until self' = _dbl_cooldown_until self
  /\ (gtype self', gstate self')
     = if moved self' then ("pinch_drag", "active")
       else if HOLD_MIN_MS <? dur_ms self' then ("pinch_hold", "active")
       else ("pinch_hold", "start").
Proof.
  intros Hupd Hst Hheld. step_inv Hupd Hwf di dm Hdi Hdm Hadv Hpay.
  event_fields self' f Hwf ev Hpay.
  split; [assumption|]. clear Hupd Hcarries.
  unfold tracked_x, tracked_y in *.
  destruct self. cbn in Hst, Hadv |- *. subst. cbn in Hadv.
  destruct (hysteresis idx_pinched0 di) eqn:Hi; cbn in Hadv.
  - unfold track in Hadv. cbn in Hadv.
    destruct (HOLD_MIN_MS <? (now f - pinch_t1) * 1000) eqn:Hhold.
    all: destruct prev_palm0 as [[palm_x palm_y]|]; cbn in Hadv.
    all: try (destruct (norm2 _ _) as [fm|] eqn:Hfm; cbn in Hadv;
              [|discriminate]).
    all: destruct (DRAG_DEADZONE <? _) eqn:Hzone; cbn in Hadv.
    all: destruct moved0; cbn in Hadv; rewrite ?Hhold in Hadv.
    all: injection Hadv as <-; cbn; rewrite ?Hzone, ?Hhold; repeat split.
    all: eauto.
  - destruct (_calc_vel _); cbn in Hadv; [|discriminate].
    injection Hadv as <-. unfold classify_release in Hheld. cbn in Hheld.
    repeat match type of Hheld with
      | context [if ?c then _ else _] => destruct c; cbn in Hheld
      end; discriminate.
Qed.

(** A frame on which the index channel of an index pinch opens. *)
Lemma release_step (self : GestureEngine) (f : Frame) (self' : GestureEngine)
      (ev : FrameEvent) :
  update self (frame_lm f) (frame_clk f) = Ok (self', ev) ->
  state self = S_IDX_PINCH ->
  idx_pinched self' = false ->
  let dur_s := (now f - pinch_t0 self) * 1000 / 1000.0 in
  _calc_vel (deque_append (_trail self) (tracked_x f, tracked_y f, now f))
  = Ok (vel self')
  /\ carries self' ev
  /\ state self' = S_IDLE
  /\ gstate self' = "end"
  /\ gtype self'
     = (if moved self && (FLICK_VELOCITY <? vel self') then "pinch_flick"
        else if (dur_s <? TAP_MAX_TIME) && negb (moved self) then "tap"
        else if moved self then "pinch_drag"
        else "pinch_hold")
  /\ (gtype self' = "tap" -> tap_count self' = 1%Z)
  /\ (gtype self' <> "tap" -> tap_count self' = tap_count self)
  /\ moved self' = false
  /\ dur_ms self' = (now f - pinch_t0 self) * 1000
  /\ _dbl_cooldown_until self' = _dbl_cooldown_until self.
Proof.
  intros Hupd Hst Hrel dur_s. step_inv Hupd Hwf di dm Hdi Hdm Hadv Hpay.
  event_fields self' f Hwf ev Hpay.
  subst dur_s. unfold tracked_x, tracked_y in *.
  destruct self. cbn in Hst, Hadv |- *. subst. cbn in Hadv.
  destruct (hysteresis idx_pinched0 di) eqn:Hi; cbn in Hadv.
  - exfalso. unfold track in Hadv. cbn in Hadv.
    destruct prev_palm0 as [[palm_x palm_y]|]; cbn in Hadv.
    all: try (destruct (norm2 _ _) as [fm|]; cbn in Hadv; [|discriminate]).
    all: destruct (DRAG_DEADZONE <? _); cbn in Hadv.
    all: destruct moved0; cbn in Hadv.
    all: try destruct (HOLD_MIN_MS <? _).
    all: injection Hadv as <-; cbn in Hrel; congruence.
  - destruct (_calc_vel _) as [v|] eqn:Hv; cbn in Hadv; [|discriminate].
    unfold classify_release in Hadv. cbn in Hadv.
    destruct moved0, (_ <? v) eqn:Hfast, (_ <? TAP_MAX_TIME) eqn:Hshort;
      cbn in Hadv; injection Hadv as <-;
      (split; [cbn; first [reflexivity|exact Hv]|]); (split; [assumption|]);
      cbn; rewrite ?Hfast, ?Hshort;
      repeat split; try reflexivity; try discriminate; try congruence.
Qed.

(** ** Runs *)

Lemma final_cons (self s : GestureEngine) (e : FrameEvent)
      (trace : list (GestureEngine * FrameEvent)) :
  final self ((s, e) :: trace) = final s trace.
Proof.
  unfold final. cbn [map fst].
  destruct trace as [|r trace]; [reflexivity|].
  change (last (s :: map fst (r :: trace)) self)
    with (last (map fst (r :: trace)) self).
  cbn [map]. apply last_nonempty.
Qed.

Lemma run_cons (self s : GestureEngine) (e : FrameEvent) (f : Frame)
      (frames : list Frame) (trace : list (GestureEngine * FrameEvent)) :
  update self (frame_lm f) (frame_clk f) = Ok (s, e) ->
  run s frames = Ok trace ->
  run self (f :: frames) = Ok ((s, e) :: trace).
Proof.
  intros Hupd Hrun. cbn [run]. rewrite Hupd. cbn [bind fst].
  now rewrite Hrun.
Qed.

(** A run that returns is made of calls that return. *)
Lemma run_cons_inv (self : GestureEngine) (f : Frame) (frames : list Frame)
      (trace : list (GestureEngine * FrameEvent)) :
  run self (f :: frames) = Ok trace ->
  exists s e rest,
    trace = (s, e) :: rest
    /\ update self (frame_lm f) (frame_clk f) = Ok (s, e)
    /\ run s frames = Ok rest.
Proof.
  cbn [run]. intros H.
  destruct (update self (frame_lm f) (frame_clk f)) as [[s e]|] eqn:Hupd;
    cbn [bind fst] in H; [|discriminate].
  destruct (run s frames) as [rest|] eqn:Hrun; cbn [bind] in H;
    [|discriminate].
  injection H as <-. exists s, e, rest. auto.
Qed.

Lemma run_length (frames : list Frame) :
  forall self trace,
    run self frames = Ok trace -> List.length trace = List.length frames.
Proof.
  induction frames as [|f frames IH]; intros self trace H.
  - cbn in H. now injection H as <-.
  - destruct (run_cons_inv _ _ _ _ H) as (s & e & rest & -> & _ & Hrun).
    cbn. now rewrite (IH _ _ Hrun).
Qed.

Lemma run_app_inv (a b : list Frame) :
  forall self trace,
    run self (a ++ b)%list = Ok trace ->
    exists ta tb,
      trace = (ta ++ tb)%list
      /\ run self a = Ok ta
      /\ run (final self ta) b = Ok tb.
Proof.
  induction a as [|f a IH]; intros self trace H.
  - exists [], trace. auto.
  - change ((f :: a) ++ b)%list with (f :: (a ++ b))%list in H.
    destruct (run_cons_inv _ _ _ _ H) as (s & e & rest & -> & Hupd & Hrun).
    destruct (IH _ _ Hrun) as (ta & tb & -> & Ha & Hb).
    exists ((s, e) :: ta), tb. split; [reflexivity|].
    split; [exact (run_cons _ _ _ _ _ _ Hupd Ha)|].
    now rewrite final_cons.
Qed.

(** A run that ends with one more frame. *)
Lemma run_snoc_inv (a : list Frame) (f : Frame) (self : GestureEngine)
      (trace : list (GestureEngine * FrameEvent)) (s : GestureEngine)
      (e : FrameEvent) :
  run self (a ++ [f])%list = Ok (trace ++ [(s, e)])%list ->
  run self a = Ok trace
  /\ update (final self trace) (frame_lm f) (frame_clk f) = Ok (s, e).
Proof.
  intros H. destruct (run_app_inv _ _ _ _ H) as (ta & tb & Heq & Ha & Hb).
  destruct (run_cons_inv _ _ _ _ Hb) as (s' & e' & rest & -> & Hupd & Hnil).
  cbn in Hnil. injection Hnil as <-.
  apply app_inj_tail in Heq as [-> Hlast]. injection Hlast as -> ->.
  auto.
Qed.

(** A property kept by every call that returns is kept along a run that
    returns, and what every such call establishes holds at every frame of
    the run. *)
Lemma run_invariant (Inv : GestureEngine -> Prop)
      (Post : Frame -> GestureEngine * FrameEvent -> Prop) :
  (forall self f self' ev,
      update self (frame_lm f) (frame_clk f) = Ok (self', ev) ->
      Inv self -> Inv self' /\ Post f (self', ev)) ->
  forall frames self trace,
    run self frames = Ok trace ->
    Inv self ->
    Forall2 Post frames trace /\ Inv (final self trace).
Proof.
  intros Hstep. induction frames as [|f frames IH]; intros self trace H Hinv.
  - cbn in H. injection H as <-. split; [constructor|exact Hinv].
  - destruct (run_cons_inv _ _ _ _ H) as (s & e & rest & -> & Hupd & Hrun).
    destruct (Hstep _ _ _ _ Hupd Hinv) as (Hinv' & Hpost).
    destruct (IH _ _ Hrun Hinv') as (Hall & Hfin).
    split; [constructor; assumption|]. now rewrite final_cons.
Qed.

Lemma Forall2_right {A B : Type} (P : B -> Prop) (l : list A) (l' : list B) :
  Forall2 (fun _ b => P b) l l' -> Forall P l'.
Proof. induction 1; constructor; assumption. Qed.

(** ** C1: classification at index-pinch release *)

(** C1. On a call of [update] that returns: when the index channel opens
    during an index pinch, the velocity of the engine is what [_calc_vel]
    returns on the trail with the sample of this frame, and the
    classification is decided in this order: flick if the pinch has moved and
    the velocity exceeds [FLICK_VELOCITY], whatever the duration; else tap if
    the duration is below [TAP_MAX_TIME] and the pinch has not moved; else
    drag-end if it has moved; else hold-end. The phase is "end", the event
    carries the classification, and the engine is back in [S_IDLE]. *)
Theorem index_release_classification (self : GestureEngine) (f : Frame)
        (self' : GestureEngine) (ev : FrameEvent) :
  update self (frame_lm f) (frame_clk f) = Ok (self', ev) ->
  state self = S_IDX_PINCH ->
  idx_pinched self' = false ->
  let dur_s := (now f - pinch_t0 self) * 1000 / 1000.0 in
  _calc_vel (deque_append (_trail self) (tracked_x f, tracked_y f, now f))
  = Ok (vel self')
  /\ state self' = S_IDLE
  /\ gstate self' = "end"
  /\ gtype self'
     = (if moved self && (FLICK_VELOCITY <? vel self') then "pinch_flick"
        else if (dur_s <? TAP_MAX_TIME) && negb (moved self) then "tap"
        else if moved self then "pinch_drag"
        else "pinch_hold")
  /\ (moved self = true -> (FLICK_VELOCITY <? vel self') = true ->
      gtype self' = "pinch_flick" /\ gtype self' <> "pinch_drag")
  /\ Payload.type (Payload.gesture ev) = gtype self'
  /\ Payload.state (Payload.gesture ev) = gstate self'.
Proof.
  intros Hupd Hst Hrel dur_s.
  destruct (release_step self f self' ev Hupd Hst Hrel)
    as (Hv & Hcarries & Hidle & Hend & Hcls & _).
  use_carries Hcarries.
  repeat (split; [assumption|]).
  split; [|split; assumption].
  intros Hmoved Hfast. rewrite Hcls, Hmoved, Hfast.
  split; [reflexivity|discriminate].
Qed.

(** ** C4: the middle pinch *)

(** C4. On a call of [update] that returns: from [S_IDLE] a pinched middle
    channel enters [S_MID_PINCH] with (double_tap, start), whatever the index
    channel does in that frame. When the middle channel opens, a duration
    below [TAP_MAX_TIME] gives (double_tap, end) with [tap_count = 2] and the
    cooldown deadline [now + DOUBLE_TAP_COOL]; a duration of [TAP_MAX_TIME]
    or more gives (none, idle) and leaves the deadline alone. Both return to
    [S_IDLE]. *)
Theorem middle_pinch_double_tap (self : GestureEngine) (f : Frame)
        (self' : GestureEngine) (ev : FrameEvent) :
  update self (frame_lm f) (frame_clk f) = Ok (self', ev) ->
  let dur_s := (now f - pinch_t0 self) * 1000 / 1000.0 in
  Payload.type (Payload.gesture ev) = gtype self'
  /\ Payload.state (Payload.gesture ev) = gstate self'
  /\ (state self = S_IDLE -> mid_pinched self' = true ->
      state self' = S_MID_PINCH
      /\ gtype self' = "double_tap" /\ gstate self' = "start"
      /\ pinch_t0 self' = now f)
  /\ (state self = S_MID_PINCH -> mid_pinched self' = false ->
      (dur_s <? TAP_MAX_TIME) = true ->
      state self' = S_IDLE
      /\ gtype self' = "double_tap" /\ gstate self' = "end"
      /\ tap_count self' = 2%Z
      /\ _dbl_cooldown_until self' = now f + DOUBLE_TAP_COOL)
  /\ (state self = S_MID_PINCH -> mid_pinched self' = false ->
      (TAP_MAX_TIME <=? dur_s) = true ->
      state self' = S_IDLE
      /\ gtype self' = "none" /\ gstate self' = "idle"
      /\ tap_count self' = tap_count self
      /\ _dbl_cooldown_until self' = _dbl_cooldown_until self).
Proof.
  intros Hupd dur_s. subst dur_s.
  destruct (sensed_fields self f self' ev Hupd) as (_ & Hcarries & _).
  use_carries Hcarries.
  repeat (split; [assumption|]).
  split; [|split].
  - intros Hst Hp.
    destruct (idle_step self f self' ev Hupd Hst) as (_ & _ & _ & _ & Hcase).
    rewrite Hp in Hcase. destruct Hcase as (? & ? & ? & ? & _). auto.
  - intros Hst Hp Hd.
    destruct (mid_step self f self' ev Hupd Hst) as (_ & _ & _ & Hcase).
    rewrite Hp, Hd in Hcase. exact Hcase.
  - intros Hst Hp Hd.
    destruct (mid_step self f self' ev Hupd Hst) as (_ & _ & _ & Hcase).
    rewrite Hp, (leb_not_gt _ _ Hd) in Hcase. exact Hcase.
Qed.

(** ** C2: ghost suppression after a double tap *)

(** Through a cooldown window the engine stays idle, whatever the index
    channel does. *)
Lemma quiet_run (deadline : float) (during : list Frame) :
  forall self trace,
    run self during = Ok trace ->
    state self = S_IDLE ->
    _dbl_cooldown_until self = deadline ->
    Forall2 (fun h r => mid_pinched (fst r) = false
                        /\ (now h <=? deadline) = true) during trace ->
    Forall reports_idle trace
    /\ state (final self trace) = S_IDLE
    /\ _dbl_cooldown_until (final self trace) = deadline.
Proof.
  induction during as [|f during IH]; intros self trace Hrun Hst Hcd Hq.
  - cbn in Hrun. injection Hrun as <-. cbn. auto.
  - destruct (run_cons_inv _ _ _ _ Hrun) as (s & e & rest & -> & Hupd & Hrest).
    inversion Hq as [|? ? ? ? (Hmid & Hnow) Hq']; subst. cbn [fst] in Hmid.
    destruct (idle_step self f s e Hupd Hst)
      as (Hcarries & Hcd' & _ & _ & Hcase).
    use_carries Hcarries.
    rewrite Hmid in Hcase.
    rewrite (leb_not_gt _ _ Hnow), andb_false_r in Hcase.
    destruct Hcase as (Hs & Hg & Hp & _).
    destruct (IH s rest Hrest Hs Hcd' Hq') as (Hall & Hfin).
    split.
    + constructor; [|exact Hall].
      unfold reports_idle. cbn [fst snd]. rewrite Hty, Hph. auto.
    + rewrite final_cons. exact Hfin.
Qed.

(** C2, amended. For calls of [update] that return: a middle pinch released
    after less than [TAP_MAX_TIME] at time [t] is a double tap and sets the
    deadline [t + DOUBLE_TAP_COOL]. From there, through any frames that
    leave the middle channel open and whose clock has not passed the
    deadline ([now <= deadline]), the engine stays in [S_IDLE] and emits
    (none, idle), index pinches included. On the next frame that leaves the
    middle channel open the engine enters [S_IDX_PINCH] with
    (pinch_hold, start) exactly when the index channel is pinched and
    [now > deadline]; otherwise it stays idle. And whatever the channels do,
    no call made in [S_IDLE] with [now] at or before the deadline in force
    enters [S_IDX_PINCH]. *)
Theorem cooldown_gate (self : GestureEngine) (f : Frame)
        (released : GestureEngine) (ev : FrameEvent)
        (during : list Frame) (trace : list (GestureEngine * FrameEvent))
        (g : Frame) (self' : GestureEngine) (ev' : FrameEvent) :
  update self (frame_lm f) (frame_clk f) = Ok (released, ev) ->
  state self = S_MID_PINCH ->
  mid_pinched released = false ->
  ((now f - pinch_t0 self) * 1000 / 1000.0 <? TAP_MAX_TIME) = true ->
  let deadline := now f + DOUBLE_TAP_COOL in
  run released during = Ok trace ->
  Forall2 (fun h r => mid_pinched (fst r) = false
                      /\ (now h <=? deadline) = true) during trace ->
  update (final released trace) (frame_lm g) (frame_clk g) = Ok (self', ev') ->
  mid_pinched self' = false ->
  gtype released = "double_tap" /\ gstate released = "end"
  /\ _dbl_cooldown_until released = deadline
  /\ Forall reports_idle trace
  /\ Payload.type (Payload.gesture ev') = gtype self'
  /\ Payload.state (Payload.gesture ev') = gstate self'
  /\ (if idx_pinched self' && (deadline <? now g)
      then state self' = S_IDX_PINCH
           /\ gtype self' = "pinch_hold" /\ gstate self' = "start"
      else state self' = S_IDLE
           /\ gtype self' = "none" /\ gstate self' = "idle")
  /\ (forall (idling : GestureEngine) (h : Frame) (after : GestureEngine)
             (ev'' : FrameEvent),
         update idling (frame_lm h) (frame_clk h) = Ok (after, ev'') ->
         state idling = S_IDLE ->
         (now h <=? _dbl_cooldown_until idling) = true ->
         state after <> S_IDX_PINCH).
Proof.
  intros Hupd Hst Hrel Hdur deadline Hrun Hq Hupd' Hopen.
  destruct (mid_step self f released ev Hupd Hst) as (_ & _ & _ & Hcase).
  rewrite Hrel, Hdur in Hcase.
  destruct Hcase as (Hidle & Hty & Hph & _ & Hcd).
  destruct (quiet_run deadline during released trace Hrun Hidle Hcd Hq)
    as (Hall & Hfs & Hfc).
  destruct (idle_step (final released trace) g self' ev' Hupd' Hfs)
    as (Hcarries & _ & _ & _ & Hcase).
  use_carries Hcarries.
  rewrite Hopen, Hfc in Hcase.
  repeat (split; [assumption|]).
  split.
  - destruct (_ && _); destruct Hcase as (H1 & H2 & H3 & _); auto.
  - intros idling h after ev'' Hupd'' Hidling Hveto.
    destruct (idle_step idling h after ev'' Hupd'' Hidling)
      as (_ & _ & _ & _ & Hcase'').
    rewrite (leb_not_gt _ _ Hveto), andb_false_r in Hcase''.
    destruct (mid_pinched after);
      destruct Hcase'' as (Hs & _); rewrite Hs; discriminate.
Qed.

(** ** C3: the tap law *)

(** While the index channel stays closed and the displacement accumulated
    by the engine stays below the deadzone, the pinch is tracked and never
    counts as moved. *)
Lemma still_run (held : list Frame) :
  forall self trace,
    run self held = Ok trace ->
    state self = S_IDX_PINCH ->
    moved self = false ->
    Forall (fun r => idx_pinched (fst r) = true
                     /\ below_deadzone (cum_move (fst r))) trace ->
    Forall pinching trace
    /\ state (final self trace) = S_IDX_PINCH
    /\ moved (final self trace) = false
    /\ pinch_t0 (final self trace) = pinch_t0 self
    /\ tap_count (final self trace) = tap_count self.
Proof.
  induction held as [|f held IH]; intros self trace Hrun Hst Hmv Hh.
  - cbn in Hrun. injection Hrun as <-. cbn. repeat split; auto.
  - destruct (run_cons_inv _ _ _ _ Hrun) as (s & e & rest & -> & Hupd & Hrest).
    inversion Hh as [|? ? (Hi & Hsmall) Hh']; subst. cbn [fst] in Hi, Hsmall.
    destruct (held_step self f s e Hupd Hst Hi)
      as (_ & Hs & Ht0 & _ & _ & Hm & _ & Htc & _).
    unfold below_deadzone in Hsmall.
    rewrite Hmv, (ltb_asym _ _ Hsmall) in Hm. cbn [orb] in Hm.
    destruct (IH s rest Hrest Hs Hm Hh') as (Hall & Hfs & Hfm & Hft & Hfc).
    split; [constructor; [exact Hs|exact Hall]|].
    rewrite final_cons. repeat split; try assumption; congruence.
Qed.

(** The three phases of a pinch that is entered on [f0], held over [held]
    and released on [fr]: the engine on entry, the engine before the
    release, and the release. *)
Lemma pinch_phases (self : GestureEngine) (f0 : Frame) (held : list Frame)
      (fr : Frame) (r0 : GestureEngine * FrameEvent)
      (trace : list (GestureEngine * FrameEvent)) (self' : GestureEngine)
      (ev : FrameEvent) :
  run self (f0 :: held ++ [fr])%list = Ok (r0 :: trace ++ [(self', ev)])%list ->
  update self (frame_lm f0) (frame_clk f0) = Ok r0
  /\ run (fst r0) held = Ok trace
  /\ update (final (fst r0) trace) (frame_lm fr) (frame_clk fr)
     = Ok (self', ev).
Proof.
  intros Hrun.
  destruct (run_cons_inv _ _ _ _ Hrun) as (s & e & rest & Heq & Hupd & Hrest).
  injection Heq as -> <-. cbn [fst].
  destruct (run_snoc_inv _ _ _ _ _ _ Hrest) as (Hheld & Hrel). auto.
Qed.


(** ** C5: sticky drag *)

(** A pinch that has moved stays a drag for as long as the index channel
    stays closed, whatever the tracked point does. *)
Lemma drag_run (held : list Frame) :
  forall self trace,
    run self held = Ok trace ->
    state self = S_IDX_PINCH ->
    moved self = true ->
    Forall (fun r => idx_pinched (fst r) = true) trace ->
    Forall dragging trace.
Proof.
  induction held as [|f held IH]; intros self trace Hrun Hst Hmv Hh.
  - cbn in Hrun. injection Hrun as <-. constructor.
  - destruct (run_cons_inv _ _ _ _ Hrun) as (s & e & rest & -> & Hupd & Hrest).
    inversion Hh as [|? ? Hi Hh']; subst. cbn [fst] in Hi.
    destruct (held_step self f s e Hupd Hst Hi)
      as (Hcarries & Hs & _ & _ & _ & Hm & _ & _ & _ & Hcls).
    use_carries Hcarries.
    rewrite Hmv, orb_true_r in Hm. rewrite Hm in Hcls.
    injection Hcls as Hg Hp.
    constructor; [|exact (IH s rest Hrest Hs Hm Hh')].
    unfold dragging. cbn [fst snd]. rewrite Hty, Hph. auto 10.
Qed.

(** C5. For calls of [update] that return, during an index pinch: a frame
    that keeps the index channel closed and brings the accumulated
    displacement above [DRAG_DEADZONE] sets [moved] and classifies
    (pinch_drag, active); once [moved] is set, every later frame that keeps
    the channel closed keeps it set and classifies (pinch_drag, active), with
    no condition on the displacement of those frames; and a call takes
    [moved] from true to false only when it ends an index pinch or enters a
    new one. *)
Theorem sticky_drag :
  (forall (self : GestureEngine) (f : Frame) (self' : GestureEngine)
          (ev : FrameEvent),
      update self (frame_lm f) (frame_clk f) = Ok (self', ev) ->
      state self = S_IDX_PINCH ->
      idx_pinched self' = true ->
      (DRAG_DEADZONE <? cum_move self') = true ->
      moved self' = true
      /\ gtype self' = "pinch_drag" /\ gstate self' = "active"
      /\ event_class ev = ("pinch_drag", "active"))
  /\ (forall (self : GestureEngine) (held : list Frame)
             (trace : list (GestureEngine * FrameEvent)),
         run self held = Ok trace ->
         state self = S_IDX_PINCH ->
         moved self = true ->
         Forall (fun r => idx_pinched (fst r) = true) trace ->
         Forall dragging trace)
  /\ (forall (self self' : GestureEngine) (lm : list Landmark.t) (clk : Clock)
             (ev : FrameEvent),
         update self lm clk = Ok (self', ev) ->
         moved self = true ->
         moved self' = false ->
         (state self = S_IDX_PINCH /\ state self' = S_IDLE)
         \/ (state self = S_IDLE /\ state self' = S_IDX_PINCH)).
Proof.
  split; [|split].
  - intros self f self' ev Hupd Hst Hheld Hfar.
    destruct (held_step self f self' ev Hupd Hst Hheld)
      as (Hcarries & _ & _ & _ & _ & Hm & _ & _ & _ & Hcls).
    use_carries Hcarries.
    rewrite Hfar in Hm. cbn [orb] in Hm.
    rewrite Hm in Hcls. injection Hcls as Hg Hp.
    unfold event_class. rewrite Hty, Hph, Hg, Hp. auto.
  - intros self held trace Hrun Hst Hmv Hall.
    exact (drag_run held self trace Hrun Hst Hmv Hall).
  - intros self self' lm clk ev Hupd Hmv Hmv'.
    set (f := {| frame_lm := lm; frame_clk := clk |}).
    change (update self (frame_lm f) (frame_clk f) = Ok (self', ev)) in Hupd.
    destruct (state self) eqn:Hst.
    + destruct (idle_step self f self' ev Hupd Hst) as (_ & _ & _ & _ & Hcase).
      destruct (mid_pinched self').
      * destruct Hcase as (_ & _ & _ & _ & Hm). congruence.
      * destruct (_ && _).
        -- right. split; [reflexivity|]. apply Hcase.
        -- destruct Hcase as (_ & _ & _ & Hm). congruence.
    + destruct (idx_pinched self') eqn:Hheld.
      * destruct (held_step self f self' ev Hupd Hst Hheld)
          as (_ & _ & _ & _ & _ & Hm & _).
        rewrite Hmv, orb_true_r in Hm. congruence.
      * destruct (release_step self f self' ev Hupd Hst Hheld)
          as (_ & _ & Hidle & _).
        left. auto.
    + destruct (mid_step self f self' ev Hupd Hst) as (_ & Hm & _).
      congruence.
Qed.

(** ** C6: hysteresis *)

Lemma consistent_after (pinched : bool) (d : float) :
  consistent (hysteresis pinched d) d.
Proof.
  split; intros H.
  - exact (hysteresis_below _ _ H).
  - destruct (below_enter d) eqn:E.
    + rewrite (below_enter_not_above_exit _ E) in H. discriminate.
    + rewrite (hysteresis_not_below _ _ E), H. now destruct pinched.
Qed.

(** On a falling run a closed flag stays closed and an open one closes at
    most once. *)
Lemma changes_falling (ds : list float) :
  forall a pinched,
    nonincreasing (a :: ds) = true ->
    consistent pinched a ->
    (changes pinched ds <= if pinched then 0 else 1)%nat.
Proof.
  induction ds as [|b ds IH]; intros a pinched Hfall [Hlo Hhi].
  - destruct pinched; simpl; lia.
  - change (nonincreasing (a :: b :: ds))
      with ((b <=? a) && nonincreasing (b :: ds)) in Hfall.
    apply andb_prop in Hfall as [Hba Hfall].
    specialize (IH b (hysteresis pinched b) Hfall (consistent_after _ _)).
    cbn [changes]. destruct pinched.
    + assert (above_exit b = false) as Hb.
      { destruct (above_exit b) eqn:E; [|reflexivity].
        assert (above_exit a = true) as Ha
          by exact (ltb_leb_trans _ _ _ E Hba).
        specialize (Hhi Ha). discriminate. }
      destruct (below_enter b) eqn:E.
      * rewrite (hysteresis_below _ _ E) in *. simpl. lia.
      * rewrite (hysteresis_not_below _ _ E), Hb in *. simpl in *. lia.
    + destruct (hysteresis false b); simpl in *; lia.
Qed.

(** On a run that rises and then falls, a closed flag opens at most once and
    closes again at most once; an open one closes at most once. *)
Lemma changes_rising (ds : list float) :
  forall a pinched,
    rises_then_falls (a :: ds) = true ->
    consistent pinched a ->
    (changes pinched ds <= if pinched then 2 else 1)%nat.
Proof.
  induction ds as [|b ds IH]; intros a pinched Hshape Hcons.
  - destruct pinched; simpl; lia.
  - change (rises_then_falls (a :: b :: ds))
      with (((a <=? b) && rises_then_falls (b :: ds))
            || nonincreasing (a :: b :: ds)) in Hshape.
    apply orb_prop in Hshape as [Hrise|Hfall].
    + apply andb_prop in Hrise as [Hab Hshape].
      specialize (IH b (hysteresis pinched b) Hshape (consistent_after _ _)).
      cbn [changes]. destruct pinched.
      * destruct (hysteresis true b); simpl in *; lia.
      * assert (below_enter b = false) as Hb.
        { destruct (below_enter b) eqn:E; [|reflexivity].
          assert (below_enter a = true) as Ha
            by exact (leb_ltb_trans _ _ _ Hab E).
          destruct Hcons as [Hlo _]. specialize (Hlo Ha). discriminate. }
        rewrite (hysteresis_not_below _ _ Hb) in *. simpl in *. lia.
    + pose proof (changes_falling (b :: ds) a pinched Hfall Hcons).
      destruct pinched; lia.
Qed.

(** C6. The flag of a channel is a function of its previous value and the
    distance: an open flag closes exactly when the distance is below
    [PINCH_DIST], a closed one opens exactly when it is above [PINCH_EXIT],
    and a call of [update] that returns has applied this function to both
    channels, with the distances [_dist] has returned for the frame.
    Consequently: on distances that rise and then fall and cross each
    threshold once, the flag changes at most twice, whatever its initial
    value; and on any distances that rise and then fall, the flags produced
    from the first sample on change at most twice. *)
Theorem hysteresis_flag :
  (forall d : float,
      hysteresis false d = true <-> (d <? PINCH_DIST) = true)
  /\ (forall d : float,
         hysteresis true d = false <-> (PINCH_EXIT <? d) = true)
  /\ (forall (self : GestureEngine) (f : Frame) (self' : GestureEngine)
             (ev : FrameEvent),
         update self (frame_lm f) (frame_clk f) = Ok (self', ev) ->
         _dist (tip THUMB_TIP f) (tip INDEX_TIP f) = Ok (idx_dist self')
         /\ _dist (tip THUMB_TIP f) (tip MIDDLE_TIP f) = Ok (mid_dist self')
         /\ idx_pinched self' = hysteresis (idx_pinched self) (idx_dist self')
         /\ mid_pinched self' = hysteresis (mid_pinched self) (mid_dist self'))
  /\ (forall (pinched : bool) (ds : list float),
         rises_then_falls ds = true ->
         crossings below_enter ds = 1%nat ->
         crossings above_exit ds = 1%nat ->
         (changes pinched ds <= 2)%nat)
  /\ (forall (pinched : bool) (d : float) (ds : list float),
         rises_then_falls (d :: ds) = true ->
         (changes (hysteresis pinched d) ds <= 2)%nat).
Proof.
  split; [|split; [|split; [|split]]].
  - intros d. unfold hysteresis. cbn [negb andb].
    destruct (d <? PINCH_DIST); split; congruence.
  - intros d. unfold hysteresis. cbn [negb andb].
    destruct (PINCH_EXIT <? d); split; congruence.
  - intros self f self' ev Hupd.
    destruct (sensed_fields self f self' ev Hupd)
      as (_ & _ & _ & _ & _ & H1 & H2 & H3 & H4).
    auto.
  - intros pinched ds _ Hlo _. apply changes_le_2. lia.
  - intros pinched d ds Hshape.
    pose proof (changes_rising ds d _ Hshape (consistent_after pinched d)).
    destruct (hysteresis pinched d); lia.
Qed.

(** ** C8: the event of every frame *)


(** ** C9: malformed landmark lists *)


(** ** C10: stale timing fields *)

(** C10. Along a run of [update] that returns, from an idle engine, as after
    a completed gesture: for as long as the engine has stayed in [S_IDLE],
    every frame leaves [tap_count] and [dur_ms] as they were, and its event
    reports them (the duration rounded to one decimal), whatever
    classification it carries. This includes the frame on which a new pinch
    is entered. *)
Theorem timing_persists (self : GestureEngine) (frames : list Frame)
        (trace : list (GestureEngine * FrameEvent)) :
  run self frames = Ok trace ->
  state self = S_IDLE ->
  forall before r after,
    trace = (before ++ r :: after)%list ->
    Forall idle before ->
    tap_count (fst r) = tap_count self
    /\ dur_ms (fst r) = dur_ms self
    /\ reports_timing_of self (snd r).
Proof.
  revert self trace.
  induction frames as [|f frames IH]; intros self trace Hrun Hst.
  - cbn in Hrun. injection Hrun as <-.
    intros [|? ?] r after H; discriminate.
  - destruct (run_cons_inv _ _ _ _ Hrun) as (s & e & rest & -> & Hupd & Hrest).
    destruct (idle_step self f s e Hupd Hst)
      as (Hcarries & _ & Htc & Hdur & _).
    use_carries Hcarries.
    intros before r after Heq Hidle.
    destruct before as [|r0 before].
    + injection Heq as <- _. cbn [fst snd].
      unfold reports_timing_of. rewrite Htime, Htc, Hdur. auto.
    + injection Heq as <- ->.
      inversion Hidle as [|? ? Hs Hidle']; subst.
      destruct (IH s _ Hrest Hs before r after eq_refl Hidle') as (H1 & H2 & H3).
      unfold reports_timing_of in *. rewrite H1, H2, H3, Htc, Hdur. auto.
Qed.

(** * Further properties of the engine *)

Lemma payload_is_pinched (self : GestureEngine) (f : Frame) (ev : FrameEvent) :
  _payload self (frame_lm f) (frame_clk f) = Ok ev ->
  event_is_pinched ev = idx_pinched self || mid_pinched self.
Proof.
  unfold _payload. destruct (getitem (frame_lm f) INDEX_TIP); cbn [bind];
    [|discriminate].
  intros H. injection H as <-. reflexivity.
Qed.

Lemma coherent_step (self : GestureEngine) (f : Frame) (self' : GestureEngine)
      (ev : FrameEvent) :
  update self (frame_lm f) (frame_clk f) = Ok (self', ev) ->
  coherent self ->
  coherent self'
  /\ (state self' <> S_IDLE -> event_is_pinched ev = true).
Proof.
  intros Hupd Hco. step_inv Hupd Hwf di dm Hdi Hdm Hadv Hpay.
  rewrite (payload_is_pinched _ _ _ Hpay). clear Hpay Hupd.
  unfold coherent in *. destruct self. cbn in Hco.
  destruct state0; cbn in Hadv.
  - destruct Hco as (-> & -> & ->).
    crush_advance Hadv; cbn; repeat split; eauto using orb_true_r;
      try congruence; intros _; now rewrite ?orb_false_r.
  - destruct Hco as (-> & [[px py] ->]).
    crush_advance Hadv; cbn; repeat split; eauto; congruence.
  - destruct Hco as (-> & -> & -> & ->).
    crush_advance Hadv; cbn; repeat split; eauto using orb_true_r; congruence.
Qed.

(** X1. The engine's states are coherent: along a run of [update] that
    returns, started from a coherent engine (the initial one is), every call
    leaves a coherent engine, and whenever the engine is left in a pinch
    state the event says [is_pinched]. *)
Theorem engine_coherent (self : GestureEngine) (frames : list Frame)
        (trace : list (GestureEngine * FrameEvent)) :
  run self frames = Ok trace ->
  coherent self ->
  Forall (fun r => coherent (fst r)
                   /\ (state (fst r) <> S_IDLE ->
                       event_is_pinched (snd r) = true)) trace.
Proof.
  intros Hrun Hco.
  destruct (run_invariant coherent
              (fun _ r => coherent (fst r)
                          /\ (state (fst r) <> S_IDLE ->
                              event_is_pinched (snd r) = true)))
    with (frames := frames) (self := self) (trace := trace)
    as (Hall & _); try assumption.
  - intros s f s' e Hupd Hs.
    destruct (coherent_step s f s' e Hupd Hs) as (Hco' & Hp). auto.
  - exact (Forall2_right _ _ _ Hall).
Qed.

(** ** The velocity trail *)

Lemma deque_append_length (q : list Sample) (v : Sample) :
  (List.length q <= 12)%nat ->
  (1 <= List.length (deque_append q v) <= 12)%nat.
Proof.
  intros H. unfold deque_append.
  destruct (Nat.leb_spec 12 (List.length q)).
  - rewrite length_app. destruct q; simpl in *; lia.
  - rewrite length_app. simpl. lia.
Qed.

Lemma deque_append_last (q : list Sample) (v d : Sample) :
  last (deque_append q v) d = v.
Proof. unfold deque_append. destruct (_ <=? _)%nat; apply last_last. Qed.

Lemma trail_step (self : GestureEngine) (f : Frame) (self' : GestureEngine)
      (ev : FrameEvent) :
  update self (frame_lm f) (frame_clk f) = Ok (self', ev) ->
  (List.length (_trail self) <= 12)%nat ->
  (List.length (_trail self') <= 12)%nat
  /\ trail_bounded self'
  /\ last (_trail self') (0, 0, 0) = (tracked_x f, tracked_y f, now f).
Proof.
  intros Hupd Hlen. step_inv Hupd Hwf di dm Hdi Hdm Hadv Hpay.
  clear Hpay Hupd. unfold trail_bounded.
  pose proof (deque_append_length (_trail self)
                (tracked_x f, tracked_y f, now f) Hlen) as Hb.
  pose proof (deque_append_length []
                (tracked_x f, tracked_y f, now f) ltac:(simpl; lia)) as Hb0.
  destruct self. cbn in Hb, Hadv. destruct state0; cbn in Hadv;
    crush_advance Hadv; cbn; rewrite ?deque_append_last;
    unfold tracked_x, tracked_y in *;
    repeat split; try reflexivity; lia.
Qed.

(** X2. The velocity trail is a bounded window: along a run of [update]
    that returns, from an engine whose trail holds at most 12 samples (the
    initial trail is empty), after every call the trail holds between 1 and
    12 samples and its newest sample is the index fingertip and clock of
    that frame. *)
Theorem trail_window (self : GestureEngine) (frames : list Frame)
        (trace : list (GestureEngine * FrameEvent)) :
  run self frames = Ok trace ->
  (List.length (_trail self) <= 12)%nat ->
  Forall2 (fun f r =>
             trail_bounded (fst r)
             /\ last (_trail (fst r)) (0, 0, 0)
                = (tracked_x f, tracked_y f, now f)) frames trace.
Proof.
  intros Hrun Hlen.
  destruct (run_invariant
              (fun s => (List.length (_trail s) <= 12)%nat)
              (fun f r =>
                 trail_bounded (fst r)
                 /\ last (_trail (fst r)) (0, 0, 0)
                    = (tracked_x f, tracked_y f, now f)))
    with (frames := frames) (self := self) (trace := trace)
    as (Hall & _); try assumption.
  intros s f s' e Hupd Hs.
  destruct (trail_step s f s' e Hupd Hs) as (H1 & H2). auto.
Qed.

(** ** The transition table *)

Lemma event_class_carries (self : GestureEngine) (ev : FrameEvent) :
  carries self ev -> event_class ev = (gtype self, gstate self).
Proof. intros (Hty & Hph & _). unfold event_class. now rewrite Hty, Hph. Qed.

Ltac in_table := cbn; repeat (first [left; reflexivity | right]).

Lemma transition_step (self : GestureEngine) (f : Frame)
      (self' : GestureEngine) (ev : FrameEvent) :
  update self (frame_lm f) (frame_clk f) = Ok (self', ev) ->
  event_class ev = (gtype self', gstate self')
  /\ In (state self, state self', (gtype self', gstate self')) transitions.
Proof.
  intros Hupd. step_inv Hupd Hwf di dm Hdi Hdm Hadv Hpay.
  event_fields self' f Hwf ev Hpay.
  split; [now apply event_class_carries|]. clear Hupd Hcarries.
  destruct self. cbn in Hadv. destruct state0; cbn in Hadv;
    crush_advance Hadv; in_table.
Qed.

(** X3. The state machine has thirteen transitions and no others: every
    call of [update] that returns has moved the engine along one row of the
    table [transitions], which lists the state before, the state after and
    the type and phase of the event returned. *)
Theorem transition_table (self : GestureEngine) (f : Frame)
        (self' : GestureEngine) (ev : FrameEvent) :
  update self (frame_lm f) (frame_clk f) = Ok (self', ev) ->
  In (state self, state self', event_class ev) transitions.
Proof.
  intros Hupd.
  destruct (transition_step self f self' ev Hupd) as (Hev & Hin).
  now rewrite Hev.
Qed.

Lemma end_row (a b : EngineState) (ty : string) :
  In (a, b, (ty, "end")) transitions -> b = S_IDLE.
Proof.
  cbn. intros H.
  repeat (destruct H as [H|H]; [injection H as <- <- <-; try reflexivity; discriminate|]);
  try (repeat (destruct H as [H|H]; [congruence|])); try contradiction.
Qed.

Lemma idle_rows (b : EngineState) (ty ph : string) :
  In (S_IDLE, b, (ty, ph)) transitions ->
  (ty, ph) = ("none", "idle")
  \/ (ty, ph) = ("double_tap", "start")
  \/ (ty, ph) = ("pinch_hold", "start").
Proof.
  cbn. intros H.
  repeat (destruct H as [H|H];
          [try discriminate H; injection H as <- <- <-; tauto|]).
  contradiction.
Qed.

(** X4. A completed gesture is reported once: after a call that returns an
    event in phase [end] the engine is idle, and the next call, if it
    returns, returns an idle event or the start of a new pinch, never
    another [end]. *)
Theorem end_reported_once (self : GestureEngine) (f g : Frame)
        (s1 : GestureEngine) (e1 : FrameEvent) (s2 : GestureEngine)
        (e2 : FrameEvent) :
  update self (frame_lm f) (frame_clk f) = Ok (s1, e1) ->
  update s1 (frame_lm g) (frame_clk g) = Ok (s2, e2) ->
  snd (event_class e1) = "end" ->
  state s1 = S_IDLE
  /\ (event_class e2 = ("none", "idle")
      \/ event_class e2 = ("double_tap", "start")
      \/ event_class e2 = ("pinch_hold", "start")).
Proof.
  intros Hu1 Hu2.
  destruct (transition_step self f s1 e1 Hu1) as (Hev1 & Hin1).
  destruct (transition_step s1 g s2 e2 Hu2) as (Hev2 & Hin2).
  rewrite Hev1, Hev2. cbn [snd]. intros Hend. rewrite Hend in Hin1.
  pose proof (end_row _ _ _ Hin1) as Hidle. split; [exact Hidle|].
  rewrite Hidle in Hin2. exact (idle_rows _ _ _ Hin2).
Qed.

(** ** The tap counter and the cool-down deadline *)

(** X5. The tap counter and the cool-down deadline are written only by
    completed taps: a call of [update] that returns [(tap, end)] leaves the
    counter at 1, one that returns [(double_tap, end)] leaves it at 2 and
    sets the deadline to the frame's clock plus [DOUBLE_TAP_COOL]; every
    other call that returns leaves the counter unchanged, and every one but
    a completed double tap leaves the deadline unchanged. A counter that is
    0, 1 or 2 stays so. *)
Theorem tap_count_written_by_taps (self : GestureEngine) (f : Frame)
        (self' : GestureEngine) (ev : FrameEvent) :
  update self (frame_lm f) (frame_clk f) = Ok (self', ev) ->
  (event_class ev = ("tap", "end") -> tap_count self' = 1%Z)
  /\ (event_class ev = ("double_tap", "end") ->
      tap_count self' = 2%Z
      /\ _dbl_cooldown_until self' = now f + DOUBLE_TAP_COOL)
  /\ (event_class ev <> ("tap", "end") ->
      event_class ev <> ("double_tap", "end") ->
      tap_count self' = tap_count self)
  /\ (event_class ev <> ("double_tap", "end") ->
      _dbl_cooldown_until self' = _dbl_cooldown_until self)
  /\ (In (tap_count self) [0; 1; 2]%Z -> In (tap_count self') [0; 1; 2]%Z).
Proof.
  intros Hupd. step_inv Hupd Hwf di dm Hdi Hdm Hadv Hpay.
  event_fields self' f Hwf ev Hpay.
  rewrite (event_class_carries _ _ Hcarries). clear Hupd Hcarries.
  destruct self. cbn in Hadv. destruct state0; cbn in Hadv;
    crush_advance Hadv; cbn;
    repeat split; try reflexivity; try discriminate; try tauto;
    try (intros; exfalso; congruence).
Qed.

(** ** The movement block and the landmark snapshot of the event *)

Lemma round_zero (n : nat) : round 0.0 n = 0.0.
Proof. reflexivity. Qed.

Lemma payload_movement (self : GestureEngine) (f : Frame) (ev : FrameEvent) :
  _payload self (frame_lm f) (frame_clk f) = Ok ev ->
  movement_of ev
  = {| Payload.origin := Payload.cursor ev;
       Payload.current := Payload.cursor ev;
       Payload.delta := {| Payload.dx := round (frame_dx self) 5;
                           Payload.dy := round (frame_dy self) 5 |};
       Payload.velocity :=
         {| Payload.vx := round (frame_dx self * 1000) 2;
            Payload.vy := round (frame_dy self * 1000) 2 |} |}.
Proof.
  unfold _payload. destruct (getitem _ _); cbn [bind]; [|discriminate].
  intros H. injection H as <-. reflexivity.
Qed.

(** X6. The movement block of the event a call of [update] returns never
    describes a path: its origin and its current point are both the cursor
    of the same frame, and its delta and velocity are zero on every event
    except those of a frame that begins and ends inside an index pinch,
    where they are the rounded offset of the index fingertip from its
    position one frame earlier (times 1000 for the velocity). In particular
    every event in phase [end], flicks and drags included, reports zero
    delta and zero velocity. *)
Theorem movement_block (self : GestureEngine) (f : Frame)
        (self' : GestureEngine) (ev : FrameEvent) :
  update self (frame_lm f) (frame_clk f) = Ok (self', ev) ->
  Payload.origin (movement_of ev) = Payload.cursor ev
  /\ Payload.current (movement_of ev) = Payload.cursor ev
  /\ (state self <> S_IDX_PINCH \/ state self' <> S_IDX_PINCH ->
      no_motion (movement_of ev))
  /\ (snd (event_class ev) = "end" -> no_motion (movement_of ev))
  /\ (forall palm_x palm_y,
        state self = S_IDX_PINCH -> state self' = S_IDX_PINCH ->
        prev_palm self = Some (palm_x, palm_y) ->
        Payload.delta (movement_of ev)
        = {| Payload.dx := round (tracked_x f - palm_x) 5;
             Payload.dy := round (tracked_y f - palm_y) 5 |}
        /\ Payload.velocity (movement_of ev)
           = {| Payload.vx := round ((tracked_x f - palm_x) * 1000) 2;
                Payload.vy := round ((tracked_y f - palm_y) * 1000) 2 |}).
Proof.
  intros Hupd. step_inv Hupd Hwf di dm Hdi Hdm Hadv Hpay.
  rewrite (payload_movement _ _ _ Hpay). cbn [Payload.origin Payload.current
    Payload.delta Payload.velocity].
  split; [reflexivity|]. split; [reflexivity|].
  assert (event_class ev = (gtype self', gstate self')) as Hev.
  { event_fields self' f Hwf ev Hpay. now apply event_class_carries. }
  rewrite Hev. clear Hupd Hpay Hev. unfold no_motion.
  cbn [Payload.delta Payload.velocity snd].
  assert (0.0 * 1000 = 0.0) as Hz by reflexivity.
  unfold tracked_x, tracked_y in *.
  destruct self. cbn in Hadv |- *. destruct state0; cbn in Hadv;
    crush_advance Hadv; cbn; rewrite ?Hz, ?round_zero;
    repeat split; try reflexivity; try discriminate;
    try (intros; exfalso; intuition congruence);
    try congruence.
Qed.

Lemma nth_error_enumerate_from {A : Type} (l : list A) (k i : nat) :
  nth_error (enumerate_from k l) i
  = option_map (fun a => ((k + i)%nat, a)) (nth_error l i).
Proof.
  revert k i. induction l as [|a l IH]; intros k [|i]; cbn; try reflexivity.
  - now rewrite Nat.add_0_r.
  - rewrite IH. now rewrite Nat.add_succ_r.
Qed.

Lemma payload_tracking (self : GestureEngine) (f : Frame) (ev : FrameEvent) :
  well_formed f ->
  _payload self (frame_lm f) (frame_clk f) = Ok ev ->
  Payload.landmarks (tracking_of ev)
  = map (fun '(i, l) => landmark_entry i l) (enumerate_from 0 (frame_lm f))
  /\ Payload.world_coordinates (tracking_of ev)
     = {| Payload.wx := round (Landmark.x (tip INDEX_TIP f)) 5;
          Payload.wy := round (Landmark.y (tip INDEX_TIP f)) 5;
          Payload.wz := round (Landmark.z (tip INDEX_TIP f)) 5 |}.
Proof.
  intros Hwf. unfold _payload.
  rewrite (getitem_tip f INDEX_TIP)
    by (unfold well_formed, MIDDLE_TIP, INDEX_TIP in *; lia).
  cbn [bind]. intros H. injection H as <-. split; reflexivity.
Qed.

(** X7. The landmark snapshot of the event a call of [update] returns: one
    entry per landmark of the frame, in order, entry [i] carrying the id [i]
    and the coordinates of landmark [i] rounded to five decimals; the world
    coordinates are those of entry [INDEX_TIP], and the cursor of the event
    is their x and y. *)
Theorem landmark_snapshot (self : GestureEngine) (f : Frame)
        (self' : GestureEngine) (ev : FrameEvent) :
  update self (frame_lm f) (frame_clk f) = Ok (self', ev) ->
  List.length (Payload.landmarks (tracking_of ev))
  = List.length (frame_lm f)
  /\ (forall i,
        nth_error (Payload.landmarks (tracking_of ev)) i
        = option_map (landmark_entry i) (nth_error (frame_lm f) i))
  /\ nth_error (Payload.landmarks (tracking_of ev)) INDEX_TIP
     = Some {| Payload.id := INDEX_TIP;
               Payload.x := Payload.wx (Payload.world_coordinates (tracking_of ev));
               Payload.y := Payload.wy (Payload.world_coordinates (tracking_of ev));
               Payload.z := Payload.wz (Payload.world_coordinates (tracking_of ev)) |}
  /\ Payload.cursor ev
     = {| Payload.px := Payload.wx (Payload.world_coordinates (tracking_of ev));
          Payload.py := Payload.wy (Payload.world_coordinates (tracking_of ev)) |}.
Proof.
  intros Hupd.
  destruct (sensed_fields self f self' ev Hupd) as (Hwf & Hcar & _ & Hx & Hy & _).
  destruct (update_inv _ _ _ _ Hupd) as (_ & di & dm & _ & _ & _ & Hpay).
  destruct (payload_tracking self' f ev Hwf Hpay) as (Hlms & Hworld).
  assert (forall i,
             nth_error (Payload.landmarks (tracking_of ev)) i
             = option_map (landmark_entry i) (nth_error (frame_lm f) i))
    as Hnth.
  { intros i. rewrite Hlms, nth_error_map, nth_error_enumerate_from.
    destruct (nth_error (frame_lm f) i); reflexivity. }
  split; [rewrite Hlms, length_map; clear; generalize 0%nat;
          induction (frame_lm f); intros; simpl; auto|].
  split; [exact Hnth|].
  rewrite Hnth, Hworld. cbn [Payload.wx Payload.wy Payload.wz].
  split.
  - unfold tip. rewrite (nth_error_nth' (frame_lm f) origin)
      by (unfold well_formed, MIDDLE_TIP, INDEX_TIP in *; lia).
    reflexivity.
  - use_carries Hcar. rewrite Hcur.
    unfold tracked_x, tracked_y in *. now rewrite Hx, Hy.
Qed.

(** ** Releases that are not taps *)

(** X8. A pinch held still for [TAP_MAX_TIME] or longer ends as a hold:
    along a run of [update] that returns, from [S_IDLE], if the index
    channel closes on [f0] (middle channel open, cool-down expired), stays
    closed over [held] with the accumulated displacement below
    [DRAG_DEADZONE], and opens on [fr] no less than [TAP_MAX_TIME] after
    [f0], then the release frame classifies (pinch_hold, end) and the tap
    counter is left as it was. [HOLD_MIN_MS] plays no part in it. *)
Theorem hold_law (self : GestureEngine) (f0 : Frame) (held : list Frame)
        (fr : Frame) (r0 : GestureEngine * FrameEvent)
        (trace : list (GestureEngine * FrameEvent)) (self' : GestureEngine)
        (ev : FrameEvent) :
  run self (f0 :: held ++ [fr])%list = Ok (r0 :: trace ++ [(self', ev)])%list ->
  state self = S_IDLE ->
  mid_pinched (fst r0) = false ->
  idx_pinched (fst r0) = true ->
  (_dbl_cooldown_until self <? now f0) = true ->
  Forall (fun r => idx_pinched (fst r) = true
                   /\ below_deadzone (cum_move (fst r))) trace ->
  idx_pinched self' = false ->
  ((now fr - now f0) * 1000 / 1000.0 <? TAP_MAX_TIME) = false ->
  Forall pinching (r0 :: trace)
  /\ state self' = S_IDLE
  /\ event_class ev = ("pinch_hold", "end")
  /\ tap_count self' = tap_count self
  /\ Payload.tap_count
       (Payload.timing (Payload.interaction_data (Payload.gesture ev)))
     = tap_count self.
Proof.
  intros Hrun Hst Hmid Hidx Hcool Hheld Hrel Hdur.
  destruct (pinch_phases _ _ _ _ _ _ _ _ Hrun) as (Hupd0 & Hrun' & Hupd).
  destruct r0 as [s0 e0]. cbn [fst] in *.
  destruct (idle_step self f0 s0 e0 Hupd0 Hst) as (_ & _ & Htc0 & _ & Hcase).
  rewrite Hmid, Hidx, Hcool in Hcase. cbn [andb] in Hcase.
  destruct Hcase as (Hs0 & _ & _ & Ht0 & Hm0 & _).
  destruct (still_run held s0 trace Hrun' Hs0 Hm0 Hheld)
    as (Hall & Hfs & Hfm & Hft & Hftc).
  destruct (release_step (final s0 trace) fr self' ev Hupd Hfs Hrel)
    as (_ & Hcarries & Hidle & Hend & Hcls & _ & Hkeep & _).
  rewrite Hfm, Hft, Ht0, Hdur in Hcls. cbn [andb negb] in Hcls.
  assert (tap_count self' = tap_count self) as Htc
    by (rewrite (Hkeep ltac:(rewrite Hcls; discriminate)); congruence).
  split; [constructor; [exact Hs0|exact Hall]|].
  rewrite (event_class_carries _ _ Hcarries), Hcls, Hend.
  use_carries Hcarries. rewrite Htime. cbn. auto.
Qed.

(** A pinch that has moved stays moved while the index channel stays
    closed. *)
Lemma moved_run (held : list Frame) :
  forall self trace,
    run self held = Ok trace ->
    state self = S_IDX_PINCH ->
    moved self = true ->
    Forall (fun r => idx_pinched (fst r) = true) trace ->
    state (final self trace) = S_IDX_PINCH
    /\ moved (final self trace) = true
    /\ tap_count (final self trace) = tap_count self.
Proof.
  induction held as [|f held IH]; intros self trace Hrun Hst Hmv Hh.
  - cbn in Hrun. injection Hrun as <-. cbn. auto.
  - destruct (run_cons_inv _ _ _ _ Hrun) as (s & e & rest & -> & Hupd & Hrest).
    inversion Hh as [|? ? Hi Hh']; subst. cbn [fst] in Hi.
    destruct (held_step self f s e Hupd Hst Hi)
      as (_ & Hs & _ & _ & _ & Hm & _ & Htc & _).
    rewrite Hmv, orb_true_r in Hm.
    destruct (IH s rest Hrest Hs Hm Hh') as (Hfs & Hfm & Hft).
    rewrite final_cons. repeat split; try assumption. congruence.
Qed.

(** X9. A pinch that has moved is never a tap: along a run of [update]
    that returns, from an index pinch with [moved] set, however long or
    short it lasts, every frame that keeps the channel closed reports
    (pinch_drag, active) and the frame that opens it reports
    (pinch_flick, end) or (pinch_drag, end); the tap counter is left as it
    was and the engine is idle with [moved] cleared. *)
Theorem moved_release (self : GestureEngine) (held : list Frame) (fr : Frame)
        (trace : list (GestureEngine * FrameEvent)) (self' : GestureEngine)
        (ev : FrameEvent) :
  run self (held ++ [fr])%list = Ok (trace ++ [(self', ev)])%list ->
  state self = S_IDX_PINCH ->
  moved self = true ->
  Forall (fun r => idx_pinched (fst r) = true) trace ->
  idx_pinched self' = false ->
  Forall dragging trace
  /\ state self' = S_IDLE
  /\ moved self' = false
  /\ (event_class ev = ("pinch_flick", "end")
      \/ event_class ev = ("pinch_drag", "end"))
  /\ tap_count self' = tap_count self.
Proof.
  intros Hrun Hst Hmv Hheld Hrel.
  destruct (run_snoc_inv _ _ _ _ _ _ Hrun) as (Hrun' & Hupd).
  pose proof (drag_run held self trace Hrun' Hst Hmv Hheld) as Hall.
  destruct (moved_run held self trace Hrun' Hst Hmv Hheld)
    as (Hfs & Hfm & Hftc).
  destruct (release_step (final self trace) fr self' ev Hupd Hfs Hrel)
    as (_ & Hcarries & Hidle & Hend & Hcls & _ & Hkeep & Hmv' & _).
  rewrite Hfm in Hcls. cbn [andb negb] in Hcls.
  rewrite andb_false_r in Hcls.
  split; [exact Hall|]. split; [exact Hidle|]. split; [exact Hmv'|].
  rewrite (event_class_carries _ _ Hcarries), Hend.
  assert (gtype self' <> "tap") as Hnot
    by (rewrite Hcls; destruct (FLICK_VELOCITY <? vel self'); discriminate).
  rewrite (Hkeep Hnot), Hcls.
  destruct (FLICK_VELOCITY <? vel self'); auto.
Qed.

(** * The overlay *)

(** The engine half of [advance_overlay] is [advance]. *)
Lemma advance_overlay_engine (self : GestureEngine) (ov : TestOverlay.t)
      (index middle : Landmark.t) (t t_ov : float) :
  advance self (Landmark.x index) (Landmark.y index) t
  = (r <- advance_overlay self ov index middle t t_ov ;; Ok (fst r)).
Proof.
  unfold advance, advance_overlay, classify_release.
  destruct (state self); cbv zeta;
    try (destruct (_calc_vel _) as [v|]; cbn [bind]);
    repeat match goal with
      | |- context [if ?c then _ else _] => destruct c
      | |- context [track ?a ?b ?s] => destruct (track a b s); cbn [bind]
      end;
    reflexivity.
Qed.

(** A call of [update] with its overlay returns what [update] returns. *)
Lemma update_overlay_inv (self : GestureEngine) (ov : TestOverlay.t)
      (f : Frame) (t_ov : float) (self' : GestureEngine)
      (ov' : TestOverlay.t) (ev : FrameEvent) :
  update_overlay self ov (frame_lm f) (frame_clk f) t_ov
  = Ok (self', ov', ev) ->
  exists di dm,
    advance_overlay (sense self (tip INDEX_TIP f) di dm (now f)) ov
                    (tip INDEX_TIP f) (tip MIDDLE_TIP f) (now f) t_ov
    = Ok (self', ov')
    /\ carries self' ev
    /\ update self (frame_lm f) (frame_clk f) = Ok (self', ev).
Proof.
  intros H. unfold update_overlay in H.
  assert (well_formed f) as Hwf.
  { destruct (getitem (frame_lm f) THUMB_TIP); cbn [bind] in H; [|discriminate].
    destruct (getitem (frame_lm f) INDEX_TIP); cbn [bind] in H; [|discriminate].
    destruct (getitem (frame_lm f) MIDDLE_TIP) eqn:Hm; [|discriminate].
    apply getitem_Ok_iff. eauto. }
  rewrite !getitem_tip in H
    by (unfold well_formed, MIDDLE_TIP, INDEX_TIP, THUMB_TIP in *; lia).
  cbn [bind] in H.
  destruct (_dist (tip THUMB_TIP f) (tip INDEX_TIP f)) as [di|] eqn:Hdi;
    cbn [bind] in H; [|discriminate].
  destruct (_dist (tip THUMB_TIP f) (tip MIDDLE_TIP f)) as [dm|] eqn:Hdm;
    cbn [bind] in H; [|discriminate].
  destruct (advance_overlay _ _ _ _ _ _) as [[s o]|] eqn:Hov;
    cbn [bind fst snd] in H; [|discriminate].
  destruct (_payload s _ _) as [e|] eqn:Hpay; cbn [bind] in H; [|discriminate].
  injection H as <- <- <-.
  exists di, dm. split; [exact Hov|].
  destruct (payload_fields s f Hwf) as (ev' & Hev & Hc & _).
  rewrite Hev in Hpay. injection Hpay as <-.
  split; [exact Hc|].
  rewrite (update_well_formed self f Hwf). unfold idx_gap, mid_gap.
  rewrite Hdi, Hdm. cbn [bind]. unfold tracked_x, tracked_y, now.
  rewrite (advance_overlay_engine _ ov _ (tip MIDDLE_TIP f) _ t_ov), Hov.
  cbn [bind fst]. now rewrite Hev.
Qed.

Ltac crush_overlay Hadv :=
  unfold track, classify_release in Hadv; cbn in Hadv;
  repeat match type of Hadv with
    | context [andb ?a _] => destruct a eqn:?; cbn in Hadv
    | context [if ?c then _ else _] => destruct c eqn:?; cbn in Hadv
    | context [match ?o with Some _ => _ | None => _ end] =>
        destruct o as [[? ?]|] eqn:?; cbn in Hadv
    | context [_calc_vel ?t] => destruct (_calc_vel t) eqn:?; cbn in Hadv
    | context [norm2 ?a ?b] => destruct (norm2 a b) eqn:?; cbn in Hadv
    end;
  try discriminate Hadv; injection Hadv as <- <-.

Ltac absurd_flag :=
  match goal with
  | H : false = true |- _ => discriminate H
  | H : true = false |- _ => discriminate H
  end.

Lemma overlay_coherent_step (self : GestureEngine) (ov : TestOverlay.t)
      (f : Frame) (t_ov : float) (self' : GestureEngine)
      (ov' : TestOverlay.t) (ev : FrameEvent) :
  update_overlay self ov (frame_lm f) (frame_clk f) t_ov
  = Ok (self', ov', ev) ->
  overlay_coherent (self, ov) ->
  overlay_coherent (self', ov').
Proof.
  intros Hupd [Hfin Hco].
  destruct (update_overlay_inv _ _ _ _ _ _ _ Hupd) as (di & dm & Hadv & _).
  clear Hupd. unfold overlay_coherent.
  destruct self. destruct ov as [tm dp ft dr]. cbn in Hco, Hfin, Hadv.
  unfold advance_overlay in Hadv. cbn in Hadv.
  destruct state0; cbn in Hadv.
  - crush_overlay Hadv; cbn; auto.
  - destruct Hco as (-> & Hpts).
    destruct moved0; crush_overlay Hadv; cbn in *; try absurd_flag;
      unfold TestOverlay.on_drag_update, TestOverlay.on_drag_end; cbn;
      rewrite ?length_app; cbn [List.length];
      repeat split; try assumption; try lia.
    all: destruct dp as [|p ps]; [cbn in Hpts; lia|];
      apply Forall_app; split; [assumption|];
      constructor; [exact Hpts|constructor].
  - crush_overlay Hadv; cbn; auto.
Qed.

Lemma draw_coherent (self : GestureEngine) (ov : TestOverlay.t) (t : float) :
  overlay_coherent (self, ov) ->
  overlay_coherent (self, TestOverlay.draw_purge t ov).
Proof.
  intros [Hfin Hco]. split; [|exact Hco].
  cbn. apply Forall_forall. intros tr Hin.
  apply filter_In in Hin as [Hin _].
  exact (proj1 (Forall_forall _ _) Hfin tr Hin).
Qed.

Lemma loop_step_coherent (st st' : GestureEngine * TestOverlay.t) :
  loop_step st st' -> overlay_coherent st -> overlay_coherent st'.
Proof.
  intros Hstep Hco. destruct Hstep as [self ov f t_ov self' ov' ev Hupd|self ov t].
  - exact (overlay_coherent_step _ _ _ _ _ _ _ Hupd Hco).
  - now apply draw_coherent.
Qed.

Lemma active_trail_in_drag (st : GestureEngine * TestOverlay.t) :
  overlay_coherent st ->
  TestOverlay.draws_active_trail (snd st) = true ->
  state (fst st) = S_IDX_PINCH /\ moved (fst st) = true.
Proof.
  destruct st as [self ov]. intros [_ Hco] Hdraw. cbn [fst snd] in *.
  unfold TestOverlay.draws_active_trail in Hdraw.
  apply andb_prop in Hdraw as [_ Hlen]. apply Nat.ltb_lt in Hlen.
  destruct (state self); try lia.
  destruct Hco as [_ Hpts]. destruct (moved self); [auto|lia].
Qed.

(** X10. The overlay follows the engine through the capture loop: in every
    state the loop reaches from a coherent pair of engine and overlay (the
    initial engine with an empty overlay is one) by calls of [update] that
    return and cleanups of [draw], every finished trail has at least two
    points, at most one point is pending outside an index pinch, and [draw]
    paints a drag in progress only while the engine is in an index pinch
    that has moved. *)
Theorem overlay_follows_engine (st st' : GestureEngine * TestOverlay.t) :
  loop_reaches st st' ->
  overlay_coherent st ->
  overlay_coherent st'
  /\ (TestOverlay.draws_active_trail (snd st') = true ->
      state (fst st') = S_IDX_PINCH /\ moved (fst st') = true).
Proof.
  intros Hreach Hco.
  assert (overlay_coherent st') as Hco'.
  { induction Hreach as [st|st st1 st2 Hstep _ IH]; [exact Hco|].
    apply IH. exact (loop_step_coherent _ _ Hstep Hco). }
  split; [exact Hco'|]. now apply active_trail_in_drag.
Qed.

(** X11. What the overlay records of a call of [update] that returns, when
    engine and overlay are coherent before it: a marker exactly when the
    event is a completed tap (at the index fingertip, typed [tap]) or a
    completed double tap (at the middle fingertip, typed [double_tap]); a
    finished trail exactly when the event is a completed flick or drag, and
    then the trail is the points pending before the call, so the point of
    release is not part of it. Engine and event are those of [update]. *)
Theorem overlay_records_event (self : GestureEngine) (ov : TestOverlay.t)
        (f : Frame) (t_ov : float) (self' : GestureEngine)
        (ov' : TestOverlay.t) (ev : FrameEvent) :
  update_overlay self ov (frame_lm f) (frame_clk f) t_ov
  = Ok (self', ov', ev) ->
  overlay_coherent (self, ov) ->
  update self (frame_lm f) (frame_clk f) = Ok (self', ev)
  /\ TestOverlay.tap_markers ov'
     = (TestOverlay.tap_markers ov ++ marker_of f t_ov ev)%list
  /\ TestOverlay.finished_trails ov'
     = (TestOverlay.finished_trails ov ++ trail_of ov t_ov ev)%list.
Proof.
  intros Hupd [_ Hco].
  destruct (update_overlay_inv _ _ _ _ _ _ _ Hupd)
    as (di & dm & Hadv & Hcar & Hupd').
  split; [exact Hupd'|].
  unfold marker_of, trail_of.
  rewrite (event_class_carries _ _ Hcar). clear Hupd Hupd' Hcar.
  destruct self. destruct ov as [tm dp ft dr]. cbn in Hco, Hadv.
  unfold advance_overlay in Hadv. cbn in Hadv.
  destruct state0; cbn in Hadv.
  - crush_overlay Hadv; cbn; rewrite ?app_nil_r; auto.
  - destruct Hco as (-> & Hpts).
    assert (dp <> []) as Hne
      by (intros ->; destruct moved0; cbn in Hpts; lia).
    destruct dp as [|p ps]; [congruence|].
    crush_overlay Hadv; cbn; rewrite ?app_nil_r; auto.
  - crush_overlay Hadv; cbn; rewrite ?app_nil_r; auto.
Qed.

(** * The gesture handler *)

(** X12. [_remap_edge] returns for every float, NaN and the infinities
    included, and its result lies between 0 and 1. *)
Theorem remap_edge_range (v : float) :
  exists r,
    GestureHandler._remap_edge v = GestureHandler.Done r
    /\ (0.0 <=? r) = true /\ (r <=? 1.0) = true.
Proof.
  unfold GestureHandler._remap_edge, GestureHandler.float_truediv.
  assert ((1.0 - 2 * GestureHandler.EDGE_MARGIN =? 0) = false) as Hdiv
    by (vm_compute; reflexivity).
  rewrite Hdiv.
  set (q := (v - GestureHandler.EDGE_MARGIN)
            / (1.0 - 2 * GestureHandler.EDGE_MARGIN)).
  eexists. split; [reflexivity|].
  unfold py_max, py_min.
  destruct (q <? 1.0) eqn:Hq1.
  - destruct (0.0 <? q) eqn:Hq0.
    + split; now apply ltb_leb.
    + split; reflexivity.
  - destruct (0.0 <? 1.0) eqn:H01; [split; reflexivity|].
    vm_compute in H01. discriminate H01.
Qed.

(** What the handler needs to know of an event of the engine. *)
Lemma event_step (self : GestureEngine) (f : Frame) (self' : GestureEngine)
      (ev : FrameEvent) :
  update self (frame_lm f) (frame_clk f) = Ok (self', ev) ->
  Payload.type (Payload.gesture ev) = gtype self'
  /\ Payload.state (Payload.gesture ev) = gstate self'
  /\ In (state self, state self', (gtype self', gstate self')) transitions
  /\ Payload.origin (movement_of ev) = Payload.cursor ev
  /\ Payload.current (movement_of ev) = Payload.cursor ev
  /\ (gstate self' = "end" ->
      Payload.velocity (movement_of ev)
      = {| Payload.vx := 0.0; Payload.vy := 0.0 |}).
Proof.
  intros Hupd. step_inv Hupd Hwf di dm Hdi Hdm Hadv Hpay.
  pose proof (payload_movement _ _ _ Hpay) as Hmv.
  event_fields self' f Hwf ev Hpay. use_carries Hcarries.
  split; [exact Hty|]. split; [exact Hph|].
  rewrite Hmv. cbn [Payload.origin Payload.current Payload.velocity].
  clear Hupd Hmv Hty Hph Hconf Hcur Htime.
  assert (0.0 * 1000 = 0.0) as Hz by reflexivity.
  destruct self. cbn in Hadv |- *. destruct state0; cbn in Hadv;
    crush_advance Hadv; cbn; rewrite ?Hz, ?round_zero;
    (split; [in_table|]); repeat split; try reflexivity;
    try (intros; discriminate).
Qed.

Lemma norm_to_px_pure (nx ny : float) (h : GestureHandler.t) :
  fst (GestureHandler._norm_to_px nx ny h) = h.
Proof.
  unfold GestureHandler._norm_to_px, GestureHandler.and_then,
    GestureHandler.get, GestureHandler.lift, GestureHandler.ret.
  destruct (GestureHandler.float_of_int (GestureHandler._screen_w h));
    [|reflexivity].
  destruct (GestureHandler.int_of_float _); [|reflexivity].
  destruct (GestureHandler.float_of_int (GestureHandler._screen_h h));
    [|reflexivity].
  destruct (GestureHandler.int_of_float _); reflexivity.
Qed.

Lemma click_point_pure (ev : FrameEvent) (h : GestureHandler.t) :
  fst (GestureHandler.click_point ev h) = h.
Proof.
  unfold GestureHandler.click_point, GestureHandler.and_then,
    GestureHandler.get, GestureHandler.lift, GestureHandler.ret.
  destruct (_ || _); [|reflexivity].
  destruct (GestureHandler.int_truediv _ _); [|reflexivity].
  destruct (GestureHandler.int_truediv _ _); reflexivity.
Qed.

(** A flick whose event carries no velocity scrolls up by one notch. *)
Lemma flick_at_rest (cx cy : float) (mv : Payload.Movement)
      (h : GestureHandler.t) :
  Payload.velocity mv = {| Payload.vx := 0.0; Payload.vy := 0.0 |} ->
  GestureHandler._handle_pinch_flick cx cy mv h
  = GestureHandler.and_then (GestureHandler._norm_to_px cx cy)
      (fun p => GestureHandler.ret
                  (GestureHandler.scroll (fst p) (snd p) "up" 1)) h.
Proof.
  intros Hv. unfold GestureHandler._handle_pinch_flick. rewrite Hv.
  cbn [Payload.vx Payload.vy].
  assert ((abs 0.0 <=? abs 0.0) = true) as H1 by reflexivity.
  assert ((0.0 <? 0.0) = false) as H2 by reflexivity.
  assert (GestureHandler.int_of_float (abs 0.0 / 200)
          = GestureHandler.Done 0%Z) as H3 by reflexivity.
  rewrite H1, H2.
  unfold GestureHandler.and_then at 1, GestureHandler.lift.
  rewrite H3. reflexivity.
Qed.

(** A drag whose event has the same origin and current point is dropped
    where it is picked up. *)
Lemma drag_in_place (cx cy : float) (mv : Payload.Movement)
      (h : GestureHandler.t) :
  Payload.origin mv = Payload.current mv ->
  GestureHandler._handle_pinch_drag cx cy mv h
  = GestureHandler.and_then
      (GestureHandler._norm_to_px (Payload.px (Payload.origin mv))
                                  (Payload.py (Payload.origin mv)))
      (fun p => GestureHandler.ret
                  (GestureHandler.drag_and_drop (fst p) (snd p)
                                                (fst p) (snd p) 0.5)) h.
Proof.
  intros Heq. unfold GestureHandler._handle_pinch_drag. rewrite <- Heq.
  unfold GestureHandler.and_then.
  pose proof (norm_to_px_pure (Payload.px (Payload.origin mv))
                (Payload.py (Payload.origin mv)) h) as Hpure.
  destruct (GestureHandler._norm_to_px _ _ h) as [h' [p|e]] eqn:Hn;
    [|reflexivity].
  cbn [fst] in Hpure. subst h'. rewrite Hn. reflexivity.
Qed.

Ltac table_rows Hin :=
  cbn in Hin;
  repeat (destruct Hin as [Hin|Hin];
          [let Hg := fresh "Hg" in
           let Hp := fresh "Hp" in
           injection Hin as _ _ Hg Hp; rewrite <- Hg, <- Hp in *|]);
  try contradiction.

(** X13. The handler's action table, as the events of the engine exercise
    it: on every event a call of [update] returns, [handle_event] does what
    [response] does. Events that are not in phase [end] are skipped and
    leave the handler as it is. A completed tap, double tap or hold counts
    one action and requests a left click, a double left click or a right
    click at the click point. A completed drag requests [drag_and_drop]
    from the cursor of the event to that same pixel, since origin and
    current point of the event coincide. A completed flick requests a
    scroll up by one notch whatever the motion was, since the event carries
    no velocity. *)
Theorem handler_action_table (self : GestureEngine) (f : Frame)
        (self' : GestureEngine) (ev : FrameEvent) :
  update self (frame_lm f) (frame_clk f) = Ok (self', ev) ->
  GestureHandler.transported ev ->
  forall h,
    GestureHandler.handle_event ev h = GestureHandler.response ev h.
Proof.
  intros Hupd _ h.
  destruct (event_step self f self' ev Hupd)
    as (Hty & Hph & Hin & Horg & Hcur & Hvel).
  unfold GestureHandler.handle_event, GestureHandler.response.
  change (Payload.movement (Payload.interaction_data (Payload.gesture ev)))
    with (movement_of ev).
  rewrite Hty, Hph.
  table_rows Hin.
  all: cbn [GestureHandler.is_in existsb String.eqb Ascii.eqb Bool.eqb negb
            orb andb GestureHandler.handler_map
            GestureHandler.HANDLED_GESTURES].
  all: try reflexivity.
  all: unfold GestureHandler.respond, GestureHandler.click_point,
         GestureHandler.and_then, GestureHandler.get, GestureHandler.modify,
         GestureHandler.ret, GestureHandler.lift; cbn [fst snd].
  all: destruct (_ || _);
         repeat match goal with
           | |- context [GestureHandler.int_truediv ?a ?b] =>
               destruct (GestureHandler.int_truediv a b)
           end;
         try reflexivity.
  all: rewrite ?flick_at_rest by (apply Hvel; reflexivity).
  all: rewrite ?drag_in_place by congruence.
  all: rewrite ?Horg.
  all: unfold GestureHandler._handle_tap, GestureHandler._handle_double_tap,
         GestureHandler._handle_pinch_hold, GestureHandler.and_then,
         GestureHandler.ret; cbn [fst snd].
  all: destruct (GestureHandler._norm_to_px _ _ _) as [h' [p|e]];
         reflexivity.
Qed.

(** ** The cursor *)

Ltac table_rows_state Hin :=
  cbn in Hin;
  repeat (destruct Hin as [Hin|Hin];
          [let Hs := fresh "Hs" in
           let Hg := fresh "Hg" in
           let Hp := fresh "Hp" in
           injection Hin as _ Hs Hg Hp; rewrite <- Hs, <- Hg, <- Hp in *|]);
  try contradiction.

Lemma keeps_and_then {A B C : Type} (field : GestureHandler.t -> C)
      (m : GestureHandler.M A) (k : A -> GestureHandler.M B) :
  keeps field m -> (forall a, keeps field (k a)) ->
  keeps field (GestureHandler.and_then m k).
Proof.
  intros Hm Hk h. unfold GestureHandler.and_then.
  specialize (Hm h). destruct (m h) as [h' [a|e]]; cbn [fst] in *.
  - now rewrite Hk.
  - exact Hm.
Qed.

Lemma keeps_get {A C : Type} (field : GestureHandler.t -> C)
      (g : GestureHandler.t -> A) :
  keeps field (GestureHandler.get g).
Proof. intros h. reflexivity. Qed.

Lemma keeps_ret {A C : Type} (field : GestureHandler.t -> C) (a : A) :
  keeps field (GestureHandler.ret a).
Proof. intros h. reflexivity. Qed.

Lemma keeps_lift {A C : Type} (field : GestureHandler.t -> C)
      (r : GestureHandler.outcome A) :
  keeps field (GestureHandler.lift r).
Proof. intros h. reflexivity. Qed.

Lemma keeps_raise {A C : Type} (field : GestureHandler.t -> C)
      (e : GestureHandler.error) :
  keeps field (@GestureHandler.raise A e).
Proof. intros h. reflexivity. Qed.

Lemma keeps_modify {C : Type} (field : GestureHandler.t -> C)
      (g : GestureHandler.t -> GestureHandler.t) :
  (forall h, field (g h) = field h) ->
  keeps field (GestureHandler.modify g).
Proof. intros Hg h. exact (Hg h). Qed.

Ltac keeps_all :=
  repeat first
    [ apply keeps_and_then; [|intros ?]
    | apply keeps_get | apply keeps_ret | apply keeps_lift
    | apply keeps_raise
    | apply keeps_modify; intros ?; reflexivity
    | match goal with
      | |- keeps _ (match ?x with _ => _ end) => destruct x
      | |- keeps _ (if ?x then _ else _) => destruct x
      | |- keeps _ (GestureHandler._smooth _ _) =>
          unfold GestureHandler._smooth
      | |- keeps _ (GestureHandler._norm_to_px _ _) =>
          unfold GestureHandler._norm_to_px
      end ].

Lemma yields_and_then {A B : Type} (m : GestureHandler.M A)
      (k : A -> GestureHandler.M (option B)) :
  (forall a, yields_some (k a)) -> yields_some (GestureHandler.and_then m k).
Proof.
  intros Hk h. unfold GestureHandler.and_then.
  destruct (m h) as [h' [a|e]]; [apply Hk|discriminate].
Qed.

Lemma fst_and_then_ret {A B : Type} (m : GestureHandler.M A) (b : B)
      (h : GestureHandler.t) :
  fst (GestureHandler.and_then m (fun _ => GestureHandler.ret b) h)
  = fst (m h).
Proof.
  unfold GestureHandler.and_then. now destruct (m h) as [h' [a|e]].
Qed.

Lemma cursor_in_pinch (ev : FrameEvent) (h : GestureHandler.t) :
  GestureHandler.is_in (Payload.state (Payload.gesture ev))
                       ["start"; "active"]
  && negb (String.eqb (Payload.type (Payload.gesture ev)) "none") = true ->
  GestureHandler._frozen (fst (GestureHandler.handle_cursor ev h)) = true
  /\ forall p,
      snd (GestureHandler.handle_cursor ev h) <> GestureHandler.Done (Some p).
Proof.
  intros Hc. unfold GestureHandler.handle_cursor. rewrite Hc. split.
  - unfold GestureHandler.and_then at 1. unfold GestureHandler.get at 1.
    cbv beta iota. rewrite fst_and_then_ret.
    destruct (GestureHandler._frozen h) eqn:Hf; cbn [negb].
    + exact Hf.
    + unfold GestureHandler.and_then at 1. unfold GestureHandler.modify at 1.
      cbv beta iota.
      match goal with
      | |- GestureHandler._frozen (fst (?m ?h0)) = true =>
          assert (keeps GestureHandler._frozen m) as Hk by keeps_all;
          rewrite (Hk h0)
      end.
      reflexivity.
  - intros p. unfold GestureHandler.and_then at 1.
    unfold GestureHandler.get at 1. cbv beta iota.
    unfold GestureHandler.and_then at 1.
    match goal with
    | |- context [let (_, _) := ?m h in _] => destruct (m h) as [h' [a|e]]
    end; discriminate.
Qed.

Lemma cursor_outside_pinch (ev : FrameEvent) (h : GestureHandler.t) :
  GestureHandler.is_in (Payload.state (Payload.gesture ev))
                       ["start"; "active"]
  && negb (String.eqb (Payload.type (Payload.gesture ev)) "none") = false ->
  GestureHandler.is_in (Payload.state (Payload.gesture ev))
                       ["end"; "ended"; EmptyString]
  || String.eqb (Payload.type (Payload.gesture ev)) "none" = true ->
  GestureHandler._frozen (fst (GestureHandler.handle_cursor ev h)) = false
  /\ snd (GestureHandler.handle_cursor ev h) <> GestureHandler.Done None.
Proof.
  intros Hc Hu. unfold GestureHandler.handle_cursor. rewrite Hc, Hu. split.
  - unfold GestureHandler.and_then at 1 2. unfold GestureHandler.get at 1.
    cbv beta iota.
    destruct (GestureHandler._frozen h) eqn:Hf.
    + unfold GestureHandler.modify at 1. cbv beta iota.
      match goal with
      | |- GestureHandler._frozen (fst (?m ?h0)) = false =>
          assert (keeps GestureHandler._frozen m) as Hk by keeps_all;
          rewrite (Hk h0)
      end.
      reflexivity.
    + unfold GestureHandler.ret at 1. cbv beta iota.
      match goal with
      | |- GestureHandler._frozen (fst (?m ?h0)) = false =>
          assert (keeps GestureHandler._frozen m) as Hk by keeps_all;
          rewrite (Hk h0)
      end.
      exact Hf.
  - revert h. change (yields_some
      (GestureHandler.and_then
         (GestureHandler.and_then
            (GestureHandler.get GestureHandler._frozen)
            (fun frozen =>
               if frozen
               then GestureHandler.modify (GestureHandler.set_frozen false)
               else GestureHandler.ret tt))
         (fun _ =>
            GestureHandler.and_then
              (GestureHandler.lift
                 (GestureHandler._remap_edge (Payload.px (Payload.cursor ev))))
              (fun cx =>
                 GestureHandler.and_then
                   (GestureHandler.lift
                      (GestureHandler._remap_edge
                         (Payload.py (Payload.cursor ev))))
                   (fun cy =>
                      GestureHandler.and_then (GestureHandler._smooth cx cy)
                        (fun c =>
                           GestureHandler.and_then
                             (GestureHandler._norm_to_px (fst c) (snd c))
                             (fun p => GestureHandler.ret (Some p)))))))).
    repeat (apply yields_and_then; intros ?).
    intros h. discriminate.
Qed.

(** X14. The mouse rests while a pinch is in progress: on the event of a
    call of [update] that returns and leaves the engine in a pinch state,
    [handle_cursor] moves nothing and leaves the handler frozen, whether or
    not it was frozen before; on the event of a call that leaves the engine
    idle, the end of a gesture included, it leaves the handler unfrozen and,
    when it returns, has moved the mouse. *)
Theorem cursor_frozen_in_pinch (self : GestureEngine) (f : Frame)
        (self' : GestureEngine) (ev : FrameEvent) :
  update self (frame_lm f) (frame_clk f) = Ok (self', ev) ->
  GestureHandler.transported ev ->
  forall h,
    (state self' <> S_IDLE ->
     GestureHandler._frozen (fst (GestureHandler.handle_cursor ev h))
     = true
     /\ forall p,
         snd (GestureHandler.handle_cursor ev h)
         <> GestureHandler.Done (Some p))
    /\ (state self' = S_IDLE ->
        GestureHandler._frozen (fst (GestureHandler.handle_cursor ev h))
        = false
        /\ snd (GestureHandler.handle_cursor ev h)
           <> GestureHandler.Done None).
Proof.
  intros Hupd _ h.
  destruct (event_step self f self' ev Hupd) as (Hty & Hph & Hin & _).
  table_rows_state Hin.
  all: split; intros Hst; try discriminate Hst; try (exfalso; now apply Hst).
  all: first [ apply cursor_in_pinch; rewrite Hty, Hph; reflexivity
             | apply cursor_outside_pinch; rewrite Hty, Hph; reflexivity ].
Qed.

(** * The flash banner *)

(** X15. The flash banner announces completed taps, double taps and
    flicks, and nothing else: after a call of [update] that returns one of
    them, [flash_label] reads [TAP], [DOUBLE TAP] or [FLICK] for as long as
    the clock is below the frame's clock plus 0.6, and the empty string from
    then on; after every other call that returns, completed drags and holds
    included, it reads what it read before. [pinched] is the [is_pinched] of
    the event. *)
Theorem flash_announces (self : GestureEngine) (f : Frame)
        (self' : GestureEngine) (ev : FrameEvent) :
  update self (frame_lm f) (frame_clk f) = Ok (self', ev) ->
  pinched self' = event_is_pinched ev
  /\ forall t_now,
      flash_label self' t_now
      = match banner_of (event_class ev) with
        | Some label =>
            if t_now <? now f + 0.6 then label else EmptyString
        | None => flash_label self t_now
        end.
Proof.
  intros Hupd. step_inv Hupd Hwf di dm Hdi Hdm Hadv Hpay.
  split; [now rewrite (payload_is_pinched _ _ _ Hpay)|].
  event_fields self' f Hwf ev Hpay.
  rewrite (event_class_carries _ _ Hcarries). clear Hupd Hcarries.
  intros t_now. unfold flash_label, banner_of.
  destruct self. cbn in Hadv |- *. destruct state0; cbn in Hadv;
    crush_advance Hadv; reflexivity.
Qed.

(** * Aiming at the frozen pixel *)

Lemma aim_table_1920 :
  forallb (fun px => lands_near px (aim_pixel 1920 px)) (pixels 1920) = true.
Proof. vm_compute. reflexivity. Qed.

Lemma aim_table_1080 :
  forallb (fun px => lands_near px (aim_pixel 1080 px)) (pixels 1080) = true.
Proof. vm_compute. reflexivity. Qed.

Lemma aim_near (screen px : Z) :
  forallb (fun px => lands_near px (aim_pixel screen px)) (pixels screen)
  = true ->
  (0 <= px <= screen)%Z ->
  exists c w x,
    GestureHandler.int_truediv px screen = GestureHandler.Done c
    /\ GestureHandler.float_of_int screen = GestureHandler.Done w
    /\ GestureHandler.int_of_float (py_max 0.0 (py_min 1.0 c) * w)
       = GestureHandler.Done x
    /\ (px - 1 <= x <= px)%Z.
Proof.
  intros Htab Hpx.
  assert (In px (pixels screen)) as Hin.
  { unfold pixels. apply in_map_iff. exists (Z.to_nat px).
    split; [lia|]. apply in_seq. lia. }
  pose proof (proj1 (forallb_forall _ _) Htab px Hin) as Hnear.
  unfold aim_pixel in Hnear.
  destruct (GestureHandler.int_truediv px screen) as [c|];
    [|discriminate Hnear].
  destruct (GestureHandler.float_of_int screen) as [w|];
    [|discriminate Hnear].
  destruct (GestureHandler.int_of_float _) as [x|] eqn:Hx;
    [|discriminate Hnear].
  exists c, w, x. repeat split; try reflexivity; try exact Hx;
    cbn [lands_near] in Hnear; apply andb_prop in Hnear as [H1 H2];
    apply Z.leb_le in H1, H2; lia.
Qed.

Lemma handle_event_tap (ev : FrameEvent) (h : GestureHandler.t) :
  Payload.type (Payload.gesture ev) = "tap" ->
  Payload.state (Payload.gesture ev) = "end" ->
  GestureHandler.handle_event ev h
  = GestureHandler.respond ev (fun c => c)
      (fun x y => GestureHandler.click x y "left" 1) h.
Proof.
  intros Hty Hph. unfold GestureHandler.handle_event. rewrite Hty, Hph.
  cbn [GestureHandler.is_in existsb String.eqb Ascii.eqb Bool.eqb negb
       orb andb GestureHandler.handler_map GestureHandler.HANDLED_GESTURES].
  unfold GestureHandler.respond, GestureHandler.click_point,
    GestureHandler.and_then, GestureHandler.get, GestureHandler.modify,
    GestureHandler.ret, GestureHandler.lift; cbn [fst snd].
  destruct (_ || _);
    repeat match goal with
      | |- context [GestureHandler.int_truediv ?a ?b] =>
          destruct (GestureHandler.int_truediv a b)
      end;
    try reflexivity.
  all: unfold GestureHandler._handle_tap, GestureHandler.and_then,
         GestureHandler.ret; cbn [fst snd].
  all: destruct (GestureHandler._norm_to_px _ _ _) as [h' [p|e]];
         reflexivity.
Qed.

Lemma cursor_outside_keeps (ev : FrameEvent) :
  GestureHandler.is_in (Payload.state (Payload.gesture ev))
                       ["start"; "active"]
  && negb (String.eqb (Payload.type (Payload.gesture ev)) "none") = false ->
  keeps GestureHandler._freeze_px (GestureHandler.handle_cursor ev)
  /\ keeps GestureHandler._freeze_py (GestureHandler.handle_cursor ev)
  /\ keeps GestureHandler._screen_w (GestureHandler.handle_cursor ev)
  /\ keeps GestureHandler._screen_h (GestureHandler.handle_cursor ev)
  /\ keeps GestureHandler._action_count (GestureHandler.handle_cursor ev).
Proof.
  intros Hc. unfold GestureHandler.handle_cursor. rewrite Hc.
  repeat split; keeps_all.
Qed.

(** X16. On a 1920 x 1080 screen the click of a tap lands on the frozen
    pixel or one pixel before it, in each coordinate: when a completed tap
    reaches a handler whose freeze point has both coordinates positive and
    on the screen, [_on_gesture] raises only if [handle_cursor] does, and
    otherwise counts one action, clears the freeze point and requests a
    left click at a pixel [(x, y)] with [px - 1 <= x <= px] and
    [py - 1 <= y <= py] for the freeze point [(px, py)]. (The frozen pixel
    is divided by the screen size and multiplied back, and the product is
    truncated.) *)
Theorem frozen_click_within_a_pixel (ev : FrameEvent)
        (h : GestureHandler.t) :
  Payload.type (Payload.gesture ev) = "tap" ->
  Payload.state (Payload.gesture ev) = "end" ->
  GestureHandler._screen_w h = 1920%Z ->
  GestureHandler._screen_h h = 1080%Z ->
  (0 < GestureHandler._freeze_px h <= 1920)%Z ->
  (0 < GestureHandler._freeze_py h <= 1080)%Z ->
  match GestureHandler.handle_cursor ev h with
  | (h1, GestureHandler.Raised e) =>
      GestureHandler._on_gesture ev h = (h1, GestureHandler.Raised e)
  | (h1, GestureHandler.Done moved_to) =>
      exists h2 x y,
        GestureHandler._on_gesture ev h
        = (h2, GestureHandler.Done
                 (moved_to, Some (GestureHandler.click x y "left" 1)))
        /\ (GestureHandler._freeze_px h - 1 <= x <= GestureHandler._freeze_px h)%Z
        /\ (GestureHandler._freeze_py h - 1 <= y <= GestureHandler._freeze_py h)%Z
        /\ GestureHandler._action_count h2
           = (GestureHandler._action_count h + 1)%Z
        /\ GestureHandler._freeze_px h2 = 0%Z
        /\ GestureHandler._freeze_py h2 = 0%Z
  end.
Proof.
  intros Hty Hph Hw Hh Hpx Hpy.
  assert (GestureHandler.is_in (Payload.state (Payload.gesture ev))
                               ["start"; "active"]
          && negb (String.eqb (Payload.type (Payload.gesture ev)) "none")
          = false) as Hc by (rewrite Hty, Hph; reflexivity).
  assert (GestureHandler.is_in (Payload.state (Payload.gesture ev))
                               ["end"; "ended"; EmptyString]
          || String.eqb (Payload.type (Payload.gesture ev)) "none"
          = true) as Hu by (rewrite Hty, Hph; reflexivity).
  destruct (cursor_outside_pinch ev h Hc Hu) as [Hfr _].
  destruct (cursor_outside_keeps ev Hc) as (Kpx & Kpy & Kw & Kh & Kn).
  specialize (Kpx h). specialize (Kpy h). specialize (Kw h).
  specialize (Kh h). specialize (Kn h).
  destruct (GestureHandler.handle_cursor ev h) as [h1 [m|e]] eqn:Hcur;
    unfold GestureHandler._on_gesture;
    unfold GestureHandler.and_then at 1; rewrite Hcur; [|reflexivity].
  cbn [fst] in *.
  unfold GestureHandler.and_then at 1.
  rewrite (handle_event_tap ev h1 Hty Hph).
  destruct (aim_near 1920 (GestureHandler._freeze_px h) aim_table_1920
              ltac:(lia)) as (cx & w & x & Hcx & Hfw & Hx & Hbx).
  destruct (aim_near 1080 (GestureHandler._freeze_py h) aim_table_1080
              ltac:(lia)) as (cy & w' & y & Hcy & Hfh & Hy & Hby).
  unfold GestureHandler.respond, GestureHandler.click_point,
    GestureHandler._norm_to_px,
    GestureHandler.and_then, GestureHandler.get, GestureHandler.modify,
    GestureHandler.ret, GestureHandler.lift.
  cbn [fst snd GestureHandler._screen_w GestureHandler._screen_h
       GestureHandler._freeze_px GestureHandler._freeze_py
       GestureHandler._frozen GestureHandler._action_count
       GestureHandler.set_action_count GestureHandler.set_freeze_px
       GestureHandler.set_freeze_py].
  assert (negb (GestureHandler._freeze_px h =? 0)%Z
          && negb (GestureHandler._freeze_py h =? 0)%Z = true) as Hnz.
  { destruct (Z.eqb_spec (GestureHandler._freeze_px h) 0); [lia|].
    destruct (Z.eqb_spec (GestureHandler._freeze_py h) 0); [lia|].
    reflexivity. }
  rewrite Hfr, Kpx, Kpy, Hnz. cbn [orb]. cbv beta iota.
  rewrite Kw, Kh, Hw, Hh, Hcx, Hcy. cbv beta iota. cbn [fst snd].
  rewrite Kw, Kh, Hw, Hh, Hfw, Hfh, Hx, Hy. cbv beta iota. cbn [fst snd].
  eexists _, x, y. split; [reflexivity|].
  cbn [GestureHandler._action_count GestureHandler._freeze_px
       GestureHandler._freeze_py GestureHandler.set_action_count
       GestureHandler.set_freeze_px GestureHandler.set_freeze_py].
  rewrite Kn. auto.
Qed.

(** * Opening the hand *)

Lemma hysteresis_open_hand (pinched : bool) (d : float) :
  (PINCH_EXIT <? d) = true -> hysteresis pinched d = false.
Proof.
  intros H.
  assert (below_enter d = false) as Hb.
  { destruct (below_enter d) eqn:E; [|reflexivity].
    pose proof (below_enter_not_above_exit d E) as H'.
    unfold above_exit in H'. congruence. }
  rewrite (hysteresis_not_below _ _ Hb). unfold above_exit. rewrite H.
  now destruct pinched.
Qed.

Lemma open_hand_step (self : GestureEngine) (f : Frame)
      (self' : GestureEngine) (ev : FrameEvent) :
  update self (frame_lm f) (frame_clk f) = Ok (self', ev) ->
  open_hand (self', ev) ->
  state self' = S_IDLE
  /\ idx_pinched self' = false /\ mid_pinched self' = false
  /\ event_is_pinched ev = false
  /\ (state self = S_IDLE -> event_class ev = ("none", "idle")).
Proof.
  intros Hupd (Hidx & Hmid). cbn [fst] in Hidx, Hmid.
  destruct (sensed_fields self f self' ev Hupd)
    as (_ & _ & _ & _ & _ & _ & _ & Hi & Hm).
  rewrite (hysteresis_open_hand _ _ Hidx) in Hi.
  rewrite (hysteresis_open_hand _ _ Hmid) in Hm.
  destruct (update_inv _ _ _ _ Hupd) as (Hwf & _ & _ & _ & _ & _ & Hpay).
  rewrite (payload_is_pinched _ _ _ Hpay), Hi, Hm.
  destruct (transition_step self f self' ev Hupd) as (Hev & _).
  rewrite Hev.
  destruct (state self) eqn:Hst.
  - destruct (idle_step self f self' ev Hupd Hst) as (_ & _ & _ & _ & Hcase).
    rewrite Hi, Hm in Hcase. cbn [andb] in Hcase.
    destruct Hcase as (Hs & Hg & Hp & _). rewrite Hg, Hp. auto 10.
  - destruct (release_step self f self' ev Hupd Hst Hi)
      as (_ & _ & Hs & _).
    repeat split; auto; discriminate.
  - destruct (mid_step self f self' ev Hupd Hst) as (_ & _ & _ & Hcase).
    rewrite Hm in Hcase.
    destruct (_ <? TAP_MAX_TIME); destruct Hcase as (Hs & _);
      repeat split; auto; discriminate.
Qed.

(** X17. Opening the hand resets the engine: whatever state the engine is
    in, a call of [update] that returns having found both fingertips
    further than [PINCH_EXIT] from the thumb leaves it idle with both
    channels open and an event that is not pinched; and every further such
    call reports (none, idle). No state of the engine survives an open hand,
    and an open hand alone never produces a gesture. *)
Theorem open_hand_resets (self : GestureEngine) (f : Frame)
        (rest : list Frame) (r : GestureEngine * FrameEvent)
        (trace : list (GestureEngine * FrameEvent)) :
  run self (f :: rest) = Ok (r :: trace) ->
  open_hand r ->
  Forall open_hand trace ->
  _dist (tip THUMB_TIP f) (tip INDEX_TIP f) = Ok (idx_dist (fst r))
  /\ _dist (tip THUMB_TIP f) (tip MIDDLE_TIP f) = Ok (mid_dist (fst r))
  /\ state (fst r) = S_IDLE
  /\ event_is_pinched (snd r) = false
  /\ Forall (fun r => state (fst r) = S_IDLE
                      /\ event_class (snd r) = ("none", "idle")) trace.
Proof.
  intros Hrun Hf Hrest.
  destruct (run_cons_inv _ _ _ _ Hrun) as (s & e & rest' & Heq & Hupd & Hrun').
  injection Heq as -> <-. cbn [fst snd].
  destruct (sensed_fields self f s e Hupd)
    as (_ & _ & _ & _ & _ & Hdi & Hdm & _).
  split; [exact Hdi|]. split; [exact Hdm|].
  destruct (open_hand_step self f s e Hupd Hf) as (Hs & _ & _ & Hp & _).
  split; [exact Hs|]. split; [exact Hp|].
  clear Hrun Hupd Hp Hf Hdi Hdm. revert s trace Hs Hrun' Hrest.
  induction rest as [|g rest IH]; intros s trace Hs Hrun Hrest.
  - cbn in Hrun. injection Hrun as <-. constructor.
  - destruct (run_cons_inv _ _ _ _ Hrun) as (s' & e' & rest' & -> & Hupd & Hrun').
    inversion Hrest as [|? ? Hg Hrest']; subst.
    destruct (open_hand_step s g s' e' Hupd Hg) as (Hs' & _ & _ & _ & Hcls).
    constructor; [cbn [fst snd]; auto|].
    exact (IH s' rest' Hs' Hrun' Hrest').
Qed.

End Engine.

(** * Scenarios

    The engine run on closed frames, with [pow2_rounded] for the power. *)

(** One call on closed data: [s] and [e] name the engine and the event the
    call returns. *)
Ltac call_returns s e Hupd self f :=
  let r := eval vm_compute in
             (update pow2_rounded self (frame_lm f) (frame_clk f)) in
  lazymatch r with
  | Ok (?s0, ?e0) =>
      pose (s := s0); pose (e := e0);
      assert (update pow2_rounded self (frame_lm f) (frame_clk f) = Ok (s, e))
        as Hupd by (vm_compute; reflexivity)
  end.

(** A run on closed data: [t] names the trace it returns. *)
Ltac run_returns t Hrun self frames :=
  let r := eval vm_compute in (run pow2_rounded self frames) in
  lazymatch r with
  | Ok ?t0 =>
      pose (t := t0);
      assert (run pow2_rounded self frames = Ok t) as Hrun
        by (vm_compute; reflexivity)
  end.

Ltac computed := vm_compute; reflexivity.

(** Every row of the transition table is taken. *)
Lemma transitions_taken :
  map (row_taken pow2_rounded) (row_examples pow2_rounded)
  = map Some transitions.
Proof. vm_compute. reflexivity. Qed.

(** ** C1 *)

(** The release of the pinch of [tap_scenario] is a tap; the release of a
    pinch that has travelled 0.06 in 66 ms, 0.4 further on and 99 ms after
    its start, is a flick although its duration is in the range of taps. *)
Lemma index_release_classification_witness :
  (let self := engine_after pow2_rounded init (firstn 4 tap_scenario) in
   let f := index_gap_frame 0.10 10.132 in
   exists self' ev,
     update pow2_rounded self (frame_lm f) (frame_clk f) = Ok (self', ev)
     /\ state self = S_IDX_PINCH
     /\ idx_pinched self' = false
     /\ moved self = false
     /\ state self' = S_IDLE
     /\ gtype self' = "tap" /\ gstate self' = "end")
  /\ (let self := engine_after pow2_rounded init (firstn 3 drag_scenario) in
      let f := moving_frame 0.96 0.2 1.099 in
      exists self' ev,
        update pow2_rounded self (frame_lm f) (frame_clk f) = Ok (self', ev)
        /\ state self = S_IDX_PINCH
        /\ idx_pinched self' = false
        /\ moved self = true
        /\ (FLICK_VELOCITY <? vel self') = true
        /\ ((now f - pinch_t0 self) * 1000 / 1000.0 <? TAP_MAX_TIME) = true
        /\ state self' = S_IDLE
        /\ gtype self' = "pinch_flick" /\ gstate self' = "end"
        /\ Payload.type (Payload.gesture ev) = "pinch_flick").
Proof.
  split.
  - intros self f. call_returns s e Hupd self f.
    assert (state self = S_IDX_PINCH) as Hst by computed.
    assert (idx_pinched s = false) as Hrel by computed.
    assert (moved self = false) as Hmv by computed.
    exists s, e.
    split; [exact Hupd|]. split; [exact Hst|]. split; [exact Hrel|].
    split; [exact Hmv|].
    destruct (index_release_classification pow2_rounded self f s e
                Hupd Hst Hrel) as (_ & Hidle & Hend & Hcls & _).
    split; [exact Hidle|]. split; [|exact Hend].
    rewrite Hcls, Hmv. computed.
  - intros self f. call_returns s e Hupd self f.
    assert (state self = S_IDX_PINCH) as Hst by computed.
    assert (idx_pinched s = false) as Hrel by computed.
    assert (moved self = true) as Hmv by computed.
    assert ((FLICK_VELOCITY <? vel s) = true) as Hfast by computed.
    exists s, e.
    split; [exact Hupd|]. split; [exact Hst|]. split; [exact Hrel|].
    split; [exact Hmv|]. split; [exact Hfast|]. split; [computed|].
    destruct (index_release_classification pow2_rounded self f s e
                Hupd Hst Hrel) as (_ & Hidle & Hend & _ & Hflick & Hty & _).
    destruct (Hflick Hmv Hfast) as [Hty' _].
    split; [exact Hidle|]. split; [exact Hty'|]. split; [exact Hend|].
    now rewrite Hty.
Defined.

(** ** C4 *)

(** A middle pinch entered at 1.0 while the index channel closes too, held
    600 ms and released: discarded, no cooldown. *)
Lemma middle_pinch_double_tap_witness :
  let both := frame_at (pt 0.48 0.5) (pt 0.5 0.5) (pt 0.5 0.5) 1.0 in
  let f := middle_gap_frame 0.10 1.6 in
  exists held e0 self' ev,
    update pow2_rounded init (frame_lm both) (frame_clk both) = Ok (held, e0)
    /\ idx_pinched held = true /\ mid_pinched held = true
    /\ state held = S_MID_PINCH
    /\ event_class e0 = ("double_tap", "start")
    /\ update pow2_rounded held (frame_lm f) (frame_clk f) = Ok (self', ev)
    /\ mid_pinched self' = false
    /\ (TAP_MAX_TIME <=? (now f - pinch_t0 held) * 1000 / 1000.0) = true
    /\ state self' = S_IDLE
    /\ gtype self' = "none" /\ gstate self' = "idle"
    /\ _dbl_cooldown_until self' = _dbl_cooldown_until held.
Proof.
  intros both f.
  call_returns held e0 Hupd0 init both.
  call_returns s e Hupd held f.
  assert (mid_pinched held = true) as Hmid by computed.
  assert (mid_pinched s = false) as Hrel by computed.
  assert ((TAP_MAX_TIME <=? (now f - pinch_t0 held) * 1000 / 1000.0) = true)
    as Hlong by computed.
  exists held, e0, s, e.
  destruct (middle_pinch_double_tap pow2_rounded init both held e0 Hupd0)
    as (Hty0 & Hph0 & Henter & _).
  destruct (Henter eq_refl Hmid) as (Hs0 & Hg0 & Hp0 & _).
  destruct (middle_pinch_double_tap pow2_rounded held f s e Hupd)
    as (_ & _ & _ & _ & Hdiscard).
  destruct (Hdiscard Hs0 Hrel Hlong) as (H1 & H2 & H3 & _ & H5).
  split; [exact Hupd0|]. split; [computed|]. split; [exact Hmid|].
  split; [exact Hs0|].
  split; [unfold event_class; now rewrite Hty0, Hph0, Hg0, Hp0|].
  split; [exact Hupd|]. split; [exact Hrel|]. split; [exact Hlong|].
  split; [exact H1|]. split; [exact H2|]. split; [exact H3|]. exact H5.
Defined.

(** ** C2 *)

(** C2, as stated, fails in two ways. At the boundary: a double tap released
    at 1.0 sets the deadline 1.0 + 0.3, and an index pinch arriving exactly
    at the deadline is still vetoed. And after the deadline: an index pinch
    arriving at 1.4 on a frame that closes the middle channel too enters
    [S_MID_PINCH], not [S_IDX_PINCH]. *)
Lemma cooldown_entry_not_as_stated :
  (let frames := [ middle_gap_frame 0.02 0.9; middle_gap_frame 0.10 1.0;
                   index_gap_frame 0.02 (1.0 + 0.3) ] in
   match run pow2_rounded init frames with
   | Ok [ _; (released, _); (self', ev) ] =>
       gtype released = "double_tap" /\ gstate released = "end"
       /\ (_dbl_cooldown_until released <=? 1.0 + 0.3) = true
       /\ idx_pinched self' = true /\ mid_pinched self' = false
       /\ state self' = S_IDLE
       /\ Payload.type (Payload.gesture ev) = "none"
       /\ Payload.state (Payload.gesture ev) = "idle"
   | _ => False
   end)
  /\ (let frames := [ middle_gap_frame 0.02 0.9; middle_gap_frame 0.10 1.0;
                      frame_at (pt 0.48 0.5) (pt 0.5 0.5) (pt 0.5 0.5) 1.4 ] in
      match run pow2_rounded init frames with
      | Ok [ _; (released, _); (self', ev) ] =>
          gtype released = "double_tap" /\ gstate released = "end"
          /\ (_dbl_cooldown_until released <? 1.4) = true
          /\ idx_pinched released = false
          /\ idx_pinched self' = true
          /\ state self' = S_MID_PINCH
          /\ Payload.type (Payload.gesture ev) = "double_tap"
          /\ Payload.state (Payload.gesture ev) = "start"
      | _ => False
      end).
Proof. vm_compute. repeat split; reflexivity. Qed.

(** A double tap released at 1.0, index pinches at 1.1 and at the deadline
    1.0 + 0.3, and an index pinch at 1.4. *)
Lemma cooldown_gate_witness :
  let self := engine_after pow2_rounded init [middle_gap_frame 0.02 0.9] in
  let f := middle_gap_frame 0.10 1.0 in
  let during := [index_gap_frame 0.02 1.1; index_gap_frame 0.02 (1.0 + 0.3)] in
  let g := index_gap_frame 0.02 1.4 in
  exists released ev trace self' ev',
    update pow2_rounded self (frame_lm f) (frame_clk f) = Ok (released, ev)
    /\ state self = S_MID_PINCH
    /\ mid_pinched released = false
    /\ ((now f - pinch_t0 self) * 1000 / 1000.0 <? TAP_MAX_TIME) = true
    /\ run pow2_rounded released during = Ok trace
    /\ Forall2 (fun h r => mid_pinched (fst r) = false
                           /\ (now h <=? now f + DOUBLE_TAP_COOL) = true)
               during trace
    /\ update pow2_rounded (final released trace) (frame_lm g) (frame_clk g)
       = Ok (self', ev')
    /\ mid_pinched self' = false
    /\ (idx_pinched self' && (now f + DOUBLE_TAP_COOL <? now g)) = true
    /\ Forall (fun r => idx_pinched (fst r) = true) trace
    /\ Forall reports_idle trace
    /\ state self' = S_IDX_PINCH
    /\ gtype self' = "pinch_hold" /\ gstate self' = "start".
Proof.
  intros self f during g.
  call_returns released ev Hupd self f.
  run_returns trace Hrun released during.
  call_returns s e Hupd' (final released trace) g.
  assert (state self = S_MID_PINCH) as Hst by computed.
  assert (mid_pinched released = false) as Hrel by computed.
  assert (((now f - pinch_t0 self) * 1000 / 1000.0 <? TAP_MAX_TIME) = true)
    as Hdur by computed.
  assert (Forall2 (fun h r => mid_pinched (fst r) = false
                              /\ (now h <=? now f + DOUBLE_TAP_COOL) = true)
                  during trace) as Hq
    by (repeat constructor; computed).
  assert (mid_pinched s = false) as Hopen by computed.
  assert ((idx_pinched s && (now f + DOUBLE_TAP_COOL <? now g)) = true)
    as Hgo by computed.
  exists released, ev, trace, s, e.
  split; [exact Hupd|]. split; [exact Hst|]. split; [exact Hrel|].
  split; [exact Hdur|]. split; [exact Hrun|]. split; [exact Hq|].
  split; [exact Hupd'|]. split; [exact Hopen|]. split; [exact Hgo|].
  split; [repeat constructor; computed|].
  destruct (cooldown_gate pow2_rounded self f released ev during trace g s e
              Hupd Hst Hrel Hdur Hrun Hq Hupd' Hopen)
    as (_ & _ & _ & Hall & _ & _ & Hcase & _).
  split; [exact Hall|].
  rewrite Hgo in Hcase. exact Hcase.
Defined.

(** ** C3 *)



(** ** C5 *)

(** The pinch of [drag_scenario] crosses the deadzone on its third frame;
    the two frames at rest that follow are still (pinch_drag, active), and
    [moved] is cleared by the release. *)
Lemma sticky_drag_witness :
  let before := engine_after pow2_rounded init (firstn 2 drag_scenario) in
  let f := moving_frame 0.56 0.02 1.066 in
  let held := skipn 3 drag_scenario in
  let fr := moving_frame 0.56 0.2 1.165 in
  exists self e trace self' e',
    update pow2_rounded before (frame_lm f) (frame_clk f) = Ok (self, e)
    /\ state before = S_IDX_PINCH /\ moved before = false
    /\ idx_pinched self = true
    /\ (DRAG_DEADZONE <? cum_move self) = true
    /\ moved self = true
    /\ event_class e = ("pinch_drag", "active")
    /\ run pow2_rounded self held = Ok trace
    /\ state self = S_IDX_PINCH
    /\ Forall (fun r => idx_pinched (fst r) = true) trace
    /\ Forall (fun r => frame_dx (fst r) = 0.0 /\ frame_dy (fst r) = 0.0) trace
    /\ List.length trace = 2%nat
    /\ Forall dragging trace
    /\ update pow2_rounded (final self trace) (frame_lm fr) (frame_clk fr)
       = Ok (self', e')
    /\ moved (final self trace) = true
    /\ moved self' = false
    /\ state (final self trace) = S_IDX_PINCH /\ state self' = S_IDLE.
Proof.
  intros before f held fr.
  call_returns self e Hupd before f.
  run_returns trace Hrun self held.
  call_returns s' e' Hupd' (final self trace) fr.
  assert (state before = S_IDX_PINCH) as H0 by computed.
  assert (idx_pinched self = true) as H1 by computed.
  assert ((DRAG_DEADZONE <? cum_move self) = true) as H2 by computed.
  assert (state self = S_IDX_PINCH) as H3 by computed.
  assert (Forall (fun r => idx_pinched (fst r) = true) trace) as H4
    by (repeat constructor; computed).
  assert (moved (final self trace) = true) as H5 by computed.
  assert (moved s' = false) as H6 by computed.
  destruct sticky_drag with (pow2 := pow2_rounded) as (Hcross & Hstick & Hclear).
  destruct (Hcross before f self e Hupd H0 H1 H2) as (Hm & _ & _ & Hcls).
  exists self, e, trace, s', e'.
  split; [exact Hupd|]. split; [exact H0|]. split; [computed|].
  split; [exact H1|]. split; [exact H2|]. split; [exact Hm|].
  split; [exact Hcls|]. split; [exact Hrun|]. split; [exact H3|].
  split; [exact H4|]. split; [repeat constructor; computed|].
  split; [reflexivity|].
  split; [exact (Hstick self held trace Hrun H3 Hm H4)|].
  split; [exact Hupd'|]. split; [exact H5|]. split; [exact H6|].
  destruct (Hclear (final self trace) s' (frame_lm fr) (frame_clk fr) e'
              Hupd' H5 H6) as [Hrel|[Hidle _]].
  - exact Hrel.
  - exfalso. assert (state (final self trace) = S_IDX_PINCH) as Hs by computed.
    congruence.
Defined.

(** ** C6 *)

(** Distances that rise through both thresholds and fall back without
    crossing again, fed to an open channel; and a call that closes the index
    channel. *)
Lemma hysteresis_flag_witness :
  let ds := [0.02; 0.03; 0.045; 0.06; 0.10; 0.08] in
  let f := index_gap_frame 0.02 1.0 in
  rises_then_falls ds = true
  /\ crossings below_enter ds = 1%nat
  /\ crossings above_exit ds = 1%nat
  /\ changes false ds = 2%nat
  /\ (changes false ds <= 2)%nat
  /\ exists self' ev,
       update pow2_rounded init (frame_lm f) (frame_clk f) = Ok (self', ev)
       /\ _dist pow2_rounded (tip THUMB_TIP f) (tip INDEX_TIP f)
          = Ok (idx_dist self')
       /\ (idx_dist self' <? PINCH_DIST) = true
       /\ idx_pinched init = false
       /\ idx_pinched self' = true.
Proof.
  intros ds f.
  assert (rises_then_falls ds = true) as H1 by computed.
  assert (crossings below_enter ds = 1%nat) as H2 by computed.
  assert (crossings above_exit ds = 1%nat) as H3 by computed.
  call_returns s e Hupd init f.
  assert ((idx_dist s <? PINCH_DIST) = true) as H4 by computed.
  destruct (hysteresis_flag pow2_rounded)
    as (Hclose & _ & Hcall & Htwice & _).
  split; [exact H1|]. split; [exact H2|]. split; [exact H3|].
  split; [computed|].
  split; [exact (Htwice false ds H1 H2 H3)|].
  destruct (Hcall init f s e Hupd) as (Hdi & _ & Hi & _).
  exists s, e. split; [exact Hupd|]. split; [exact Hdi|].
  split; [exact H4|]. split; [reflexivity|].
  rewrite Hi. exact (proj2 (Hclose (idx_dist s)) H4).
Defined.

(** ** C7 *)

(** C7, as stated, fails: on [trail5] the target time is 1.032; the earliest
    sample at or after it is the second one, but the scan of [_calc_vel]
    stops on the first one, whose timestamp lies before the target, and the
    two choices give velocities on either side of the flick threshold. *)
Lemma calc_vel_reference_not_earliest_after_target :
  let target_t := 1.132 - 0.1 in
  spec_reference target_t trail5 = Some (0.3, 0.5, 1.033)
  /\ scan_best target_t (0.1, 0.5, 1.0) trail5 = (0.1, 0.5, 1.0)
  /\ (target_t <=? 1.0) = false
  /\ match _calc_vel pow2_rounded trail5, spec_calc_vel pow2_rounded trail5 with
     | Ok v, Ok w => (w <? FLICK_VELOCITY) = true /\ (FLICK_VELOCITY <? v) = true
     | _, _ => False
     end.
Proof. vm_compute. repeat split; reflexivity. Qed.

(** On [trail5] the reference is the oldest sample, and a trail whose last
    sample lies out of range raises. *)
Lemma calc_vel_reference_witness :
  (3 <= List.length trail5)%nat
  /\ (exists oldest latest,
        getitem trail5 0 = Ok oldest
        /\ getitem_last trail5 = Ok latest
        /\ let target_t := sample_t latest - 0.1 in
           let reference :=
             last (take_while (fun pt => sample_t pt <=? target_t) trail5)
                  oldest in
           let dt := sample_t latest - sample_t reference in
           reference = (0.1, 0.5, 1.0)
           /\ (dt <? 0.01) = false
           /\ _calc_vel pow2_rounded trail5
              = (d <- sample_dist pow2_rounded reference latest ;;
                 Ok (d * (0.1 / dt))))
  /\ _calc_vel pow2_rounded
       [(0.1, 0.5, 1.0); (0.3, 0.5, 1.033); (1e200, 0.5, 1.066)]
     = Raise OverflowError.
Proof.
  assert (3 <= List.length trail5)%nat as Hlen by (simpl; lia).
  split; [exact Hlen|]. split; [|computed].
  destruct (proj1 (proj2 (calc_vel_reference pow2_rounded trail5)) Hlen)
    as (oldest & latest & Ho & Hl & Hfast & Hslow).
  exists oldest, latest. split; [exact Ho|]. split; [exact Hl|].
  cbv zeta in Hslow |- *.
  cbn in Ho, Hl. injection Ho as <-. injection Hl as <-.
  assert ((sample_t (0.5, 0.5, 1.132)
           - sample_t (last (take_while
                               (fun pt => sample_t pt
                                          <=? sample_t (0.5, 0.5, 1.132) - 0.1)
                               trail5) (0.1, 0.5, 1.0)) <? 0.01) = false)
    as Hdt by computed.
  split; [computed|]. split; [exact Hdt|].
  exact (proj2 (Hslow Hdt)).
Defined.

(** ** C8 *)



(** ** C9 *)



(** ** C10 *)

(** After the tap of [tap_scenario], two frames with the hand open and one
    that starts a new pinch: all three still report one tap of 99 ms. *)
Lemma timing_persists_witness :
  let self := engine_after pow2_rounded init tap_scenario in
  let frames := [ index_gap_frame 0.10 10.165; index_gap_frame 0.10 10.198;
                  index_gap_frame 0.02 10.231 ] in
  exists r1 r2 r3,
    run pow2_rounded self frames = Ok [r1; r2; r3]
    /\ state self = S_IDLE
    /\ tap_count self = 1%Z
    /\ round (dur_ms self) 1 = 99.0
    /\ idle r1 /\ idle r2 /\ state (fst r3) = S_IDX_PINCH
    /\ Forall (fun r => reports_timing_of self (snd r)) [r1; r2; r3].
Proof.
  intros self frames.
  let r := eval vm_compute in (run pow2_rounded self frames) in
  lazymatch r with
  | Ok [?a; ?b; ?c] => pose (r1 := a); pose (r2 := b); pose (r3 := c)
  end.
  assert (run pow2_rounded self frames = Ok [r1; r2; r3]) as Hrun by computed.
  assert (state self = S_IDLE) as H1 by computed.
  assert (idle r1) as I1 by computed.
  assert (idle r2) as I2 by computed.
  exists r1, r2, r3.
  split; [exact Hrun|]. split; [exact H1|].
  split; [computed|]. split; [computed|].
  split; [exact I1|]. split; [exact I2|]. split; [computed|].
  pose proof (timing_persists pow2_rounded self frames [r1; r2; r3] Hrun H1)
    as Hall.
  apply Forall_cons; [|apply Forall_cons; [|apply Forall_cons;
                                            [|apply Forall_nil]]].
  - exact (proj2 (proj2 (Hall [] r1 [r2; r3] eq_refl (Forall_nil _)))).
  - exact (proj2 (proj2 (Hall [r1] r2 [r3] eq_refl
                           (Forall_cons r1 I1 (Forall_nil _))))).
  - exact (proj2 (proj2 (Hall [r1; r2] r3 [] eq_refl
                           (Forall_cons r1 I1
                              (Forall_cons r2 I2 (Forall_nil _)))))).
Defined.

(** ** The engine's invariants *)

Lemma engine_coherent_witness :
  exists trace,
    run pow2_rounded init drag_scenario = Ok trace
    /\ coherent init
    /\ List.length trace = 5%nat
    /\ Forall (fun r => coherent (fst r)) trace.
Proof.
  run_returns trace Hrun init drag_scenario.
  assert (coherent init) as Hco by (cbn; auto).
  exists trace. split; [exact Hrun|]. split; [exact Hco|].
  split; [reflexivity|].
  pose proof (engine_coherent pow2_rounded init drag_scenario trace Hrun Hco)
    as Hall.
  eapply Forall_impl; [|exact Hall]. intros r [H _]. exact H.
Defined.

(** Fifteen frames, more than the trail can hold. *)
Lemma trail_window_witness :
  let frames := (tap_scenario ++ drag_scenario ++ tap_scenario)%list in
  exists trace,
    run pow2_rounded init frames = Ok trace
    /\ (List.length (_trail init) <= 12)%nat
    /\ List.length trace = 15%nat
    /\ Forall (fun r => trail_bounded (fst r)) trace.
Proof.
  intros frames.
  run_returns trace Hrun init frames.
  assert (List.length (_trail init) <= 12)%nat as Hlen by (simpl; lia).
  exists trace. split; [exact Hrun|]. split; [exact Hlen|].
  split; [reflexivity|].
  pose proof (trail_window pow2_rounded init frames trace Hrun Hlen) as Hall.
  apply (Forall2_right _ frames trace).
  eapply Forall2_impl; [|exact Hall]. intros f r [H _]. exact H.
Defined.

Lemma transition_table_witness :
  let f := index_gap_frame 0.03 1.0 in
  exists self' ev,
    update pow2_rounded init (frame_lm f) (frame_clk f) = Ok (self', ev)
    /\ state self' = S_IDX_PINCH
    /\ In (S_IDLE, state self', event_class ev) transitions.
Proof.
  intros f. call_returns s e Hupd init f.
  exists s, e. split; [exact Hupd|]. split; [computed|].
  exact (transition_table pow2_rounded init f s e Hupd).
Defined.

(** A tap, then the hand stays open. *)
Lemma end_reported_once_witness :
  let self := engine_after pow2_rounded init [index_gap_frame 0.03 1.0] in
  let g := index_gap_frame 0.2 1.1 in
  let h := index_gap_frame 0.2 1.2 in
  exists s1 e1 s2 e2,
    update pow2_rounded self (frame_lm g) (frame_clk g) = Ok (s1, e1)
    /\ update pow2_rounded s1 (frame_lm h) (frame_clk h) = Ok (s2, e2)
    /\ event_class e1 = ("tap", "end")
    /\ state s1 = S_IDLE
    /\ (event_class e2 = ("none", "idle")
        \/ event_class e2 = ("double_tap", "start")
        \/ event_class e2 = ("pinch_hold", "start")).
Proof.
  intros self g h.
  call_returns s1 e1 Hu1 self g.
  call_returns s2 e2 Hu2 s1 h.
  assert (event_class e1 = ("tap", "end")) as Hc1 by computed.
  assert (snd (event_class e1) = "end") as Hend by computed.
  exists s1, e1, s2, e2.
  split; [exact Hu1|]. split; [exact Hu2|]. split; [exact Hc1|].
  exact (end_reported_once pow2_rounded self g h s1 e1 s2 e2 Hu1 Hu2 Hend).
Defined.

Lemma tap_count_written_by_taps_witness :
  let self := engine_after pow2_rounded init [middle_gap_frame 0.03 1.0] in
  let g := middle_gap_frame 0.2 1.1 in
  exists self' ev,
    update pow2_rounded self (frame_lm g) (frame_clk g) = Ok (self', ev)
    /\ event_class ev = ("double_tap", "end")
    /\ tap_count self = 0%Z
    /\ tap_count self' = 2%Z
    /\ _dbl_cooldown_until self' = now g + DOUBLE_TAP_COOL.
Proof.
  intros self g. call_returns s e Hupd self g.
  assert (event_class e = ("double_tap", "end")) as Hc by computed.
  exists s, e. split; [exact Hupd|]. split; [exact Hc|].
  split; [computed|].
  destruct (tap_count_written_by_taps pow2_rounded self g s e Hupd)
    as (_ & Hdbl & _).
  exact (Hdbl Hc).
Defined.

(** A flick: three frames travel 0.06 inside a pinch, the fourth releases it
    0.4 further on; the event is [(pinch_flick, end)] and reports no motion. *)
Lemma movement_block_witness :
  let self := engine_after pow2_rounded init (firstn 3 drag_scenario) in
  let g := moving_frame 0.96 0.2 1.099 in
  exists self' ev,
    update pow2_rounded self (frame_lm g) (frame_clk g) = Ok (self', ev)
    /\ event_class ev = ("pinch_flick", "end")
    /\ no_motion (movement_of ev).
Proof.
  intros self g. call_returns s e Hupd self g.
  assert (snd (event_class e) = "end") as Hend by computed.
  exists s, e. split; [exact Hupd|]. split; [computed|].
  destruct (movement_block pow2_rounded self g s e Hupd)
    as (_ & _ & _ & Hrest & _).
  exact (Hrest Hend).
Defined.

Lemma landmark_snapshot_witness :
  let f := index_gap_frame 0.03 1.0 in
  exists self' ev,
    update pow2_rounded init (frame_lm f) (frame_clk f) = Ok (self', ev)
    /\ List.length (Payload.landmarks (tracking_of ev)) = 21%nat
    /\ Payload.cursor ev = {| Payload.px := 0.5; Payload.py := 0.5 |}.
Proof.
  intros f. call_returns s e Hupd init f.
  destruct (landmark_snapshot pow2_rounded init f s e Hupd)
    as (Hlen & _ & _ & Hcur).
  exists s, e. split; [exact Hupd|]. split; [exact Hlen|].
  rewrite Hcur. computed.
Defined.

(** A pinch at rest released after 0.3 s, well short of [HOLD_MIN_MS]. *)
Lemma hold_law_witness :
  let f0 := index_gap_frame 0.02 10.0 in
  let held := [index_gap_frame 0.02 10.1; index_gap_frame 0.02 10.2] in
  let fr := index_gap_frame 0.10 10.3 in
  exists r0 trace self' ev,
    run pow2_rounded init (f0 :: held ++ [fr])%list
    = Ok (r0 :: trace ++ [(self', ev)])%list
    /\ state init = S_IDLE
    /\ mid_pinched (fst r0) = false
    /\ idx_pinched (fst r0) = true
    /\ (_dbl_cooldown_until init <? now f0) = true
    /\ Forall (fun r => idx_pinched (fst r) = true
                        /\ below_deadzone (cum_move (fst r))) trace
    /\ idx_pinched self' = false
    /\ ((now fr - now f0) * 1000 / 1000.0 <? TAP_MAX_TIME) = false
    /\ ((now fr - now f0) * 1000 <? HOLD_MIN_MS) = true
    /\ event_class ev = ("pinch_hold", "end")
    /\ tap_count self' = 0%Z.
Proof.
  intros f0 held fr.
  let r := eval vm_compute in
             (run pow2_rounded init (f0 :: held ++ [fr])%list) in
  lazymatch r with
  | Ok [?a; ?b; ?c; (?s0, ?e0)] =>
      pose (r0 := a); pose (trace := [b; c]); pose (s := s0); pose (e := e0)
  end.
  assert (run pow2_rounded init (f0 :: held ++ [fr])%list
          = Ok (r0 :: trace ++ [(s, e)])%list) as Hrun by computed.
  assert (state init = S_IDLE) as H1 by reflexivity.
  assert (mid_pinched (fst r0) = false) as H2 by computed.
  assert (idx_pinched (fst r0) = true) as H3 by computed.
  assert ((_dbl_cooldown_until init <? now f0) = true) as H4 by computed.
  assert (Forall (fun r => idx_pinched (fst r) = true
                           /\ below_deadzone (cum_move (fst r))) trace) as H5
    by (repeat constructor; computed).
  assert (idx_pinched s = false) as H6 by computed.
  assert (((now fr - now f0) * 1000 / 1000.0 <? TAP_MAX_TIME) = false) as H7
    by computed.
  exists r0, trace, s, e.
  split; [exact Hrun|]. split; [exact H1|]. split; [exact H2|].
  split; [exact H3|]. split; [exact H4|]. split; [exact H5|].
  split; [exact H6|]. split; [exact H7|]. split; [computed|].
  destruct (hold_law pow2_rounded init f0 held fr r0 trace s e
              Hrun H1 H2 H3 H4 H5 H6 H7)
    as (_ & _ & Hcls & Htc & _).
  split; [exact Hcls|exact Htc].
Defined.

(** A pinch that travels 0.06 within 66 ms, rests for a frame and is
    released 33 ms later. *)
Lemma moved_release_witness :
  let self := engine_after pow2_rounded init (firstn 3 drag_scenario) in
  let held := [moving_frame 0.56 0.02 1.099] in
  let fr := moving_frame 0.56 0.2 1.132 in
  exists trace self' ev,
    run pow2_rounded self (held ++ [fr])%list
    = Ok (trace ++ [(self', ev)])%list
    /\ state self = S_IDX_PINCH
    /\ moved self = true
    /\ Forall (fun r => idx_pinched (fst r) = true) trace
    /\ idx_pinched self' = false
    /\ ((now fr - pinch_t0 self) * 1000 / 1000.0 <? TAP_MAX_TIME) = true
    /\ Forall dragging trace
    /\ (event_class ev = ("pinch_flick", "end")
        \/ event_class ev = ("pinch_drag", "end"))
    /\ tap_count self' = 0%Z.
Proof.
  intros self held fr.
  let r := eval vm_compute in
             (run pow2_rounded self (held ++ [fr])%list) in
  lazymatch r with
  | Ok [?a; (?s0, ?e0)] =>
      pose (trace := [a]); pose (s := s0); pose (e := e0)
  end.
  assert (run pow2_rounded self (held ++ [fr])%list
          = Ok (trace ++ [(s, e)])%list) as Hrun by computed.
  assert (state self = S_IDX_PINCH) as H1 by computed.
  assert (moved self = true) as H2 by computed.
  assert (Forall (fun r => idx_pinched (fst r) = true) trace) as H3
    by (repeat constructor; computed).
  assert (idx_pinched s = false) as H4 by computed.
  exists trace, s, e.
  split; [exact Hrun|]. split; [exact H1|]. split; [exact H2|].
  split; [exact H3|]. split; [exact H4|]. split; [computed|].
  destruct (moved_release pow2_rounded self held fr trace s e
              Hrun H1 H2 H3 H4)
    as (Hall & _ & _ & Hcls & Htc).
  split; [exact Hall|]. split; [exact Hcls|].
  rewrite Htc. computed.
Defined.

(** ** The overlay *)

(** A drag through the loop: the pinch of [drag_scenario] with the cleanup
    of [draw] after every call, and its release on a sixth frame. *)
Lemma overlay_follows_engine_witness :
  exists st',
    loop_reaches pow2_rounded (init, TestOverlay.init) st'
    /\ overlay_coherent (init, TestOverlay.init)
    /\ state (fst st') = S_IDLE
    /\ List.length (TestOverlay.finished_trails (snd st')) = 1%nat
    /\ overlay_coherent st'
    /\ TestOverlay.draws_active_trail (snd st') = false.
Proof.
  assert (overlay_coherent (init, TestOverlay.init)) as Hco
    by (split; [constructor|cbn; lia]).
  assert (exists st',
             loop_reaches pow2_rounded (init, TestOverlay.init) st'
             /\ state (fst st') = S_IDLE
             /\ List.length (TestOverlay.finished_trails (snd st')) = 1%nat
             /\ TestOverlay.draws_active_trail (snd st') = false)
    as (st' & Hreach & Hidle & Hlen & Hdraw).
  { eexists. split.
    - eapply loop_then;
        [eapply (loop_update _ _ _ (moving_frame 0.50 0.02 1.0) 1.01);
         computed|].
      eapply loop_then; [apply (loop_draw _ _ _ 1.02)|].
      eapply loop_then;
        [eapply (loop_update _ _ _ (moving_frame 0.53 0.02 1.033) 1.04);
         computed|].
      eapply loop_then; [apply (loop_draw _ _ _ 1.05)|].
      eapply loop_then;
        [eapply (loop_update _ _ _ (moving_frame 0.56 0.02 1.066) 1.07);
         computed|].
      eapply loop_then; [apply (loop_draw _ _ _ 1.08)|].
      eapply loop_then; [apply (loop_draw _ _ _ 1.11)|].
      eapply loop_then;
        [eapply (loop_update _ _ _ (moving_frame 0.56 0.2 1.132) 1.14);
         computed|].
      eapply loop_then; [apply (loop_draw _ _ _ 1.15)|].
      apply loop_here.
    - split; [computed|]. split; computed. }
  exists st'. split; [exact Hreach|]. split; [exact Hco|].
  split; [exact Hidle|]. split; [exact Hlen|].
  destruct (overlay_follows_engine pow2_rounded _ st' Hreach Hco) as (Hco' & _).
  split; [exact Hco'|exact Hdraw].
Defined.

Lemma overlay_records_event_witness :
  let self := engine_after pow2_rounded init [index_gap_frame 0.02 10.0] in
  let ov := TestOverlay.on_drag_start 0.5 0.5 TestOverlay.init in
  let f := index_gap_frame 0.10 10.1 in
  exists self' ov' ev,
    update_overlay pow2_rounded self ov (frame_lm f) (frame_clk f) 10.11
    = Ok (self', ov', ev)
    /\ overlay_coherent (self, ov)
    /\ update pow2_rounded self (frame_lm f) (frame_clk f) = Ok (self', ev)
    /\ TestOverlay.tap_markers ov' = [(0.5, 0.5, 10.11, "tap")]
    /\ TestOverlay.finished_trails ov' = [].
Proof.
  intros self ov f.
  let r := eval vm_compute in
             (update_overlay pow2_rounded self ov (frame_lm f) (frame_clk f)
                             10.11) in
  lazymatch r with
  | Ok (?s0, ?o0, ?e0) => pose (s := s0); pose (ov' := o0); pose (e := e0)
  end.
  assert (update_overlay pow2_rounded self ov (frame_lm f) (frame_clk f) 10.11
          = Ok (s, ov', e)) as Hupd by computed.
  assert (overlay_coherent (self, ov)) as Hco
    by (split; [constructor|vm_compute; auto]).
  exists s, ov', e. split; [exact Hupd|]. split; [exact Hco|].
  destruct (overlay_records_event pow2_rounded self ov f 10.11 s ov' e
              Hupd Hco) as (Hupd' & Hm & Ht).
  split; [exact Hupd'|]. rewrite Hm, Ht. split; computed.
Defined.

(** ** The gesture handler *)

(** A flick to the right and its event, seen by a fresh handler for a
    1920 x 1080 screen: one action, a scroll up by one notch. *)
Lemma handler_action_table_witness :
  let self := engine_after pow2_rounded init (firstn 3 drag_scenario) in
  let g := moving_frame 0.96 0.2 1.099 in
  let h := GestureHandler.init 1920 1080 in
  exists self' ev,
    update pow2_rounded self (frame_lm g) (frame_clk g) = Ok (self', ev)
    /\ GestureHandler.transported ev
    /\ event_class ev = ("pinch_flick", "end")
    /\ GestureHandler.handle_event ev h = GestureHandler.response ev h
    /\ snd (GestureHandler.handle_event ev h)
       = GestureHandler.Done
           (Some (GestureHandler.scroll 1843 540 "up" 1))
    /\ GestureHandler._action_count
         (fst (GestureHandler.handle_event ev h)) = 1%Z.
Proof.
  intros self g h. call_returns s e Hupd self g.
  assert (GestureHandler.transported e) as Ht by (split; reflexivity).
  exists s, e. split; [exact Hupd|]. split; [exact Ht|].
  split; [computed|].
  split; [exact (handler_action_table pow2_rounded self g s e Hupd Ht h)|].
  split; computed.
Defined.

(** The entry frame of a pinch, seen by a handler for a 1920 x 1080 screen
    that has tracked the hand before. *)
Lemma cursor_frozen_in_pinch_witness :
  let f := index_gap_frame 0.02 1.0 in
  let h := GestureHandler.init 1920 1080 in
  exists self' ev,
    update pow2_rounded init (frame_lm f) (frame_clk f) = Ok (self', ev)
    /\ GestureHandler.transported ev
    /\ state self' = S_IDX_PINCH
    /\ GestureHandler.handle_cursor ev h
       = (fst (GestureHandler.handle_cursor ev h), GestureHandler.Done None)
    /\ GestureHandler._frozen (fst (GestureHandler.handle_cursor ev h))
       = true
    /\ GestureHandler._freeze_px (fst (GestureHandler.handle_cursor ev h))
       = 960%Z
    /\ GestureHandler._freeze_py (fst (GestureHandler.handle_cursor ev h))
       = 540%Z.
Proof.
  intros f h. call_returns s e Hupd init f.
  assert (GestureHandler.transported e) as Ht by (split; reflexivity).
  assert (state s <> S_IDLE) as Hst by (vm_compute; discriminate).
  exists s, e. split; [exact Hupd|]. split; [exact Ht|].
  split; [computed|]. split; [computed|].
  destruct (cursor_frozen_in_pinch pow2_rounded init f s e Hupd Ht h)
    as [Hpinch _].
  destruct (Hpinch Hst) as [Hfrozen _].
  split; [exact Hfrozen|]. split; computed.
Defined.

Lemma flash_announces_witness :
  let self := engine_after pow2_rounded init [index_gap_frame 0.02 10.0] in
  let f := index_gap_frame 0.10 10.1 in
  exists self' ev,
    update pow2_rounded self (frame_lm f) (frame_clk f) = Ok (self', ev)
    /\ event_class ev = ("tap", "end")
    /\ flash_label self' 10.5 = "TAP"
    /\ flash_label self' 10.8 = EmptyString.
Proof.
  intros self f. call_returns s e Hupd self f.
  exists s, e. split; [exact Hupd|]. split; [computed|].
  destruct (flash_announces pow2_rounded self f s e Hupd) as (_ & Hflash).
  rewrite !Hflash. split; computed.
Defined.

(** The freeze point (123, 39) is missed by one pixel in both
    coordinates. *)
Lemma frozen_click_within_a_pixel_witness :
  let h := {| GestureHandler._screen_w := 1920;
              GestureHandler._screen_h := 1080;
              GestureHandler._action_count := 0;
              GestureHandler._smooth_x := Some 0.06;
              GestureHandler._smooth_y := Some 0.03;
              GestureHandler._frozen := true;
              GestureHandler._freeze_px := 123;
              GestureHandler._freeze_py := 39 |} in
  exists ev,
    update pow2_rounded
           (engine_after pow2_rounded init [index_gap_frame 0.02 10.0])
           (frame_lm (index_gap_frame 0.10 10.1))
           (frame_clk (index_gap_frame 0.10 10.1))
    = Ok (engine_after pow2_rounded init [index_gap_frame 0.02 10.0;
                                          index_gap_frame 0.10 10.1], ev)
    /\ Payload.type (Payload.gesture ev) = "tap"
    /\ Payload.state (Payload.gesture ev) = "end"
    /\ GestureHandler._screen_w h = 1920%Z
    /\ GestureHandler._screen_h h = 1080%Z
    /\ (0 < GestureHandler._freeze_px h <= 1920)%Z
    /\ (0 < GestureHandler._freeze_py h <= 1080)%Z
    /\ exists h2 moved_to,
         GestureHandler._on_gesture ev h
         = (h2, GestureHandler.Done
                  (moved_to, Some (GestureHandler.click 122 38 "left" 1))).
Proof.
  intros h.
  destruct (update pow2_rounded
                   (engine_after pow2_rounded init [index_gap_frame 0.02 10.0])
                   (frame_lm (index_gap_frame 0.10 10.1))
                   (frame_clk (index_gap_frame 0.10 10.1)))
    as [[s ev]|] eqn:Hu; [|vm_compute in Hu; discriminate Hu].
  exists ev. vm_compute in Hu. injection Hu as <- <-.
  split; [vm_compute; reflexivity|].
  match goal with
  | |- ?A /\ ?B /\ ?C /\ ?D /\ ?E /\ ?F /\ _ =>
      assert A as H1 by reflexivity;
      assert B as H2 by reflexivity;
      assert C as H3 by reflexivity;
      assert D as H4 by reflexivity;
      assert E as H5 by (cbn; lia);
      assert F as H6 by (cbn; lia)
  end.
  split; [exact H1|]. split; [exact H2|]. split; [exact H3|].
  split; [exact H4|]. split; [exact H5|]. split; [exact H6|].
  pose proof (frozen_click_within_a_pixel _ h H1 H2 H3 H4 H5 H6) as Hthm.
  destruct (GestureHandler.handle_cursor _ h) as [h1 [m|e]] eqn:Hc;
    [|vm_compute in Hc; discriminate Hc].
  destruct Hthm as (h2 & x & y & Hon & _).
  exists h2, m. rewrite Hon.
  vm_compute in Hon. injection Hon as _ _ Hx Hy.
  now rewrite <- Hx, <- Hy.
Defined.

(** ** Opening the hand *)

(** A drag in progress, then the hand opens for three frames. *)
Lemma open_hand_resets_witness :
  let self := engine_after pow2_rounded init (firstn 3 drag_scenario) in
  let f := moving_frame 0.56 0.2 1.099 in
  let rest := [moving_frame 0.56 0.2 1.132; moving_frame 0.50 0.2 1.165] in
  exists r trace,
    run pow2_rounded self (f :: rest) = Ok (r :: trace)
    /\ state self = S_IDX_PINCH
    /\ open_hand r
    /\ Forall open_hand trace
    /\ state (fst r) = S_IDLE
    /\ event_class (snd r) = ("pinch_drag", "end")
    /\ List.length trace = 2%nat
    /\ Forall (fun r => event_class (snd r) = ("none", "idle")) trace.
Proof.
  intros self f rest.
  let t := eval vm_compute in (run pow2_rounded self (f :: rest)) in
  lazymatch t with
  | Ok (?a :: ?b) => pose (r := a); pose (trace := b)
  end.
  assert (run pow2_rounded self (f :: rest) = Ok (r :: trace)) as Hrun
    by computed.
  assert (open_hand r) as Hf by (split; computed).
  assert (Forall open_hand trace) as Hrest
    by (repeat constructor; computed).
  exists r, trace. split; [exact Hrun|]. split; [computed|].
  split; [exact Hf|]. split; [exact Hrest|].
  destruct (open_hand_resets pow2_rounded self f rest r trace Hrun Hf Hrest)
    as (_ & _ & Hs & _ & Hall).
  split; [exact Hs|]. split; [computed|]. split; [reflexivity|].
  eapply Forall_impl; [|exact Hall]. intros x [_ H]. exact H.
Defined.
